(** * PDF2CSV: the extraction pipeline, embedded and verified

    A shallow embedding of the pure core of the PDF2CSV browser application
    (TypeScript): the paragraph segmenter and the repeat filter of
    [lib/pdf.ts]; the quality gate, the chunker, the decision normalizers,
    the row assembler, the vision fallback and the batch reconciliation of
    [lib/extractor.ts]; the settings of [lib/settings.ts]; the retry runtime
    of [lib/retry.ts]; and [parseOpenAiContent] of [lib/backend.ts].  The
    second part adds the run of one document in live mode, the preparation
    of a batch, [fetchWithPathFallback] of [lib/backend.ts] and the CSV
    export of [lib/exporters.ts].

    Conventions of the embedding.
    - A JavaScript string is a [string]: a sequence of code units, each an
      [ascii] (the Latin-1 range).  [String.length] is [.length].
    - A JavaScript [number] that is a count, an index, a page number, a
      status or a duration in milliseconds is a [Z]; a number read from JSON
      or from a page (a confidence, a coordinate) is a binary64 [float] with
      the kernel's IEEE operations; a quality threshold and a draw of
      [Math.random] are rationals [Q] (every finite double is one).
    - A function that can throw returns a [res]: [Ok v] or [Throw e].
    - [Map] and [Set] are stdpp's [gmap] and [gset].
    - What comes from outside a function (the state of the abort signal,
      the outcome of a request, the runtime's [JSON.parse]) is an argument
      of its model.
    - The callbacks [onLog] and [onProgress] only report; they are left
      out, with the counters that feed nothing else. *)

From Stdlib Require Import ZArith QArith Qround Floats Ascii String DecimalString Sorted.
From Stdlib Require DecimalZ.
From stdpp Require Import base option list gmap sets strings.

#[local] Set Warnings "-register-all".

Local Open Scope string_scope.
Local Open Scope list_scope.
Local Open Scope Z_scope.

(** ** Strings *)

Module Str.

(** The characters of the regular expression class [\s] (and of
    [String.prototype.trim]) that fit a code unit of the Latin-1 range:
    TAB, LF, VT, FF, CR, space and the no-break space. *)
Definition is_space (c : ascii) : bool :=
  let n := nat_of_ascii c in
  ((9 <=? n)%nat && (n <=? 13)%nat) || (n =? 32)%nat || (n =? 160)%nat.

Definition is_lower (c : ascii) : bool :=
  let n := nat_of_ascii c in (97 <=? n)%nat && (n <=? 122)%nat.

Definition is_upper (c : ascii) : bool :=
  let n := nat_of_ascii c in (65 <=? n)%nat && (n <=? 90)%nat.

(** [[A-Za-z]] *)
Definition is_alpha (c : ascii) : bool := is_lower c || is_upper c.

Definition chars (s : string) : list ascii := list_ascii_of_string s.
Definition of_chars (l : list ascii) : string := string_of_list_ascii l.

(** [s.replace(/\s+/g, " ")]: every maximal run of white space becomes one
    space. *)
Fixpoint collapse_ws (l : list ascii) : list ascii :=
  match l with
  | [] => []
  | c :: l' =>
      if is_space c then
        match l' with
        | d :: _ => if is_space d then collapse_ws l' else " "%char :: collapse_ws l'
        | [] => [" "%char]
        end
      else c :: collapse_ws l'
  end.

Fixpoint trim_start (l : list ascii) : list ascii :=
  match l with
  | c :: l' => if is_space c then trim_start l' else l
  | [] => []
  end.

Definition trim_end (l : list ascii) : list ascii := rev (trim_start (rev l)).

(** [s.trim()] *)
Definition trim (s : string) : string := of_chars (trim_end (trim_start (chars s))).

(** [s.replace(/\s+/g, " ").trim()], the normalisation every module of
    the source repeats ([normalizeSpaces], [normalizeParagraph],
    [normalizeForDuplicateCheck] and the key of [dedupeRowsWithinPdf]). *)
Definition normalize_ws (s : string) : string :=
  of_chars (trim_end (trim_start (collapse_ws (chars s)))).

(** [s.split(/\s+/)]: the pieces between maximal runs of white space; the
    empty string gives one empty piece. *)
Fixpoint split_ws_from (cur : list ascii) (l : list ascii) : list string :=
  match l with
  | [] => [of_chars (rev cur)]
  | c :: l' =>
      if is_space c then
        match l' with
        | d :: _ => if is_space d then split_ws_from cur l'
                    else of_chars (rev cur) :: split_ws_from [] l'
        | [] => [of_chars (rev cur); ""]
        end
      else split_ws_from (c :: cur) l'
  end.

Definition split_ws (s : string) : list string := split_ws_from [] (chars s).

(** Truthiness of a string: [Boolean(s)], [!s] negated. *)
Definition truthy (s : string) : bool :=
  match s with EmptyString => false | _ => true end.

(** [(s.match(/[A-Za-z]/g) ?? []).length] *)
Definition count_alpha (s : string) : nat := length (filter (fun c => is_alpha c = true) (chars s)).

Definition last_char (s : string) : option ascii := last (chars s).

(** [s.endsWith("-")] *)
Definition ends_with_hyphen (s : string) : bool :=
  match last_char s with Some c => Ascii.eqb c "-"%char | None => false end.

(** [/^[a-z]/.test(s)] *)
Definition starts_lower (s : string) : bool :=
  match s with String c _ => is_lower c | EmptyString => false end.

(** [s.slice(0, -1)] *)
Definition drop_last (s : string) : string := of_chars (removelast (chars s)).

(** [s.split(/\r?\n/)] *)
Fixpoint split_lines_from (cur : list ascii) (l : list ascii) : list string :=
  match l with
  | [] => [of_chars (rev cur)]
  | c :: l' =>
      if Ascii.eqb c (ascii_of_nat 10) then
        let cur' :=
          match cur with
          | d :: before => if Ascii.eqb d (ascii_of_nat 13) then before else cur
          | [] => cur
          end in
        of_chars (rev cur') :: split_lines_from [] l'
      else split_lines_from (c :: cur) l'
  end.

Definition split_lines (s : string) : list string := split_lines_from [] (chars s).

Fixpoint strip_prefix (pat l : list ascii) : option (list ascii) :=
  match pat, l with
  | [], _ => Some l
  | p :: pat', c :: l' => if Ascii.eqb p c then strip_prefix pat' l' else None
  | _ :: _, [] => None
  end.

Definition to_lower (c : ascii) : ascii :=
  if is_upper c then ascii_of_nat (nat_of_ascii c + 32) else c.

(** [strip_prefix] for a lower-case pattern under the flag [i]. *)
Fixpoint strip_prefix_ci (pat l : list ascii) : option (list ascii) :=
  match pat, l with
  | [], _ => Some l
  | p :: pat', c :: l' => if Ascii.eqb p (to_lower c) then strip_prefix_ci pat' l' else None
  | _ :: _, [] => None
  end.

(** The first occurrence of [pat] in [l]: what is before it and what is
    after it. *)
Fixpoint find_sub (pat l : list ascii) : option (list ascii * list ascii) :=
  match strip_prefix pat l with
  | Some after => Some ([], after)
  | None =>
      match l with
      | [] => None
      | c :: l' =>
          match find_sub pat l' with
          | Some (before, after) => Some (c :: before, after)
          | None => None
          end
      end
  end.

(** [s.indexOf(c)] and [s.lastIndexOf(c)]; [None] is [-1]. *)
Fixpoint index_from (c : ascii) (i : nat) (l : list ascii) : option nat :=
  match l with
  | [] => None
  | d :: l' => if Ascii.eqb c d then Some i else index_from c (S i) l'
  end.

Definition indexOf (s : string) (c : ascii) : option nat := index_from c 0 (chars s).

Fixpoint last_index_from (c : ascii) (i : nat) (l : list ascii) (found : option nat)
  : option nat :=
  match l with
  | [] => found
  | d :: l' => last_index_from c (S i) l' (if Ascii.eqb c d then Some i else found)
  end.

Definition lastIndexOf (s : string) (c : ascii) : option nat :=
  last_index_from c 0 (chars s) None.

(** [s.slice(start, stop)] for [0 <= start <= stop]. *)
Definition slice (s : string) (start stop : nat) : string :=
  of_chars (take (stop - start) (drop start (chars s))).

Definition string_of_nat (n : nat) : string := NilEmpty.string_of_uint (Nat.to_uint n).
Definition string_of_Z (z : Z) : string := NilEmpty.string_of_int (Z.to_int z).

End Str.

(** ** Results of code that can throw *)

(** What a [catch] clause can see.  [AbortError] is
    [new DOMException("Aborted", "AbortError")]; [HttpError] is the class of
    [lib/backend.ts]; [JsError] is any other [Error] (a [TypeError] and a
    [SyntaxError] included) with its message; [Thrown] is a thrown value
    that is not an [Error]. *)
Inductive exn : Type :=
| AbortError
| HttpError (status : Z) (message : string)
| JsError (message : string)
| Thrown.

Inductive res (A : Type) : Type :=
| Ok (a : A)
| Throw (e : exn).
Arguments Ok {A} a.
Arguments Throw {A} e.

#[global] Instance res_ret : MRet res := fun A a => Ok a.
#[global] Instance res_bind : MBind res := fun A B k r =>
  match r with
  | Ok a => k a
  | Throw e => Throw e
  end.

Definition is_ok {A : Type} (r : res A) : bool :=
  match r with Ok _ => true | Throw _ => false end.

(** [error instanceof Error ? error.message : fallback] *)
Definition message_or (e : exn) (fallback : string) : string :=
  match e with
  | AbortError => "Aborted"
  | HttpError _ m => m
  | JsError m => m
  | Thrown => fallback
  end.

(** ** Data model ([types.ts]) *)

Record ParagraphCandidate : Type := {
  pc_id : string;
  pc_pageNumber : Z;
  pc_text : string
}.

Record ExtractionRow : Type := {
  pdf_name : string;
  paragraph : string;
  paragraph_index : Z;
  page_number : option Z;      (* [number | null] *)
  section_heading : string;
  notes : string;
  confidence : option float    (* [number | null] *)
}.

(** ** Chunker ([chunkParagraphs]) *)

Record chunkState : Type := {
  chunks : list (list ParagraphCandidate);
  currentChunk : list ParagraphCandidate;
  currentLength : Z
}.

Definition serializedLength (paragraph : ParagraphCandidate) : Z :=
  Z.of_nat (String.length (pc_text paragraph)) + 120.

(** One turn of the [for ... of] loop. *)
Definition chunk_step (maxChars : Z) (st : chunkState) (paragraph : ParagraphCandidate)
  : chunkState :=
  let st1 :=
    if (0 <? length (currentChunk st))%nat
       && (maxChars <? currentLength st + serializedLength paragraph)
    then {| chunks := chunks st ++ [currentChunk st]; currentChunk := []; currentLength := 0 |}
    else st in
  {| chunks := chunks st1;
     currentChunk := currentChunk st1 ++ [paragraph];
     currentLength := currentLength st1 + serializedLength paragraph |}.

Fixpoint chunk_loop (maxChars : Z) (paragraphs : list ParagraphCandidate) (st : chunkState)
  : chunkState :=
  match paragraphs with
  | [] => st
  | paragraph :: rest => chunk_loop maxChars rest (chunk_step maxChars st paragraph)
  end.

Definition chunkParagraphsWith (paragraphs : list ParagraphCandidate) (maxChars : Z)
  : list (list ParagraphCandidate) :=
  let st := chunk_loop maxChars paragraphs
              {| chunks := []; currentChunk := []; currentLength := 0 |} in
  if (0 <? length (currentChunk st))%nat then chunks st ++ [currentChunk st] else chunks st.

(** The default parameter [maxChars = 7000]. *)
Definition chunkParagraphs (paragraphs : list ParagraphCandidate)
  : list (list ParagraphCandidate) :=
  chunkParagraphsWith paragraphs 7000.

(** The estimated serialized size of a chunk. *)
Definition chunkSize (chunk : list ParagraphCandidate) : Z :=
  foldr (fun p acc => serializedLength p + acc) 0 chunk.

(** ** Quality gate ([isLikelyCodingParagraph], [sanitizeQualitySettings]) *)

(** [ExtractionQualitySettings]; the thresholds are finite numbers. *)
Record ExtractionQualitySettings : Type := {
  minWordsPerParagraph : Q;
  minAlphaCharsPerParagraph : Q;
  shortParagraphWordThreshold : Q;
  requireSentenceTerminatorForShortParagraphs : bool
}.

(** [a < b] on finite numbers. *)
Definition Qltb (a b : Q) : bool := negb (Qle_bool b a).

Definition Q_of_nat (n : nat) : Q := inject_Z (Z.of_nat n).

Definition normalizeParagraph (text : string) : string := Str.normalize_ws text.

Definition is_terminator (c : ascii) : bool :=
  Ascii.eqb c "."%char || Ascii.eqb c "!"%char || Ascii.eqb c "?"%char.

(** The optional closer of the pattern: a double quote, a quote, a closing
    parenthesis or a closing bracket. *)
Definition is_closer (c : ascii) : bool :=
  Ascii.eqb c (ascii_of_nat 34) || Ascii.eqb c "'"%char
  || Ascii.eqb c ")"%char || Ascii.eqb c "]"%char.

(** The test of the pattern of [hasSentenceEnding]: the text ends in one of
    [.], [!], [?], optionally followed by one closer. *)
Definition hasSentenceEnding (s : string) : bool :=
  match rev (Str.chars s) with
  | c :: rest =>
      is_terminator c
      || (is_closer c && match rest with d :: _ => is_terminator d | [] => false end)
  | [] => false
  end.

(** [normalized.split(/\s+/).filter(Boolean)] *)
Definition words_of (normalized : string) : list string :=
  filter (fun w => Str.truthy w = true) (Str.split_ws normalized).

Definition isLikelyCodingParagraph (text : string) (quality : ExtractionQualitySettings)
  : bool :=
  let normalized := normalizeParagraph text in
  if negb (Str.truthy normalized) then false else
  let words := words_of normalized in
  if Qltb (Q_of_nat (length words)) (minWordsPerParagraph quality) then false else
  let alphaChars := Str.count_alpha normalized in
  if Qltb (Q_of_nat alphaChars) (minAlphaCharsPerParagraph quality) then false else
  if negb (requireSentenceTerminatorForShortParagraphs quality) then true else
  if negb (hasSentenceEnding normalized)
     && Qltb (Q_of_nat (length words)) (shortParagraphWordThreshold quality)
  then false else true.

Definition DEFAULT_QUALITY_SETTINGS : ExtractionQualitySettings := {|
  minWordsPerParagraph := 6;
  minAlphaCharsPerParagraph := 18;
  shortParagraphWordThreshold := 12;
  requireSentenceTerminatorForShortParagraphs := true
|}.

(** [Partial<ExtractionQualitySettings>]: a field is [None] when it is
    absent, or when [toFiniteNumber] would reject it (not a number, or not
    finite). *)
Record PartialQualitySettings : Type := {
  in_minWordsPerParagraph : option Q;
  in_minAlphaCharsPerParagraph : option Q;
  in_shortParagraphWordThreshold : option Q;
  in_requireSentenceTerminatorForShortParagraphs : option bool
}.

Definition toFiniteNumber (value : option Q) (fallback : Q) : Q := default fallback value.

Definition Qmin' (a b : Q) : Q := if Qle_bool a b then a else b.
Definition Qmax' (a b : Q) : Q := if Qle_bool a b then b else a.

(** [Math.min(max, Math.max(min, value))] *)
Definition clamp (value min max : Q) : Q := Qmin' max (Qmax' min value).

Definition Math_floor (q : Q) : Q := inject_Z (Qfloor q).

Definition sanitizeQualitySettings (input : option PartialQualitySettings)
  : ExtractionQualitySettings := {|
  minWordsPerParagraph :=
    Math_floor (clamp (toFiniteNumber (input ≫= in_minWordsPerParagraph)
                         (minWordsPerParagraph DEFAULT_QUALITY_SETTINGS)) 1 100);
  minAlphaCharsPerParagraph :=
    Math_floor (clamp (toFiniteNumber (input ≫= in_minAlphaCharsPerParagraph)
                         (minAlphaCharsPerParagraph DEFAULT_QUALITY_SETTINGS)) 1 600);
  shortParagraphWordThreshold :=
    Math_floor (clamp (toFiniteNumber (input ≫= in_shortParagraphWordThreshold)
                         (shortParagraphWordThreshold DEFAULT_QUALITY_SETTINGS)) 1 200);
  requireSentenceTerminatorForShortParagraphs :=
    default (requireSentenceTerminatorForShortParagraphs DEFAULT_QUALITY_SETTINGS)
            (input ≫= in_requireSentenceTerminatorForShortParagraphs)
|}.

(** ** Row assembler ([dedupeRowsWithinPdf]) *)

(** [row.paragraph.replace(/\s+/g, " ").trim()] *)
Definition row_key (row : ExtractionRow) : string := Str.normalize_ws (paragraph row).

(** The [for ... of] loop: [seen] is the [Set], the result is what was
    pushed on [deduped], in order. *)
Fixpoint dedupe_loop (rows : list ExtractionRow) (seen : gset string) : list ExtractionRow :=
  match rows with
  | [] => []
  | row :: rest =>
      let key := row_key row in
      if negb (Str.truthy key) then row :: dedupe_loop rest seen
      else if decide (key ∈ seen) then dedupe_loop rest seen
      else row :: dedupe_loop rest ({[key]} ∪ seen)
  end.

(** [{ ...row, paragraph_index: index + 1 }] *)
Definition with_index (index : nat) (row : ExtractionRow) : ExtractionRow := {|
  pdf_name := pdf_name row;
  paragraph := paragraph row;
  paragraph_index := Z.of_nat index + 1;
  page_number := page_number row;
  section_heading := section_heading row;
  notes := notes row;
  confidence := confidence row
|}.

Definition dedupeRowsWithinPdf (rows : list ExtractionRow) : list ExtractionRow :=
  imap with_index (dedupe_loop rows ∅).

(** ** JSON values and the decision normalizers *)

(** What [JSON.parse] returns.  An object is the list of its properties,
    each name once; a lookup takes the first binding of a name. *)
Inductive json : Type :=
| JNull
| JBool (b : bool)
| JNum (x : float)
| JStr (s : string)
| JArr (items : list json)
| JObj (fields : list (string * json)).

Fixpoint assoc (k : string) (fields : list (string * json)) : option json :=
  match fields with
  | [] => None
  | (k', v) :: rest => if String.eqb k k' then Some v else assoc k rest
  end.

(** [v.k] for a value [v] that is not [undefined]: a [TypeError] on [null],
    [undefined] ([None]) on a missing property and on a number, a boolean,
    a string or an array (none of the property names the source reads is
    one of their own or inherited properties). *)
Definition get (v : json) (k : string) : res (option json) :=
  match v with
  | JNull => Throw (JsError ("Cannot read properties of null (reading '" ++ k ++ "')"))
  | JObj fields => Ok (assoc k fields)
  | _ => Ok None
  end.

(** [v?.k] *)
Definition get_opt (v : option json) (k : string) : option json :=
  match v with
  | Some (JObj fields) => assoc k fields
  | _ => None
  end.

Definition isArray (v : option json) : bool :=
  match v with Some (JArr _) => true | _ => false end.

(** [Boolean(v)] *)
Definition to_boolean (v : option json) : bool :=
  match v with
  | None | Some JNull => false
  | Some (JBool b) => b
  | Some (JNum x) => negb (PrimFloat.eqb x 0 || PrimFloat.is_nan x)
  | Some (JStr s) => Str.truthy s
  | Some (JArr _) | Some (JObj _) => true
  end.

Definition is_neg_zero (x : float) : bool :=
  match PrimFloat.classify x with NZero => true | _ => false end.

(** [Math.min(a, b)] and [Math.max(a, b)]: NaN if either is, and -0 below +0. *)
Definition Math_min (a b : float) : float :=
  if PrimFloat.is_nan a || PrimFloat.is_nan b then PrimFloat.nan
  else if PrimFloat.ltb a b then a
  else if PrimFloat.ltb b a then b
  else if is_neg_zero a then a else b.

Definition Math_max (a b : float) : float :=
  if PrimFloat.is_nan a || PrimFloat.is_nan b then PrimFloat.nan
  else if PrimFloat.ltb a b then b
  else if PrimFloat.ltb b a then a
  else if is_neg_zero a then b else a.

Definition clampConfidence (value : option json) : option float :=
  match value with
  | Some (JNum x) =>
      if PrimFloat.is_nan x then None
      else Some (Math_max PrimFloat.zero (Math_min PrimFloat.one x))
  | _ => None
  end.

Record KeepDecision : Type := {
  kd_id : string;
  kd_section_heading : option string;
  kd_note : option string;
  kd_confidence : option float;
  kd_possible_boilerplate : bool
}.

Record ChunkDecision : Type := {
  cd_keep : list KeepDecision;
  cd_warnings : list string
}.

Record VisionParagraphDecision : Type := {
  vp_text : string;
  vp_section_heading : option string;
  vp_note : option string;
  vp_confidence : option float;
  vp_possible_boilerplate : bool
}.

Record VisionPageDecision : Type := {
  vd_paragraphs : list VisionParagraphDecision;
  vd_warnings : list string
}.

(** [typeof v === "string" ? v.trim() : undefined] *)
Definition trimmed_string (v : option json) : option string :=
  match v with Some (JStr s) => Some (Str.trim s) | _ => None end.

(** The [warnings] of both normalizers. *)
Definition normalizeWarnings (v : option json) : list string :=
  match v with
  | Some (JArr entries) =>
      filter (fun w => Str.truthy w = true)
        (map (fun entry => match entry with JStr s => Str.trim s | _ => "" end) entries)
  | _ => []
  end.

(** The callback of [parsed.keep.map]; [None] is its [null]. *)
Definition normalizeKeepItem (item : json) : res (option KeepDecision) :=
  id ← get item "id";
  match id with
  | Some (JStr id) =>
      if negb (Str.truthy (Str.trim id)) then Ok None else
      section_heading ← get item "section_heading";
      note ← get item "note";
      possible_boilerplate ← get item "possible_boilerplate";
      confidence ← get item "confidence";
      Ok (Some {| kd_id := id;
                  kd_section_heading := trimmed_string section_heading;
                  kd_note := trimmed_string note;
                  kd_possible_boilerplate := to_boolean possible_boilerplate;
                  kd_confidence := clampConfidence confidence |})
  | _ => Ok None
  end.

Definition normalizeDecision (raw : json) : res ChunkDecision :=
  keep ← get raw "keep";
  match keep with
  | Some (JArr items) =>
      mapped ← mapM normalizeKeepItem items;
      warnings ← get raw "warnings";
      Ok {| cd_keep := omap (fun item => item) mapped;
            cd_warnings := normalizeWarnings warnings |}
  | _ => Throw (JsError "Missing keep array in model JSON response.")
  end.

Definition normalizeVisionItem (item : json) : res (option VisionParagraphDecision) :=
  text ← get item "text";
  match text with
  | Some (JStr text) =>
      let text := Str.trim text in
      if negb (Str.truthy text) then Ok None else
      section_heading ← get item "section_heading";
      note ← get item "note";
      possible_boilerplate ← get item "possible_boilerplate";
      confidence ← get item "confidence";
      Ok (Some {| vp_text := text;
                  vp_section_heading := trimmed_string section_heading;
                  vp_note := trimmed_string note;
                  vp_possible_boilerplate := to_boolean possible_boilerplate;
                  vp_confidence := clampConfidence confidence |})
  | _ => Ok None
  end.

Definition normalizeVisionDecision (raw : json) : res VisionPageDecision :=
  paragraphs ← get raw "paragraphs";
  match paragraphs with
  | Some (JArr items) =>
      mapped ← mapM normalizeVisionItem items;
      warnings ← get raw "warnings";
      Ok {| vd_paragraphs := omap (fun item => item) mapped;
            vd_warnings := normalizeWarnings warnings |}
  | _ => Throw (JsError "Missing paragraphs array in vision JSON response.")
  end.

(** ** Line/paragraph segmenter ([lib/pdf.ts]: [median], [linesToParagraphs]) *)

Record Line : Type := {
  line_y : float;
  line_text : string
}.

Definition normalizeSpaces (input : string) : string := Str.normalize_ws input.

Definition appendLine (paragraph line : string) : string :=
  if negb (Str.truthy paragraph) then line
  else if Str.ends_with_hyphen paragraph && Str.starts_lower line
       then Str.drop_last paragraph ++ line
       else paragraph ++ " " ++ line.

(** [[...values].sort((a, b) => a - b)]: [a] goes before [b] when
    [a - b < 0].  The sort is stable; where the comparator is a consistent
    order, as it is on the finite gaps that reach [median], the sorted array
    does not depend on the algorithm. *)
Fixpoint insert_number (x : float) (sorted : list float) : list float :=
  match sorted with
  | [] => [x]
  | y :: rest =>
      if PrimFloat.ltb (PrimFloat.sub x y) PrimFloat.zero then x :: y :: rest
      else y :: insert_number x rest
  end.

Definition sort_numbers (values : list float) : list float :=
  fold_left (fun sorted x => insert_number x sorted) values [].

(** [sorted[i]]; an index out of range gives [undefined], which the
    arithmetic of [median] would turn into NaN. *)
Definition at_index (sorted : list float) (i : nat) : float := nth i sorted PrimFloat.nan.

Definition median (values : list float) : float :=
  if (length values =? 0)%nat then 12%float else
  let sorted := sort_numbers values in
  let mid := (length sorted / 2)%nat in
  if (length sorted mod 2 =? 0)%nat
  then PrimFloat.div (PrimFloat.add (at_index sorted (mid - 1)) (at_index sorted mid)) 2%float
  else at_index sorted mid.

(** [lines[i - 1].y - lines[i].y] for [i = 1 .. lines.length - 1]. *)
Fixpoint consecutive_gaps (lines : list Line) : list float :=
  match lines with
  | prev :: ((line :: _) as rest) =>
      PrimFloat.sub (line_y prev) (line_y line) :: consecutive_gaps rest
  | _ => []
  end.

(** [gap > 0.5 && gap < 40] *)
Definition usable_gap (gap : float) : bool :=
  PrimFloat.ltb 0.5%float gap && PrimFloat.ltb gap 40%float.

(** The constant [1.65] is the double nearest to it. *)
Definition factor_1_65 : float := 0x1.a666666666666p+0%float.

(** The second loop of [linesToParagraphs] from [i = 1] on: [prev] is
    [lines[i - 1]], the state is [(paragraphs, current)]. *)
Fixpoint paragraph_loop (gapThreshold : float) (prev : Line) (lines : list Line)
    (paragraphs : list string) (current : string) : list string * string :=
  match lines with
  | [] => (paragraphs, current)
  | line :: rest =>
      if negb (Str.truthy current) then
        paragraph_loop gapThreshold line rest paragraphs (line_text line)
      else
        let gap := PrimFloat.sub (line_y prev) (line_y line) in
        let isParagraphBreak := PrimFloat.ltb gapThreshold gap in
        if isParagraphBreak then
          let normalized := normalizeSpaces current in
          paragraph_loop gapThreshold line rest
            (if Str.truthy normalized then paragraphs ++ [normalized] else paragraphs)
            (line_text line)
        else
          paragraph_loop gapThreshold line rest paragraphs (appendLine current (line_text line))
  end.

Definition linesToParagraphs (lines : list Line) : list string :=
  match lines with
  | [] => []
  | first :: rest =>
      let gaps := filter (fun gap => usable_gap gap = true) (consecutive_gaps lines) in
      let baselineGap := median gaps in
      let gapThreshold := PrimFloat.mul baselineGap factor_1_65 in
      (* the turn [i = 0] finds [current] empty and takes the first line *)
      let '(paragraphs, current) :=
        paragraph_loop gapThreshold first rest [] (line_text first) in
      let normalized := normalizeSpaces current in
      if Str.truthy normalized then paragraphs ++ [normalized] else paragraphs
  end.

(** *** The splitting step as the specification words it

    Lines are cut into groups at the boundaries where the gap to the previous
    line exceeds the threshold; each group is joined with [appendLine]
    (the de-hyphenation rule), normalised, and kept when not empty. *)

Fixpoint split_at_breaks (threshold : float) (prev : Line) (lines : list Line)
    (group : list Line) : list (list Line) :=
  match lines with
  | [] => [group]
  | line :: rest =>
      if PrimFloat.ltb threshold (PrimFloat.sub (line_y prev) (line_y line))
      then group :: split_at_breaks threshold line rest [line]
      else split_at_breaks threshold line rest (group ++ [line])
  end.

Definition join_group (group : list Line) : string :=
  fold_left appendLine (map line_text group) "".

Definition paragraphs_by_threshold (threshold : float) (lines : list Line) : list string :=
  match lines with
  | [] => []
  | first :: rest =>
      filter (fun p => Str.truthy p = true)
        (map (fun group => normalizeSpaces (join_group group))
             (split_at_breaks threshold first rest [first]))
  end.

(** The threshold of the specification: 1.65 times the median of the gaps
    between consecutive lines, 12 standing for the median when there is no
    gap. *)
Definition linesToParagraphs_spec (lines : list Line) : list string :=
  paragraphs_by_threshold
    (PrimFloat.mul (median (consecutive_gaps lines)) factor_1_65) lines.

(** The threshold of the code: only the gaps strictly between 0.5 and 40
    units enter the median. *)
Definition linesToParagraphs_usable_gaps (lines : list Line) : list string :=
  paragraphs_by_threshold
    (PrimFloat.mul
       (median (filter (fun gap => usable_gap gap = true) (consecutive_gaps lines)))
       factor_1_65) lines.

(** ** Cross-page repeat filter ([removeGlobalRepeats]) *)

Definition normalizeForDuplicateCheck (text : string) : string := Str.normalize_ws text.

(** [/[.!?]$/.test(key)] *)
Definition ends_with_terminator (key : string) : bool :=
  match Str.last_char key with Some c => is_terminator c | None => false end.

Definition string_length (s : string) : Z := Z.of_nat (String.length s).

(** The first loop: the pages of every key of at least 8 characters. *)
Fixpoint collect_pages (candidates : list ParagraphCandidate)
    (keyToPages : gmap string (gset Z)) : gmap string (gset Z) :=
  match candidates with
  | [] => keyToPages
  | candidate :: rest =>
      let key := normalizeForDuplicateCheck (pc_text candidate) in
      if string_length key <? 8 then collect_pages rest keyToPages
      else
        let set := default ∅ (keyToPages !! key) in
        collect_pages rest (<[key := {[pc_pageNumber candidate]} ∪ set]> keyToPages)
  end.

Definition repeatedAcrossPages (keyToPages : gmap string (gset Z))
    (candidate : ParagraphCandidate) : bool :=
  let key := normalizeForDuplicateCheck (pc_text candidate) in
  match keyToPages !! key with
  | Some pageSet =>
      (3 <=? Z.of_nat (size pageSet))
      && (string_length key <? 220)
      && negb (ends_with_terminator key)
  | None => false
  end.

Record RepeatFilterResult : Type := {
  rf_paragraphs : list ParagraphCandidate;
  rf_warnings : list string
}.

(** The second loop: the state is [(removedByRepeat, kept)]. *)
Fixpoint repeat_loop (keyToPages : gmap string (gset Z))
    (candidates : list ParagraphCandidate) (removedByRepeat : nat)
    (kept : list ParagraphCandidate) : nat * list ParagraphCandidate :=
  match candidates with
  | [] => (removedByRepeat, kept)
  | candidate :: rest =>
      if repeatedAcrossPages keyToPages candidate
      then repeat_loop keyToPages rest (S removedByRepeat) kept
      else repeat_loop keyToPages rest removedByRepeat (kept ++ [candidate])
  end.

Definition removeGlobalRepeats (candidates : list ParagraphCandidate) : RepeatFilterResult :=
  let keyToPages := collect_pages candidates ∅ in
  let '(removedByRepeat, kept) := repeat_loop keyToPages candidates 0 [] in
  {| rf_paragraphs := kept;
     rf_warnings :=
       if (0 <? removedByRepeat)%nat
       then ["Removed " +:+ Str.string_of_nat removedByRepeat
             +:+ " repeated short paragraphs likely to be template/header/footer text."]
       else [] |}.

(** ** Retry runtime ([lib/retry.ts]) *)

Definition isTransientError (error : exn) : bool :=
  match error with
  | AbortError => false
  | HttpError status _ => (status =? 429) || (500 <=? status)
  | _ => true
  end.

(** An [AbortSignal] as the retry loop meets it: whether [signal.aborted]
    holds at the head of the loop for a given attempt, and whether the
    [abort] event is dispatched while the sleep after that attempt is
    pending. *)
Record AbortSignal : Type := {
  aborted_at_attempt : nat -> bool;
  fires_during_sleep : nat -> bool
}.

Record RetryOptions : Type := {
  retries : Z;
  baseDelayMs : option Z;
  signal : option AbortSignal
}.

(** What a call of [withRetries] did: its result, the durations of the
    sleeps it started (milliseconds, in order) and how often it called the
    operation. *)
Record RetryRun (T : Type) : Type := {
  run_result : res T;
  run_sleeps : list Z;
  run_calls : nat
}.
Arguments run_result {T} _.
Arguments run_sleeps {T} _.
Arguments run_calls {T} _.

Section WithRetries.

Context {T : Type}.

(** The outcome of the operation at its [n]-th call (from 0), and the
    value of the [n]-th [Math.random()], a number of [[0, 1)]. *)
Variable operation : nat -> res T.
Variable random : nat -> Q.
Variable options : RetryOptions.

(** [lastError instanceof Error ? lastError : new Error(...)] *)
Definition rethrow (lastError : exn) : exn :=
  match lastError with
  | Thrown => JsError "Operation failed after retries"
  | e => e
  end.

Definition signal_aborted (attempt : nat) : bool :=
  match signal options with
  | Some s => aborted_at_attempt s attempt
  | None => false
  end.

Definition sleep_rejected (attempt : nat) : bool :=
  match signal options with
  | Some s => fires_during_sleep s attempt
  | None => false
  end.

(** [Math.floor(Math.random() * 220)] *)
Definition jitter (attempt : nat) : Z := Qfloor (random attempt * 220).

Definition backoff (attempt : nat) : Z :=
  default 800 (baseDelayMs options) * (Z.of_nat attempt + 1) + jitter attempt.

(** The [while (attempt <= retries)] loop, [retries] being an integer.
    [remaining] is [retries - attempt], so the loop condition holds at every
    head and [attempt >= retries] is [remaining = 0]; the loop is left by
    [return], by [break] or by a rejected sleep only. *)
Fixpoint retry_loop (attempt remaining : nat) (sleeps : list Z) : RetryRun T :=
  if signal_aborted attempt then
    {| run_result := Throw AbortError; run_sleeps := sleeps; run_calls := attempt |}
  else
    match operation attempt with
    | Ok value =>
        {| run_result := Ok value; run_sleeps := sleeps; run_calls := S attempt |}
    | Throw error =>
        match remaining with
        | O => {| run_result := Throw (rethrow error); run_sleeps := sleeps;
                  run_calls := S attempt |}
        | S remaining' =>
            if negb (isTransientError error) then
              {| run_result := Throw (rethrow error); run_sleeps := sleeps;
                 run_calls := S attempt |}
            else
              let sleeps' := sleeps ++ [backoff attempt] in
              if sleep_rejected attempt then
                {| run_result := Throw AbortError; run_sleeps := sleeps';
                   run_calls := S attempt |}
              else retry_loop (S attempt) remaining' sleeps'
        end
    end.

(** [const retries = Math.max(0, options.retries)] *)
Definition withRetries : RetryRun T :=
  retry_loop 0 (Z.to_nat (Z.max 0 (retries options))) [].

End WithRetries.

(** ** Rows of the vision path, live and batch *)

(** [notes.join("; ")] for the notes a kept paragraph gets: its [note] when
    truthy, then the boilerplate mark. *)
Definition join_notes (note : option string) (possible_boilerplate : bool) : string :=
  let notes :=
    (match note with
     | Some n => if Str.truthy n then [n] else []
     | None => []
     end)
    ++ (if possible_boilerplate then ["possible boilerplate"] else []) in
  match notes with
  | [] => ""
  | [a] => a
  | a :: b :: _ => a +:+ "; " +:+ b
  end.

(** The body of [decision.paragraphs.forEach] in the vision path. *)
Definition visionRow (pdfName : string) (pageNumber : Z)
    (qualitySettings : ExtractionQualitySettings) (paragraph : VisionParagraphDecision)
  : option ExtractionRow :=
  if negb (isLikelyCodingParagraph (vp_text paragraph) qualitySettings) then None
  else Some {|
    pdf_name := pdfName;
    paragraph := vp_text paragraph;
    paragraph_index := 0;
    page_number := Some pageNumber;
    section_heading := default "" (vp_section_heading paragraph);
    notes := join_notes (vp_note paragraph) (vp_possible_boilerplate paragraph);
    confidence := vp_confidence paragraph
  |}.

Definition visionRows (pdfName : string) (pageNumber : Z)
    (qualitySettings : ExtractionQualitySettings) (decision : VisionPageDecision)
  : list ExtractionRow :=
  omap (visionRow pdfName pageNumber qualitySettings) (vd_paragraphs decision).

(** The row of a page whose extraction failed. *)
Definition visionFailureRow (pdfName : string) (pageNumber : Z) (message : string)
  : ExtractionRow := {|
  pdf_name := pdfName;
  paragraph := "";
  paragraph_index := 0;
  page_number := Some pageNumber;
  section_heading := "";
  notes := "Vision extraction failed on page " +:+ Str.string_of_Z pageNumber
           +:+ ": " +:+ message;
  confidence := None
|}.

(** The placeholder of a document from which nothing was extracted. *)
Definition nothingExtractedRow (pdfName : string) : ExtractionRow := {|
  pdf_name := pdfName;
  paragraph := "";
  paragraph_index := 0;
  page_number := None;
  section_heading := "";
  notes := "No extractable paragraphs were found by text-layer parsing or vision OCR extraction.";
  confidence := None
|}.

(** The callback of [chunk.map] in [fallbackRowsFromChunk]. *)
Definition fallbackRow (pdfName errorMessage : string) (paragraph : ParagraphCandidate)
  : ExtractionRow := {|
  pdf_name := pdfName;
  paragraph := pc_text paragraph;
  paragraph_index := 0;
  page_number := Some (pc_pageNumber paragraph);
  section_heading := "";
  notes := "LLM filtering failed for this chunk; included paragraph as fallback. Error: "
           +:+ errorMessage;
  confidence := None
|}.

Definition fallbackRowsFromChunk (pdfName : string) (chunk : list ParagraphCandidate)
    (errorMessage : string) : list ExtractionRow :=
  map (fallbackRow pdfName errorMessage) chunk.

(** ** Vision fallback, live mode ([processPdfWithVisionFallback])

    What the run meets from outside is part of the input: for the file,
    whether the signal is already aborted when it is opened and whether the
    PDF loads; for each page, whether the signal is aborted when
    [iteratePdfPageImages] reaches it, whether it renders, whether the
    signal is aborted when the page callback starts, and the outcome of
    [await withRetries(() => extractPageParagraphsWithVision(...))]. *)

Record VisionPage : Type := {
  vpg_abortedAtPage : bool;
  vpg_image : res string;
  vpg_abortedAtCall : bool;
  vpg_outcome : res VisionPageDecision
}.

Record VisionFile : Type := {
  vf_name : string;
  vf_abortedAtOpen : bool;
  vf_pages : res (list VisionPage)
}.

(** [iteratePdfPageImages]: pages are numbered from 1; [rows] is the array
    the callback pushes on. *)
Fixpoint iterate_pages (onPage : Z -> VisionPage -> list ExtractionRow -> res (list ExtractionRow))
    (pageNumber : Z) (pages : list VisionPage) (rows : list ExtractionRow)
  : res (list ExtractionRow) :=
  match pages with
  | [] => Ok rows
  | page :: rest =>
      if vpg_abortedAtPage page then Throw AbortError else
      _ ← vpg_image page;
      rows' ← onPage pageNumber page rows;
      iterate_pages onPage (pageNumber + 1) rest rows'
  end.

Definition iteratePdfPageImages (file : VisionFile)
    (onPage : Z -> VisionPage -> list ExtractionRow -> res (list ExtractionRow))
    (rows : list ExtractionRow) : res (list ExtractionRow) :=
  if vf_abortedAtOpen file then Throw AbortError else
  pages ← vf_pages file;
  iterate_pages onPage 1 pages rows.

(** The page callback of [processPdfWithVisionFallback]. *)
Definition visionPageCallback (pdfName : string) (qualitySettings : ExtractionQualitySettings)
    (pageNumber : Z) (page : VisionPage) (rows : list ExtractionRow)
  : res (list ExtractionRow) :=
  if vpg_abortedAtCall page then Throw AbortError else
  match vpg_outcome page with
  | Ok decision =>
      if (length (vd_paragraphs decision) =? 0)%nat then Ok rows
      else Ok (rows ++ visionRows pdfName pageNumber qualitySettings decision)
  | Throw AbortError => Throw AbortError
  | Throw error =>
      let message := message_or error "Unknown vision extraction error" in
      Ok (rows ++ [visionFailureRow pdfName pageNumber message])
  end.

Definition processPdfWithVisionFallback (file : VisionFile)
    (quality : option PartialQualitySettings) : res (list ExtractionRow) :=
  let qualitySettings := sanitizeQualitySettings quality in
  rows ← iteratePdfPageImages file (visionPageCallback (vf_name file) qualitySettings) [];
  let rows :=
    if (length rows =? 0)%nat then rows ++ [nothingExtractedRow (vf_name file)] else rows in
  Ok (dedupeRowsWithinPdf rows).

(** ** Batch reconciliation ([importOpenAiBatchResultFiles]) *)

Inductive ExtractionBatchTask : Type :=
| TextFilterBatchTask (customId pdfName : string)
    (fileIndex taskIndex chunkIndex totalChunks : Z) (chunk : list ParagraphCandidate)
| VisionPageBatchTask (customId pdfName : string)
    (fileIndex taskIndex pageNumber totalPages : Z).

Definition task_customId (task : ExtractionBatchTask) : string :=
  match task with
  | TextFilterBatchTask customId _ _ _ _ _ _ => customId
  | VisionPageBatchTask customId _ _ _ _ _ => customId
  end.

Definition task_pdfName (task : ExtractionBatchTask) : string :=
  match task with
  | TextFilterBatchTask _ pdfName _ _ _ _ _ => pdfName
  | VisionPageBatchTask _ pdfName _ _ _ _ => pdfName
  end.

Inductive FileMode : Type := mode_text | mode_vision.

Record ExtractionBatchFilePlan : Type := {
  fp_pdfName : string;
  fp_fileIndex : Z;
  fp_mode : FileMode;
  fp_totalPages : Z
}.

Record OpenAiExtractionBatchManifest : Type := {
  mf_createdAt : string;
  mf_model : string;
  mf_quality : PartialQualitySettings;
  mf_files : list ExtractionBatchFilePlan;
  mf_tasks : list ExtractionBatchTask
}.

(** [choices?.[0]] *)
Definition first_element (v : option json) : option json :=
  match v with
  | Some (JArr (x :: _)) => Some x
  | Some (JObj fields) => assoc "0" fields
  | Some (JStr (String c _)) => Some (JStr (String c EmptyString))
  | _ => None
  end.

Definition strings_of (values : list (option json)) : list string :=
  omap (fun v => match v with Some (JStr s) => Some s | _ => None end) values.

Definition parseOpenAiContent (data : json) : res string :=
  choices ← get data "choices";
  let choice := first_element choices in
  let content := get_opt (get_opt choice "message") "content" in
  let unexpected :=
    Throw (JsError "OpenAI-compatible endpoint returned an unexpected response shape.") in
  match content with
  | Some (JStr s) => Ok s
  | Some (JArr items) =>
      texts ← mapM (fun item => get item "text") items;
      let text := String.concat "" (strings_of texts) in
      if Str.truthy text then Ok text else unexpected
  | _ => unexpected
  end.

Definition fence : list ascii := ["`"%char; "`"%char; "`"%char].

(** The first capture group of the pattern of [extractJsonObject]: after
    the first fence, an optional [json] in any case and white space are
    skipped, and the group runs to the next fence.  Neither skip can cross a
    backquote, so a match exists exactly when a fence follows the first one,
    and it is this one. *)
Definition fencedMatch (raw : string) : option string :=
  match Str.find_sub fence (Str.chars raw) with
  | Some (_, after) =>
      let after :=
        default after (Str.strip_prefix_ci (Str.chars "json") after) in
      match Str.find_sub fence (Str.trim_start after) with
      | Some (captured, _) => Some (Str.of_chars captured)
      | None => None
      end
  | None => None
  end.

Definition extractJsonObject (raw : string) : res string :=
  let braces :=
    match Str.indexOf raw "{"%char, Str.lastIndexOf raw "}"%char with
    | Some start, Some stop =>
        if (stop <=? start)%nat then Throw (JsError "Model output did not contain JSON.")
        else Ok (Str.slice raw start (stop + 1))
    | _, _ => Throw (JsError "Model output did not contain JSON.")
    end in
  match fencedMatch raw with
  | Some captured => if Str.truthy captured then Ok (Str.trim captured) else braces
  | None => braces
  end.

(** The key step of both loops over [decision.keep]: [candidateMap] is the
    [Map] from ids to candidates, [used] the [Set] of ids already kept. *)
Fixpoint keep_loop (pdfName : string) (qualitySettings : ExtractionQualitySettings)
    (candidateMap : gmap string ParagraphCandidate) (keeps : list KeepDecision)
    (used : gset string) : list ExtractionRow :=
  match keeps with
  | [] => []
  | keep :: rest =>
      match candidateMap !! kd_id keep with
      | None => keep_loop pdfName qualitySettings candidateMap rest used
      | Some candidate =>
          if decide (kd_id keep ∈ used)
          then keep_loop pdfName qualitySettings candidateMap rest used
          else if negb (isLikelyCodingParagraph (pc_text candidate) qualitySettings)
          then keep_loop pdfName qualitySettings candidateMap rest used
          else
            {| pdf_name := pdfName;
               paragraph := pc_text candidate;
               paragraph_index := 0;
               page_number := Some (pc_pageNumber candidate);
               section_heading := default "" (kd_section_heading keep);
               notes := join_notes (kd_note keep) (kd_possible_boilerplate keep);
               confidence := kd_confidence keep |}
            :: keep_loop pdfName qualitySettings candidateMap rest ({[kd_id keep]} ∪ used)
      end
  end.

(** [new Map(entries)]: a later entry replaces an earlier one of the same
    key. *)
Definition map_of_entries {V : Type} (entries : list (string * V)) : gmap string V :=
  fold_left (fun m entry => <[entry.1 := entry.2]> m) entries ∅.

Definition textFilterRows (pdfName : string) (qualitySettings : ExtractionQualitySettings)
    (chunk : list ParagraphCandidate) (decision : ChunkDecision) : list ExtractionRow :=
  let candidateMap := map_of_entries (map (fun item => (pc_id item, item)) chunk) in
  keep_loop pdfName qualitySettings candidateMap (cd_keep decision) ∅.

(** [pushRow] *)
Definition pushRow (rowsByPdf : gmap string (list ExtractionRow)) (pdfName : string)
    (row : ExtractionRow) : gmap string (list ExtractionRow) :=
  let current := default [] (rowsByPdf !! pdfName) in
  <[pdfName := current ++ [row]]> rowsByPdf.

(** [[...manifest.files].sort((a, b) => a.fileIndex - b.fileIndex)], a
    stable sort. *)
Fixpoint insert_file (f : ExtractionBatchFilePlan) (sorted : list ExtractionBatchFilePlan)
  : list ExtractionBatchFilePlan :=
  match sorted with
  | [] => [f]
  | g :: rest =>
      if fp_fileIndex f - fp_fileIndex g <? 0 then f :: g :: rest
      else g :: insert_file f rest
  end.

Definition sort_files (files : list ExtractionBatchFilePlan) : list ExtractionBatchFilePlan :=
  fold_left (fun sorted f => insert_file f sorted) files [].

(** The body of the last loop: the rows of one file plan.  An array found
    in [rowsByPdf] is never empty, so the placeholder is only ever pushed on
    the fresh array. *)
Definition rowsForFilePlan (rowsByPdf : gmap string (list ExtractionRow))
    (filePlan : ExtractionBatchFilePlan) : list ExtractionRow :=
  let rows := default [] (rowsByPdf !! fp_pdfName filePlan) in
  let rows :=
    match fp_mode filePlan with
    | mode_vision =>
        if (length rows =? 0)%nat then rows ++ [nothingExtractedRow (fp_pdfName filePlan)]
        else rows
    | mode_text => rows
    end in
  dedupeRowsWithinPdf rows.

Section BatchImport.

(** The runtime's [JSON.parse] and its conversion of a number to a
    string (in a template literal). *)
Variable JSON_parse : string -> res json.
Variable Number_toString : float -> string.

Definition parseOpenAiJsonResponse (body : json) : res json :=
  content ← parseOpenAiContent body;
  jsonText ← extractJsonObject content;
  JSON_parse jsonText.

Definition parseBatchLines (text : string) : res (list json) :=
  mapM JSON_parse
    (filter (fun line => Str.truthy line = true) (map Str.trim (Str.split_lines text))).

(** The entries [[line.custom_id, line]] of the lines whose [custom_id]
    is a non-empty string. *)
Fixpoint keyed_lines (lines : list json) : res (list (string * json)) :=
  match lines with
  | [] => Ok []
  | line :: rest =>
      custom_id ← get line "custom_id";
      entries ← keyed_lines rest;
      match custom_id with
      | Some (JStr s) =>
          if (0 <? String.length s)%nat then Ok ((s, line) :: entries) else Ok entries
      | _ => Ok entries
      end
  end.

(** [outputMap] and [errorMap]; [fileText] is [string | null]. *)
Definition resultMap (fileText : option string) : res (gmap string json) :=
  lines ← parseBatchLines (default "" fileText);
  entries ← keyed_lines lines;
  Ok (map_of_entries entries).

(** [line.error?.message?.trim()]: calling [trim] on a message that is
    neither nullish nor a string is a [TypeError]. *)
Definition error_message_trimmed (line : option json) : res (option string) :=
  match get_opt (get_opt line "error") "message" with
  | None | Some JNull => Ok None
  | Some (JStr s) => Ok (Some (Str.trim s))
  | Some _ => Throw (JsError "line.error?.message?.trim is not a function")
  end.

Definition formatBatchError (line : option json) : res string :=
  if negb (to_boolean line) then Ok "No batch result was returned for this request." else
  trimmed ← error_message_trimmed line;
  match trimmed with
  | Some (String c m) => Ok (String c m)
  | _ =>
      match get_opt (get_opt line "response") "status_code" with
      | Some (JNum status_code) =>
          if PrimFloat.leb 400%float status_code then
            let body := get_opt (get_opt line "response") "body" in
            let message :=
              match get_opt (get_opt body "error") "message" with
              | Some (JStr m) => m
              | _ => ""
              end in
            if Str.truthy message
            then Ok ("HTTP " +:+ Number_toString status_code +:+ ": " +:+ message)
            else Ok ("HTTP " +:+ Number_toString status_code
                     +:+ " returned by batch result.")
          else Ok "Batch request did not return a usable response."
      | _ => Ok "Batch request did not return a usable response."
      end
  end.

(** The condition under which the [try] block throws the formatted
    error: no truthy body, or no numeric status below 400. *)
Definition unusable (line : option json) : bool :=
  negb (to_boolean (get_opt (get_opt line "response") "body"))
  || match get_opt (get_opt line "response") "status_code" with
     | Some (JNum status_code) => PrimFloat.leb 400%float status_code
     | _ => true
     end.

(** The [try] block of one task: the rows it pushes, or what it throws
    (it throws before it pushes). *)
Definition taskAttempt (qualitySettings : ExtractionQualitySettings)
    (task : ExtractionBatchTask) (line : option json) : res (list ExtractionRow) :=
  if unusable line then
    message ← formatBatchError line;
    Throw (JsError message)
  else
    rawObject ← parseOpenAiJsonResponse
                  (default JNull (get_opt (get_opt line "response") "body"));
    match task with
    | TextFilterBatchTask _ pdfName _ _ _ _ chunk =>
        decision ← normalizeDecision rawObject;
        Ok (textFilterRows pdfName qualitySettings chunk decision)
    | VisionPageBatchTask _ pdfName _ _ pageNumber _ =>
        decision ← normalizeVisionDecision rawObject;
        if (length (vd_paragraphs decision) =? 0)%nat then Ok []
        else Ok (visionRows pdfName pageNumber qualitySettings decision)
    end.

(** The [catch] block of one task: the rows it pushes for [message]. *)
Definition failureRows (task : ExtractionBatchTask) (message : string) : list ExtractionRow :=
  match task with
  | TextFilterBatchTask _ pdfName _ _ _ _ chunk =>
      fallbackRowsFromChunk pdfName chunk message
  | VisionPageBatchTask _ pdfName _ _ pageNumber _ =>
      [visionFailureRow pdfName pageNumber message]
  end.

(** The rows of one task, [try] and [catch] together. *)
Definition taskRows (qualitySettings : ExtractionQualitySettings)
    (task : ExtractionBatchTask) (line : option json) : list ExtractionRow :=
  match taskAttempt qualitySettings task line with
  | Ok rows => rows
  | Throw error => failureRows task (message_or error "Unknown batch result error")
  end.

(** [outputMap.get(task.customId) ?? errorMap.get(task.customId)] *)
Definition lookup_line (outputMap errorMap : gmap string json)
    (task : ExtractionBatchTask) : option json :=
  match outputMap !! task_customId task with
  | Some line => Some line
  | None => errorMap !! task_customId task
  end.

(** The loop over [manifest.tasks]. *)
Definition collectRows (qualitySettings : ExtractionQualitySettings)
    (outputMap errorMap : gmap string json) (tasks : list ExtractionBatchTask)
    (rowsByPdf : gmap string (list ExtractionRow)) : gmap string (list ExtractionRow) :=
  fold_left
    (fun rowsByPdf task =>
       fold_left (fun m row => pushRow m (task_pdfName task) row)
         (taskRows qualitySettings task (lookup_line outputMap errorMap task))
         rowsByPdf)
    tasks rowsByPdf.

Definition importOpenAiBatchResultFiles (manifest : OpenAiExtractionBatchManifest)
    (outputFileText errorFileText : option string) : res (list ExtractionRow) :=
  outputMap ← resultMap outputFileText;
  errorMap ← resultMap errorFileText;
  let qualitySettings := sanitizeQualitySettings (Some (mf_quality manifest)) in
  let rowsByPdf :=
    collectRows qualitySettings outputMap errorMap (mf_tasks manifest) ∅ in
  let sortedFiles := sort_files (mf_files manifest) in
  Ok (concat (map (rowsForFilePlan rowsByPdf) sortedFiles)).

End BatchImport.

(** ** Predicates used by the statements and the invariants of the loops *)

(** A chunk of two paragraphs or more is within the budget. *)
Definition within_budget (maxChars : Z) (chunk : list ParagraphCandidate) : Prop :=
  (2 <= length chunk)%nat -> chunkSize chunk <= maxChars.

(** The invariant of the loop of [chunkParagraphs], [processed] being the
    paragraphs seen so far. *)
Definition chunk_inv (maxChars : Z) (processed : list ParagraphCandidate) (st : chunkState)
  : Prop :=
  Forall (fun chunk => chunk <> []) (chunks st)
  /\ concat (chunks st) ++ currentChunk st = processed
  /\ currentLength st = chunkSize (currentChunk st)
  /\ Forall (within_budget maxChars) (chunks st)
  /\ within_budget maxChars (currentChunk st).

(** ** Inputs of the worked examples *)

Definition lower_example : ExtractionQualitySettings := DEFAULT_QUALITY_SETTINGS.
Definition higher_example : ExtractionQualitySettings := {|
  minWordsPerParagraph := 8;
  minAlphaCharsPerParagraph := 30;
  shortParagraphWordThreshold := 12;
  requireSentenceTerminatorForShortParagraphs := true
|}.


(** ** The decision normalizers, declaratively *)

(** The property [k] of a parsed value, when it is an object that has it. *)
Definition field (v : json) (k : string) : option json := get_opt (Some v) k.

(** The element carries an [id] that is a string and is not empty once
    trimmed: what [normalizeDecision] keeps. *)
Definition has_id (item : json) : bool :=
  match field item "id" with
  | Some (JStr id) => Str.truthy (Str.trim id)
  | _ => false
  end.

(** The element carries an [id] that is a non-empty string. *)
Definition has_nonempty_id (item : json) : bool :=
  match field item "id" with
  | Some (JStr id) => Str.truthy id
  | _ => false
  end.

(** The element carries a [text] that is a string and is not empty once
    trimmed: what [normalizeVisionDecision] keeps. *)
Definition has_text (item : json) : bool :=
  match field item "text" with
  | Some (JStr text) => Str.truthy (Str.trim text)
  | _ => false
  end.

Definition string_field (item : json) (k : string) : string :=
  match field item k with
  | Some (JStr s) => s
  | _ => ""
  end.

(** The decision made of a kept element. *)
Definition keepDecisionOf (item : json) : KeepDecision := {|
  kd_id := string_field item "id";
  kd_section_heading := trimmed_string (field item "section_heading");
  kd_note := trimmed_string (field item "note");
  kd_confidence := clampConfidence (field item "confidence");
  kd_possible_boilerplate := to_boolean (field item "possible_boilerplate")
|}.

Definition visionParagraphOf (item : json) : VisionParagraphDecision := {|
  vp_text := Str.trim (string_field item "text");
  vp_section_heading := trimmed_string (field item "section_heading");
  vp_note := trimmed_string (field item "note");
  vp_confidence := clampConfidence (field item "confidence");
  vp_possible_boilerplate := to_boolean (field item "possible_boilerplate")
|}.

(** The double nearest to 1.7, what [JSON.parse] makes of [1.7]. *)
Definition number_1_7 : float := 0x1.b333333333333p+0%float.

Definition scenario_D : json :=
  JObj [("keep", JArr [JObj [("id", JStr "p1-1"); ("confidence", JNum number_1_7)]])].

(** An element whose [id] is one space, and the decisions around it. *)
Definition blank_id_item : json := JObj [("id", JStr " ")].
Definition blank_id_decision : json :=
  JObj [("keep", JArr [JObj [("id", JStr "p1-1")]; blank_id_item])].
Definition null_item_decision : json :=
  JObj [("keep", JArr [JObj [("id", JStr "p1-1")]; JNull])].

(** ** The segmenter's loop and the groups of the specification *)

(** What the end of [linesToParagraphs] does with the state of the loop. *)
Definition close_paragraph (state : list string * string) : list string :=
  let normalized := normalizeSpaces state.2 in
  if Str.truthy normalized then state.1 ++ [normalized] else state.1.

Definition group_paragraphs (groups : list (list Line)) : list string :=
  filter (fun p => Str.truthy p = true)
    (map (fun group => normalizeSpaces (join_group group)) groups).


Definition line (y : float) (text : string) : Line := {| line_y := y; line_text := text |}.

Definition wide_gap_page : list Line :=
  [line 200 "a"; line 150 "b"; line 100 "c"; line 90 "d"; line 60 "e"].


(** ** Retry: the quiet signal and scenario E *)

(** The options carry no signal, or one that never fires. *)
Definition quiet (options : RetryOptions) : Prop :=
  match signal options with
  | Some s => forall n, aborted_at_attempt s n = false /\ fires_during_sleep s n = false
  | None => True
  end.

Definition scenario_E_operation (n : nat) : res string :=
  match n with
  | 0%nat | 1%nat => Throw (HttpError 503 "Service Unavailable")
  | _ => Ok "done"
  end.

Definition scenario_E_options : RetryOptions :=
  {| retries := 2; baseDelayMs := Some 10; signal := None |}.


(** A random source that always draws 1/2. *)
Definition half (n : nat) : Q := 1 # 2.

(** ** Scenario C *)

Definition cookie_policy (page : Z) : ParagraphCandidate :=
  {| pc_id := "p" +:+ Str.string_of_Z page +:+ "-1";
     pc_pageNumber := page;
     pc_text := " Cookie   Policy " |}.

(** ** Vision fallback and batch reconciliation *)

(** What [dedupeRowsWithinPdf] makes of the placeholder alone. *)
Definition placeholderRow (pdfName : string) : ExtractionRow :=
  with_index 0 (nothingExtractedRow pdfName).

(** Nothing from outside stops the run: the signal is never found aborted,
    the PDF loads, every page renders, and no page's extraction ends in an
    [AbortError]. *)
Definition runs_through (file : VisionFile) : Prop :=
  vf_abortedAtOpen file = false
  /\ exists pages,
       vf_pages file = Ok pages
       /\ Forall (fun page =>
                    vpg_abortedAtPage page = false
                    /\ is_ok (vpg_image page) = true
                    /\ vpg_abortedAtCall page = false
                    /\ vpg_outcome page <> Throw AbortError) pages.

(** The rows the page callbacks of the live vision path push. *)
Definition visionPagesRows (file : VisionFile) (quality : option PartialQualitySettings)
  : res (list ExtractionRow) :=
  iteratePdfPageImages file
    (visionPageCallback (vf_name file) (sanitizeQualitySettings quality)) [].


(** [rowsByPdf.get(pdfName) ?? []] *)
Definition contents (rowsByPdf : gmap string (list ExtractionRow)) (pdfName : string)
  : list ExtractionRow := default [] (rowsByPdf !! pdfName).

Section BatchPredicates.

Variable JSON_parse : string -> res json.
Variable Number_toString : float -> string.

(** The rows the loop over the tasks pushes for the document [pdfName], in
    order: those of the tasks that carry this name. *)
Definition documentRows (qualitySettings : ExtractionQualitySettings)
    (outputMap errorMap : gmap string json) (tasks : list ExtractionBatchTask)
    (pdfName : string) : list ExtractionRow :=
  concat
    (map (fun task =>
            if decide (task_pdfName task = pdfName)
            then taskRows JSON_parse Number_toString qualitySettings task
                   (lookup_line outputMap errorMap task)
            else [])
         tasks).

(** The rows pushed for a manifest, once both result files are read. *)
Definition manifestRows (manifest : OpenAiExtractionBatchManifest)
    (outputMap errorMap : gmap string json) : gmap string (list ExtractionRow) :=
  collectRows JSON_parse Number_toString (sanitizeQualitySettings (Some (mf_quality manifest)))
    outputMap errorMap (mf_tasks manifest) ∅.

End BatchPredicates.

(** [row] is among [rows] with some index, or it has a text and a row of
    the same document with the same normalised text is. *)
Definition returned_or_duplicate (rows : list ExtractionRow) (row : ExtractionRow) : Prop :=
  (exists i, with_index i row ∈ rows)
  \/ (Str.truthy (row_key row) = true
      /\ exists other i,
           pdf_name other = pdf_name row
           /\ row_key other = row_key row
           /\ with_index i other ∈ rows).

(** A task has a file plan in the manifest. *)
Definition planned (manifest : OpenAiExtractionBatchManifest) (task : ExtractionBatchTask)
  : Prop :=
  exists filePlan, filePlan ∈ mf_files manifest /\ fp_pdfName filePlan = task_pdfName task.

(** ** Inputs of the batch examples *)

(** A [JSON.parse] for texts that are not JSON: it throws.  It stands for
    the runtime's parser in the examples below, none of which hands it a
    JSON text. *)
Definition rejecting_parser (text : string) : res json :=
  Throw (JsError "Unexpected token in JSON").

(** A conversion of numbers to strings for the examples, none of which
    formats a number. *)
Definition unused_toString (x : float) : string := "".

Definition no_quality : PartialQualitySettings := {|
  in_minWordsPerParagraph := None;
  in_minAlphaCharsPerParagraph := None;
  in_shortParagraphWordThreshold := None;
  in_requireSentenceTerminatorForShortParagraphs := None
|}.

Definition candidate (id : string) (page : Z) (text : string) : ParagraphCandidate :=
  {| pc_id := id; pc_pageNumber := page; pc_text := text |}.

(** Scenario F: one text document, one chunk of two candidates, the task
    [f0-text_filter-0]. *)
Definition scenario_F_task (chunk : list ParagraphCandidate) : ExtractionBatchTask :=
  TextFilterBatchTask "f0-text_filter-0" "report.pdf" 0 0 0 1 chunk.

Definition scenario_F_manifest (chunk : list ParagraphCandidate)
  : OpenAiExtractionBatchManifest := {|
  mf_createdAt := "2026-01-01T00:00:00.000Z";
  mf_model := "model";
  mf_quality := no_quality;
  mf_files := [ {| fp_pdfName := "report.pdf"; fp_fileIndex := 0;
                   fp_mode := mode_text; fp_totalPages := 2 |} ];
  mf_tasks := [scenario_F_task chunk]
|}.

Definition distinct_chunk : list ParagraphCandidate :=
  [candidate "p1-1" 1 "The first paragraph of the report.";
   candidate "p2-1" 2 "The second paragraph of the report."].

(** The same text on two pages: the repeat filter keeps it (two pages, not
    three), and the chunker puts both candidates in one chunk. *)
Definition repeated_chunk : list ParagraphCandidate :=
  [candidate "p1-1" 1 "The same paragraph on two pages.";
   candidate "p2-1" 2 "The same paragraph on two pages."].

Definition no_result : string := "No batch result was returned for this request.".

(** A scanned document with no page task at all. *)
Definition scanned_manifest : OpenAiExtractionBatchManifest := {|
  mf_createdAt := "2026-01-01T00:00:00.000Z";
  mf_model := "model";
  mf_quality := no_quality;
  mf_files := [ {| fp_pdfName := "scan.pdf"; fp_fileIndex := 0;
                   fp_mode := mode_vision; fp_totalPages := 0 |} ];
  mf_tasks := []
|}.

Definition scanned_plan : ExtractionBatchFilePlan :=
  {| fp_pdfName := "scan.pdf"; fp_fileIndex := 0; fp_mode := mode_vision; fp_totalPages := 0 |}.

(** A scanned file of one page on which the model finds nothing. *)
Definition blank_scan : VisionFile := {|
  vf_name := "scan.pdf";
  vf_abortedAtOpen := false;
  vf_pages := Ok [ {| vpg_abortedAtPage := false;
                      vpg_image := Ok "data:image/jpeg;base64,AAAA";
                      vpg_abortedAtCall := false;
                      vpg_outcome := Ok {| vd_paragraphs := []; vd_warnings := [] |} |} ]
|}.

(** * Further models and predicates

    ** Normalised texts *)

(** White space is single spaces only, none twice in a row. *)
Fixpoint single_spaced (l : list ascii) : bool :=
  match l with
  | [] => true
  | c :: l' =>
      (if Str.is_space c
       then Ascii.eqb c " "%char
            && match l' with d :: _ => negb (Str.is_space d) | [] => true end
       else true)
      && single_spaced l'
  end.

(** No white space at the start. *)
Definition starts_clean (l : list ascii) : bool :=
  match l with c :: _ => negb (Str.is_space c) | [] => true end.

(** No white space at the end. *)
Definition ends_clean (l : list ascii) : bool :=
  match last l with Some c => negb (Str.is_space c) | None => true end.

(** A text as [normalizeSpaces] leaves it. *)
Definition normalized_text (s : string) : Prop :=
  single_spaced (Str.chars s) = true
  /\ starts_clean (Str.chars s) = true
  /\ ends_clean (Str.chars s) = true.


(** ** Settings *)

(** Settings read back as the partial settings a caller passes. *)
Definition as_partial (quality : ExtractionQualitySettings) : PartialQualitySettings := {|
  in_minWordsPerParagraph := Some (minWordsPerParagraph quality);
  in_minAlphaCharsPerParagraph := Some (minAlphaCharsPerParagraph quality);
  in_shortParagraphWordThreshold := Some (shortParagraphWordThreshold quality);
  in_requireSentenceTerminatorForShortParagraphs :=
    Some (requireSentenceTerminatorForShortParagraphs quality)
|}.

(** [q] is an integer of [[lo, hi]]. *)
Definition integer_between (lo hi : Z) (q : Q) : Prop :=
  exists z, q = inject_Z z /\ lo <= z <= hi.


(** ** Chunker *)

(** The first paragraph of [next] did not fit into [chunk]. *)
Definition did_not_fit (maxChars : Z) (chunk next : list ParagraphCandidate) : Prop :=
  match next with
  | paragraph :: _ => maxChars < chunkSize chunk + serializedLength paragraph
  | [] => False
  end.

(** Every chunk but the last is followed by a chunk whose first paragraph
    did not fit into it. *)
Fixpoint greedy (maxChars : Z) (chunks : list (list ParagraphCandidate)) : Prop :=
  match chunks with
  | chunk :: ((next :: _) as rest) => did_not_fit maxChars chunk next /\ greedy maxChars rest
  | _ => True
  end.

(** The chunks so far, the open one included. *)
Definition all_chunks (st : chunkState) : list (list ParagraphCandidate) :=
  match currentChunk st with
  | [] => chunks st
  | _ :: _ => chunks st ++ [currentChunk st]
  end.

(** A text of 70 characters. *)
Definition long_text : string :=
  "0123456789012345678901234567890123456789012345678901234567890123456789".


(** ** Row assembler *)

(** The keys of the rows that have a text. *)
Definition text_keys (rows : list ExtractionRow) : list string :=
  filter (fun key => Str.truthy key = true) (map row_key rows).

(** The rows without a text. *)
Definition blank_rows (rows : list ExtractionRow) : list ExtractionRow :=
  filter (fun row => Str.truthy (row_key row) = false) rows.


(** ** Text filter *)

(** [row] is the row of a candidate of [chunk] that passes the quality
    gate, not yet numbered. *)
Definition row_of_chunk (pdfName : string) (quality : ExtractionQualitySettings)
    (chunk : list ParagraphCandidate) (row : ExtractionRow) : Prop :=
  exists candidate,
    candidate ∈ chunk
    /\ paragraph row = pc_text candidate
    /\ page_number row = Some (pc_pageNumber candidate)
    /\ pdf_name row = pdfName
    /\ paragraph_index row = 0
    /\ isLikelyCodingParagraph (paragraph row) quality = true.


(** ** Repeat filter *)

(** The normalised text of a candidate. *)
Definition candidate_key (candidate : ParagraphCandidate) : string :=
  normalizeForDuplicateCheck (pc_text candidate).

(** The distinct pages on which the normalised text [key] occurs. *)
Definition pages_of (key : string) (candidates : list ParagraphCandidate) : gset Z :=
  list_to_set (map pc_pageNumber (filter (fun c => candidate_key c = key) candidates)).

(** [key] is a repeated template element of the document: 8 to 219
    characters, no terminal punctuation, on three distinct pages or more. *)
Definition repeated_key (candidates : list ParagraphCandidate) (key : string) : bool :=
  (8 <=? string_length key)
  && (3 <=? Z.of_nat (size (pages_of key candidates)))
  && (string_length key <? 220)
  && negb (ends_with_terminator key).

Definition kept_candidates (candidates : list ParagraphCandidate) : list ParagraphCandidate :=
  filter (fun c => repeated_key candidates (candidate_key c) = false) candidates.


(** ** Retry runtime *)


Section RetryPredicates.

Context {T : Type}.
Variable operation : nat -> res T.
Variable random : nat -> Q.
Variable options : RetryOptions.

(** The call [k] failed with a transient error. *)
Definition failed_transiently (k : nat) : Prop :=
  exists e, operation k = Throw e /\ isTransientError e = true.

(** How a run that reached the attempt [last] with [budget] retries left
    at its start ended there. *)
Definition ended_at (run : RetryRun T) (last : nat) (exhausted : Prop) : Prop :=
  (run_result run = Throw AbortError /\ run_calls run = last)
  \/ (exists value,
        operation last = Ok value /\ run_result run = Ok value /\ run_calls run = S last)
  \/ (exists e,
        operation last = Throw e
        /\ run_result run = Throw (rethrow e)
        /\ run_calls run = S last
        /\ (exhausted \/ isTransientError e = false)).

End RetryPredicates.

(** An operation that is refused with a 503 at every call. *)
Definition always_unavailable (n : nat) : res string :=
  Throw (HttpError 503 "Service Unavailable").

(** Three retries with the default base delay of 800 ms. *)
Definition patient_options : RetryOptions :=
  {| retries := 3; baseDelayMs := None; signal := None |}.


(** ** Layout of the imported rows *)

(** The rows are numbered from 1 in their order. *)
Definition numbered (rows : list ExtractionRow) : Prop :=
  map paragraph_index rows = map (fun i => Z.of_nat i + 1) (seq 0 (length rows)).

(** [block] can be the rows returned for the file plan [filePlan]. *)
Definition file_block (filePlan : ExtractionBatchFilePlan) (block : list ExtractionRow)
  : Prop :=
  Forall (fun row => pdf_name row = fp_pdfName filePlan) block
  /\ numbered block
  /\ NoDup (text_keys block)
  /\ (fp_mode filePlan = mode_vision -> block <> []).

Definition by_fileIndex (a b : ExtractionBatchFilePlan) : Prop :=
  fp_fileIndex a <= fp_fileIndex b.

(** Two file plans in manifest order, the second with the lower index. *)
Definition two_plans : list ExtractionBatchFilePlan :=
  [ {| fp_pdfName := "b.pdf"; fp_fileIndex := 1; fp_mode := mode_vision; fp_totalPages := 1 |};
    {| fp_pdfName := "a.pdf"; fp_fileIndex := 0; fp_mode := mode_text; fp_totalPages := 2 |} ].

Definition two_plans_manifest : OpenAiExtractionBatchManifest :=
  {| mf_createdAt := "2025-01-01T00:00:00.000Z";
     mf_model := "gpt-4o-mini";
     mf_quality := no_quality;
     mf_files := two_plans;
     mf_tasks := [scenario_F_task distinct_chunk] |}.

(** ** One document, live mode ([processSinglePdf], [runExtraction])

    What the run of one document meets from outside is part of the input:
    the outcome of [await extractPdfCandidates(...)], of which only
    [parsed.paragraphs] is used for the rows ([parsed.pdfName] is
    [file.name]); for the chunk of index [i], whether the signal is aborted
    when the loop reaches it and the outcome of
    [await withRetries(() => filterChunkWithLlm(...))]; and what the vision
    fallback meets. *)

Record PdfFile : Type := {
  pf_name : string;
  pf_parsed : res (list ParagraphCandidate);
  pf_abortedAtChunk : nat -> bool;
  pf_decision : nat -> res ChunkDecision;
  pf_abortedAtOpen : bool;
  pf_pages : res (list VisionPage)
}.

(** The file as [processPdfWithVisionFallback] meets it. *)
Definition vision_file (file : PdfFile) : VisionFile :=
  {| vf_name := pf_name file;
     vf_abortedAtOpen := pf_abortedAtOpen file;
     vf_pages := pf_pages file |}.

(** The loop over the chunks of [processSinglePdf]; [rows] is the array the
    loop pushes on. *)
Fixpoint filter_chunks (file : PdfFile) (qualitySettings : ExtractionQualitySettings)
    (chunkIndex : nat) (chunks : list (list ParagraphCandidate)) (rows : list ExtractionRow)
  : res (list ExtractionRow) :=
  match chunks with
  | [] => Ok rows
  | chunk :: rest =>
      if pf_abortedAtChunk file chunkIndex then Throw AbortError else
      match pf_decision file chunkIndex with
      | Ok decision =>
          filter_chunks file qualitySettings (S chunkIndex) rest
            (rows ++ textFilterRows (pf_name file) qualitySettings chunk decision)
      | Throw AbortError => Throw AbortError
      | Throw error =>
          let message := message_or error "Unknown model error" in
          filter_chunks file qualitySettings (S chunkIndex) rest
            (rows ++ fallbackRowsFromChunk (pf_name file) chunk message)
      end
  end.

Definition processSinglePdf (file : PdfFile) (quality : option PartialQualitySettings)
  : res (list ExtractionRow) :=
  let qualitySettings := sanitizeQualitySettings quality in
  paragraphs ← pf_parsed file;
  if (length paragraphs =? 0)%nat then
    processPdfWithVisionFallback (vision_file file) quality
  else
    rows ← filter_chunks file qualitySettings 0 (chunkParagraphs paragraphs) [];
    Ok (dedupeRowsWithinPdf rows).

(** The row [runExtraction] returns for a file that could not be
    processed. *)
Definition fileFailureRow (pdfName message : string) : ExtractionRow := {|
  pdf_name := pdfName;
  paragraph := "";
  paragraph_index := 1;
  page_number := None;
  section_heading := "";
  notes := "File processing failed: " +:+ message;
  confidence := None
|}.

(** The callback [runExtraction] maps over the files. *)
Definition processFile (file : PdfFile) (quality : option PartialQualitySettings)
  : res (list ExtractionRow) :=
  match processSinglePdf file quality with
  | Ok rows => Ok rows
  | Throw AbortError => Throw AbortError
  | Throw error =>
      Ok [fileFailureRow (pf_name file) (message_or error "Unknown processing error")]
  end.

(** [row] carries the text and the page of one of [candidates], under the
    name [pdfName]. *)
Definition from_candidates (pdfName : string) (candidates : list ParagraphCandidate)
    (row : ExtractionRow) : Prop :=
  pdf_name row = pdfName
  /\ exists candidate,
       candidate ∈ candidates
       /\ paragraph row = pc_text candidate
       /\ page_number row = Some (pc_pageNumber candidate).

(** [row] is a row of the page [pageNumber] of the document [pdfName]. *)
Definition on_page (pdfName : string) (first : Z) (pages : nat) (row : ExtractionRow) : Prop :=
  pdf_name row = pdfName
  /\ exists pageNumber,
       page_number row = Some pageNumber /\ first <= pageNumber < first + Z.of_nat pages.

(** Nothing aborts the run of the document: the signal is never found
    aborted and nothing it awaits ends in an [AbortError]. *)
Definition never_aborted (file : PdfFile) : Prop :=
  pf_parsed file <> Throw AbortError
  /\ (forall i, pf_abortedAtChunk file i = false /\ pf_decision file i <> Throw AbortError)
  /\ pf_abortedAtOpen file = false
  /\ pf_pages file <> Throw AbortError
  /\ forall pages,
       pf_pages file = Ok pages ->
       Forall (fun page =>
                 vpg_abortedAtPage page = false
                 /\ vpg_image page <> Throw AbortError
                 /\ vpg_abortedAtCall page = false
                 /\ vpg_outcome page <> Throw AbortError) pages.

(** A document with a text layer whose only chunk the model fails on. *)
Definition unfiltered_file : PdfFile :=
  {| pf_name := "report.pdf";
     pf_parsed := Ok distinct_chunk;
     pf_abortedAtChunk := fun _ => false;
     pf_decision := fun _ => Throw (HttpError 500 "Internal Server Error");
     pf_abortedAtOpen := false;
     pf_pages := Ok [] |}.

(** ** Batch preparation ([prepareSinglePdfForBatch],
       [prepareOpenAiExtractionBatch])

    The request lines are left out: one is pushed with every task, under
    the same [customId], and its body is the prompt. *)

Inductive TaskKind : Type := text_filter | vision_page.

Definition kind_name (kind : TaskKind) : string :=
  match kind with
  | text_filter => "text_filter"
  | vision_page => "vision_page"
  end.

Definition createBatchCustomId (fileIndex taskIndex : Z) (kind : TaskKind) : string :=
  "f" +:+ Str.string_of_Z fileIndex +:+ "-" +:+ kind_name kind +:+ "-"
  +:+ Str.string_of_Z taskIndex.

Definition task_kind (task : ExtractionBatchTask) : TaskKind :=
  match task with
  | TextFilterBatchTask _ _ _ _ _ _ _ => text_filter
  | VisionPageBatchTask _ _ _ _ _ _ => vision_page
  end.

Definition task_fileIndex (task : ExtractionBatchTask) : Z :=
  match task with
  | TextFilterBatchTask _ _ fileIndex _ _ _ _ => fileIndex
  | VisionPageBatchTask _ _ fileIndex _ _ _ => fileIndex
  end.

Definition task_taskIndex (task : ExtractionBatchTask) : Z :=
  match task with
  | TextFilterBatchTask _ _ _ taskIndex _ _ _ => taskIndex
  | VisionPageBatchTask _ _ _ taskIndex _ _ => taskIndex
  end.

(** What [extractPdfCandidates] returns, as far as the preparation reads
    it. *)
Record ParsedPdf : Type := {
  pp_paragraphs : list ParagraphCandidate;
  pp_totalPages : Z
}.

(** A file as the preparation meets it: the outcome of
    [extractPdfCandidates], and for the vision path whether the signal is
    aborted when the file is opened, whether the PDF loads and, page by
    page, what [VisionPage] records (no model is called here, so
    [vpg_outcome] is not read). *)
Record BatchFile : Type := {
  bf_name : string;
  bf_parsed : res ParsedPdf;
  bf_abortedAtOpen : bool;
  bf_pages : res (list VisionPage)
}.

Record PreparedFile : Type := {
  pr_filePlan : ExtractionBatchFilePlan;
  pr_tasks : list ExtractionBatchTask
}.

(** [iteratePdfPageImages] with the page callback of the preparation;
    [taskIndex] is its counter and [tasks] the array it pushes on. *)
Fixpoint page_tasks (pdfName : string) (fileIndex totalPages pageNumber taskIndex : Z)
    (pages : list VisionPage) (tasks : list ExtractionBatchTask)
  : res (list ExtractionBatchTask) :=
  match pages with
  | [] => Ok tasks
  | page :: rest =>
      if vpg_abortedAtPage page then Throw AbortError else
      _ ← vpg_image page;
      if vpg_abortedAtCall page then Throw AbortError else
      let customId := createBatchCustomId fileIndex taskIndex vision_page in
      let task :=
        VisionPageBatchTask customId pdfName fileIndex taskIndex pageNumber totalPages in
      page_tasks pdfName fileIndex totalPages (pageNumber + 1) (taskIndex + 1) rest
        (tasks ++ [task])
  end.

(** The body of the loop over the chunks. *)
Definition chunk_task (pdfName : string) (fileIndex : Z) (totalChunks : nat)
    (chunkIndex : nat) (chunk : list ParagraphCandidate) : ExtractionBatchTask :=
  TextFilterBatchTask
    (createBatchCustomId fileIndex (Z.of_nat chunkIndex) text_filter)
    pdfName fileIndex (Z.of_nat chunkIndex) (Z.of_nat chunkIndex) (Z.of_nat totalChunks) chunk.

Definition prepareSinglePdfForBatch (file : BatchFile) (fileIndex : Z) : res PreparedFile :=
  parsed ← bf_parsed file;
  if (length (pp_paragraphs parsed) =? 0)%nat then
    if bf_abortedAtOpen file then Throw AbortError else
    pages ← bf_pages file;
    tasks ← page_tasks (bf_name file) fileIndex (Z.of_nat (length pages)) 1 0 pages [];
    Ok {| pr_filePlan := {| fp_pdfName := bf_name file;
                            fp_fileIndex := fileIndex;
                            fp_mode := mode_vision;
                            fp_totalPages := pp_totalPages parsed |};
          pr_tasks := tasks |}
  else
    let chunks := chunkParagraphs (pp_paragraphs parsed) in
    Ok {| pr_filePlan := {| fp_pdfName := bf_name file;
                            fp_fileIndex := fileIndex;
                            fp_mode := mode_text;
                            fp_totalPages := pp_totalPages parsed |};
          pr_tasks := imap (chunk_task (bf_name file) fileIndex (length chunks)) chunks |}.

Record PreparedOpenAiExtractionBatch : Type := {
  pb_manifest : OpenAiExtractionBatchManifest;
  pb_requestCount : Z;
  pb_requestBytes : Z
}.

(** [Math.round(bytes / (1024 * 1024))] for a size in bytes. *)
Definition megabytes (bytes : Z) : Z := (2 * bytes + 1048576) / 2097152.

(** [prepareOpenAiExtractionBatch] once [mapWithConcurrency] has returned
    [preparedFiles]: [openai] is [options.config.kind === "openai"],
    [createdAt] the date, [requestBytes] the size of the request file. *)
Definition prepareOpenAiExtractionBatch (openai : bool) (createdAt model : string)
    (quality : option PartialQualitySettings) (preparedFiles : list PreparedFile)
    (requestBytes : Z) : res PreparedOpenAiExtractionBatch :=
  if negb openai then
    Throw (JsError "OpenAI batch mode requires an OpenAI-compatible backend.")
  else
    let qualitySettings := sanitizeQualitySettings quality in
    let manifest :=
      {| mf_createdAt := createdAt;
         mf_model := model;
         mf_quality := as_partial qualitySettings;
         mf_files := map pr_filePlan preparedFiles;
         mf_tasks := concat (map pr_tasks preparedFiles) |} in
    let lines := Z.of_nat (length (mf_tasks manifest)) in
    if lines =? 0 then
      Throw (JsError "No batch requests were generated from the selected PDFs.")
    else if 200 * 1024 * 1024 <? requestBytes then
      Throw (JsError ("Batch input file is too large ("
                      +:+ Str.string_of_Z (megabytes requestBytes)
                      +:+ " MB). Reduce the PDF set or disable vision-heavy batches."))
    else if 50000 <? lines then
      Throw (JsError ("Batch contains " +:+ Str.string_of_Z lines
                      +:+ " requests, exceeding the supported limit of 50000. "
                      +:+ "Reduce the PDF set."))
    else
      Ok {| pb_manifest := manifest; pb_requestCount := lines;
            pb_requestBytes := requestBytes |}.

(** [preparedFiles] is what the worker returned for [files], the file of
    index [i] being prepared under the index [start + i]: what
    [mapWithConcurrency] returns when no worker throws. *)
Fixpoint prepared_from (start : nat) (files : list BatchFile)
    (preparedFiles : list PreparedFile) : Prop :=
  match files, preparedFiles with
  | [], [] => True
  | file :: files', prepared :: preparedFiles' =>
      prepareSinglePdfForBatch file (Z.of_nat start) = Ok prepared
      /\ prepared_from (S start) files' preparedFiles'
  | _, _ => False
  end.

(** The task of index [taskIndex] of the file [fileIndex], as the
    preparation names it. *)
Definition task_of_file (pdfName : string) (fileIndex : Z) (taskIndex : nat)
    (task : ExtractionBatchTask) : Prop :=
  task_pdfName task = pdfName
  /\ task_fileIndex task = fileIndex
  /\ task_taskIndex task = Z.of_nat taskIndex
  /\ task_customId task = createBatchCustomId fileIndex (Z.of_nat taskIndex) (task_kind task).

(** No character of [s] is a hyphen. *)
Fixpoint no_hyphen (s : string) : Prop :=
  match s with
  | EmptyString => True
  | String c rest => c <> "-"%char /\ no_hyphen rest
  end.

(** A text document and a scanned one. *)
Definition two_files : list BatchFile :=
  [ {| bf_name := "report.pdf";
       bf_parsed := Ok {| pp_paragraphs := distinct_chunk; pp_totalPages := 2 |};
       bf_abortedAtOpen := false;
       bf_pages := Ok [] |};
    {| bf_name := "scan.pdf";
       bf_parsed := Ok {| pp_paragraphs := []; pp_totalPages := 1 |};
       bf_abortedAtOpen := false;
       bf_pages := Ok [ {| vpg_abortedAtPage := false;
                           vpg_image := Ok "data:image/jpeg;base64,AAAA";
                           vpg_abortedAtCall := false;
                           vpg_outcome := Throw Thrown |} ] |} ].

Definition two_files_prepared : list PreparedFile :=
  [ {| pr_filePlan := {| fp_pdfName := "report.pdf"; fp_fileIndex := 0;
                         fp_mode := mode_text; fp_totalPages := 2 |};
       pr_tasks := imap (chunk_task "report.pdf" 0 (length (chunkParagraphs distinct_chunk)))
                        (chunkParagraphs distinct_chunk) |};
    {| pr_filePlan := {| fp_pdfName := "scan.pdf"; fp_fileIndex := 1;
                         fp_mode := mode_vision; fp_totalPages := 1 |};
       pr_tasks := [VisionPageBatchTask "f1-vision_page-0" "scan.pdf" 1 0 1 1] |} ].

(** ** CSV export ([lib/exporters.ts]) *)

Definition double_quote : ascii := "034"%char.
Definition line_feed : ascii := "010"%char.
Definition comma : ascii := ","%char.

(** The test of [toCsvCell]: the text holds a double quote, a line feed
    or a comma. *)
Fixpoint needs_quotes (text : string) : bool :=
  match text with
  | EmptyString => false
  | String c rest =>
      Ascii.eqb c double_quote || Ascii.eqb c line_feed || Ascii.eqb c comma
      || needs_quotes rest
  end.

(** The replacement of [toCsvCell]: every double quote is written
    twice. *)
Fixpoint double_the_quotes (text : string) : string :=
  match text with
  | EmptyString => EmptyString
  | String c rest =>
      if Ascii.eqb c double_quote
      then String double_quote (String double_quote (double_the_quotes rest))
      else String c (double_the_quotes rest)
  end.

(** What [toCsvCell] makes of [String(value)]. *)
Definition quoted_if_needed (text : string) : string :=
  if needs_quotes text
  then String double_quote (double_the_quotes text +:+ String double_quote EmptyString)
  else text.

(** [string | number | null], a number being an integer or a double. *)
Inductive CellValue : Type :=
| CellNull
| CellText (text : string)
| CellInteger (z : Z)
| CellNumber (x : float).

Definition EXPORT_HEADER : string :=
  "pdf_name,paragraph,paragraph_index,page_number,section_heading,notes,confidence".

(** [row[column]] for the columns of [EXPORT_COLUMNS], in order. *)
Definition row_values (row : ExtractionRow) : list CellValue :=
  [ CellText (pdf_name row);
    CellText (paragraph row);
    CellInteger (paragraph_index row);
    from_option CellInteger CellNull (page_number row);
    CellText (section_heading row);
    CellText (notes row);
    from_option CellNumber CellNull (confidence row) ].

Section Exporters.

(** The runtime's conversion of a double to a string. *)
Variable Number_toString : float -> string.

(** [String(value)], and the empty text for [null]. *)
Definition cell_text (value : CellValue) : string :=
  match value with
  | CellNull => ""
  | CellText text => text
  | CellInteger z => Str.string_of_Z z
  | CellNumber x => Number_toString x
  end.

Definition toCsvCell (value : CellValue) : string :=
  match value with
  | CellNull => ""
  | _ => quoted_if_needed (cell_text value)
  end.

Definition csv_line (row : ExtractionRow) : string :=
  String.concat "," (map toCsvCell (row_values row)).

Definition rowsToCsv (rows : list ExtractionRow) : string :=
  EXPORT_HEADER +:+ String line_feed EmptyString
  +:+ String.concat (String line_feed EmptyString) (map csv_line rows).

(** The two rows show the same in every column. *)
Definition same_export (a b : ExtractionRow) : Prop :=
  pdf_name a = pdf_name b
  /\ paragraph a = paragraph b
  /\ paragraph_index a = paragraph_index b
  /\ page_number a = page_number b
  /\ section_heading a = section_heading b
  /\ notes a = notes b
  /\ cell_text (from_option CellNumber CellNull (confidence a))
     = cell_text (from_option CellNumber CellNull (confidence b)).

End Exporters.

(** What follows a cell in a CSV text: nothing, a comma or a line feed. *)
Definition after_cell (rest : string) : Prop :=
  match rest with
  | EmptyString => True
  | String c _ => c = comma \/ c = line_feed
  end.

(** What follows a line: nothing or a line feed. *)
Definition after_line (rest : string) : Prop :=
  match rest with
  | EmptyString => True
  | String c _ => c = line_feed
  end.

(** A row whose paragraph has to be quoted. *)
Definition comma_row : ExtractionRow :=
  {| pdf_name := "report.pdf";
     paragraph := "First, the sample was coded; then it was reviewed.";
     paragraph_index := 1;
     page_number := Some 3;
     section_heading := "";
     notes := "";
     confidence := None |}.

(** ** Requests with a path fallback ([fetchWithPathFallback] of
       [lib/backend.ts]) *)

(** What an [await] gives: a value, a [TypeError] (what [fetch] rejects
    with when the network fails), or another thrown value. *)
Inductive Awaited (A : Type) : Type :=
| Resolved (value : A)
| RejectedTypeError
| Rejected (error : exn).

Arguments Resolved {A} value.
Arguments RejectedTypeError {A}.
Arguments Rejected {A} error.

(** A [Response], as far as it is read: [ok], [status] and what
    [await response.text()] gives. *)
Record Response : Type := {
  rs_ok : bool;
  rs_status : Z;
  rs_text : Awaited string
}.

(** [baseUrl.trim().replace(/\/+$/, "")] *)
Fixpoint strip_slashes (reversed : list ascii) : list ascii :=
  match reversed with
  | c :: rest => if Ascii.eqb c "/"%char then strip_slashes rest else reversed
  | [] => []
  end.

Definition sanitizeBaseUrl (baseUrl : string) : string :=
  Str.of_chars (rev (strip_slashes (rev (Str.chars (Str.trim baseUrl))))).

Definition network_failure (url : string) : exn :=
  JsError ("Network/CORS failure while calling " +:+ url
           +:+ ". If you are using OpenAI from the browser, run via local dev server proxy "
           +:+ "(npm run dev) or use a backend relay.").

Definition request_failed (status : Z) (path bodyText : string) : exn :=
  HttpError status
    ("Request failed (" +:+ Str.string_of_Z status +:+ ") at " +:+ path +:+ ": "
     +:+ Str.slice bodyText 0 240).

Definition no_route (paths : list string) : exn :=
  JsError ("Endpoint did not respond with a supported route. Tried: "
           +:+ String.concat ", " paths).

(** The [catch] clause: the new [lastError]. *)
Definition caught {A : Type} (url : string) (rejection : Awaited A) (lastError : option exn)
  : option exn :=
  match rejection with
  | Resolved _ => lastError
  | RejectedTypeError => Some (network_failure url)
  | Rejected (HttpError status message) =>
      if status =? 404 then lastError else Some (HttpError status message)
  | Rejected Thrown => Some (JsError "Unknown network error")
  | Rejected error => Some error
  end.

(** One turn of the loop on a response that is not [ok]: the new
    [lastError]. *)
Definition refused (url path : string) (response : Response) (lastError : option exn)
  : option exn :=
  if rs_status response =? 404 then lastError
  else
    match rs_text response with
    | Resolved bodyText =>
        caught url (Rejected (A := string)
                      (request_failed (rs_status response) path bodyText)) lastError
    | rejection => caught url rejection lastError
    end.

(** The loop over the paths, each with what [await fetch(url, init)] gives
    for it. *)
Fixpoint fetch_paths (base : string) (attempts : list (string * Awaited Response))
    (lastError : option exn) (paths : list string) : res Response :=
  match attempts with
  | [] => Throw (default (no_route paths) lastError)
  | (path, fetched) :: rest =>
      let url := base +:+ path in
      match fetched with
      | Resolved response =>
          if rs_ok response then Ok response
          else fetch_paths base rest (refused url path response lastError) paths
      | rejection => fetch_paths base rest (caught url rejection lastError) paths
      end
  end.

(** [resolvedBaseUrl] is what [toDevProxyBaseUrlIfNeeded(baseUrl)]
    returns. *)
Definition fetchWithPathFallback (resolvedBaseUrl : string)
    (attempts : list (string * Awaited Response)) : res Response :=
  fetch_paths (sanitizeBaseUrl resolvedBaseUrl) attempts None (map fst attempts).

(** The response of an attempt that is answered with [ok]. *)
Definition answered (attempt : string * Awaited Response) : option Response :=
  match attempt.2 with
  | Resolved response => if rs_ok response then Some response else None
  | _ => None
  end.

(** The error an attempt leaves, if any: none for an answer and for a
    404. *)
Definition failure (base : string) (attempt : string * Awaited Response) : option exn :=
  let url := base +:+ attempt.1 in
  match attempt.2 with
  | Resolved response => if rs_ok response then None else refused url attempt.1 response None
  | rejection => caught url rejection None
  end.

Definition not_found (error : exn) : bool :=
  match error with
  | HttpError status _ => status =? 404
  | _ => false
  end.

(** ** Model output around its JSON *)

Definition backquote : ascii := "`"%char.

(** [raw] presents the text [object]: as an object in braces with prose
    around it, or in a fenced block marked [json]. *)
Inductive presents : string -> string -> Prop :=
| in_prose (before inside after : list ascii) :
    backquote ∉ before -> backquote ∉ inside -> backquote ∉ after ->
    "{"%char ∉ before -> "}"%char ∉ after ->
    presents (Str.of_chars (before ++ "{"%char :: inside ++ "}"%char :: after))
             (Str.of_chars ("{"%char :: inside ++ ["}"%char]))
| in_fence (before blank after : list ascii) (first : ascii) (block : list ascii) :
    backquote ∉ before -> backquote ∉ first :: block ->
    Forall (fun c => Str.is_space c = true) blank ->
    Str.is_space first = false ->
    presents (Str.of_chars (before ++ fence ++ Str.chars "json" ++ blank
                            ++ (first :: block) ++ fence ++ after))
             (Str.trim (Str.of_chars (first :: block))).



(** * Theorems *)

(** ** Chunker *)

Lemma chunkSize_app (a b : list ParagraphCandidate) :
  chunkSize (a ++ b) = chunkSize a + chunkSize b.
Proof.
  induction a as [|p a IH]; simpl; [reflexivity|].
  rewrite IH. lia.
Qed.

Lemma chunkSize_single (p : ParagraphCandidate) : chunkSize [p] = serializedLength p.
Proof. simpl. lia. Qed.

Lemma chunk_step_inv maxChars processed st p :
  chunk_inv maxChars processed st ->
  chunk_inv maxChars (processed ++ [p]) (chunk_step maxChars st p).
Proof.
  intros (Hne & Hcat & Hlen & Hb & Hcur).
  unfold chunk_step, chunk_inv.
  destruct (currentChunk st) as [|q cur] eqn:Ecur.
  - (* the current chunk is empty: the paragraph opens it *)
    cbn [length Nat.ltb Nat.leb andb chunks currentChunk currentLength].
    rewrite Ecur. rewrite app_nil_r in Hcat. cbn [app].
    repeat split; auto.
    + rewrite Hcat. reflexivity.
    + rewrite Hlen, chunkSize_single. simpl. lia.
    + intros H. simpl in H. lia.
  - cbn [length Nat.ltb Nat.leb andb].
    destruct (maxChars <? currentLength st + serializedLength p) eqn:Eover;
      cbn [chunks currentChunk currentLength].
    + (* the paragraph does not fit: the current chunk is closed *)
      cbn [app]. repeat split.
      * apply Forall_app. split; [assumption|]. constructor; [discriminate|constructor].
      * rewrite concat_app. cbn [concat]. rewrite app_nil_r. rewrite <- Hcat.
        rewrite <- app_assoc. reflexivity.
      * rewrite chunkSize_single. lia.
      * apply Forall_app. split; [assumption|]. constructor; [assumption|constructor].
      * intros H. simpl in H. lia.
    + (* the paragraph fits *)
      apply Z.ltb_ge in Eover. rewrite Ecur.
      repeat split; auto.
      * rewrite <- Hcat. rewrite <- app_assoc. reflexivity.
      * rewrite Hlen, chunkSize_app, chunkSize_single. reflexivity.
      * intros _. rewrite chunkSize_app, chunkSize_single. rewrite <- Hlen. lia.
Qed.

Lemma chunk_loop_inv maxChars paragraphs : forall processed st,
  chunk_inv maxChars processed st ->
  chunk_inv maxChars (processed ++ paragraphs) (chunk_loop maxChars paragraphs st).
Proof.
  induction paragraphs as [|p rest IH]; intros processed st Hinv; simpl.
  - rewrite app_nil_r. assumption.
  - replace (processed ++ p :: rest) with ((processed ++ [p]) ++ rest)
      by (rewrite <- app_assoc; reflexivity).
    apply IH. apply chunk_step_inv. assumption.
Qed.

Lemma chunkParagraphsWith_inv paragraphs maxChars :
  Forall (fun chunk => chunk <> []) (chunkParagraphsWith paragraphs maxChars)
  /\ concat (chunkParagraphsWith paragraphs maxChars) = paragraphs
  /\ Forall (within_budget maxChars) (chunkParagraphsWith paragraphs maxChars).
Proof.
  unfold chunkParagraphsWith.
  pose proof (chunk_loop_inv maxChars paragraphs []
                {| chunks := []; currentChunk := []; currentLength := 0 |}) as H.
  destruct H as (Hne & Hcat & _ & Hb & Hcur).
  { repeat split; simpl; auto. intros H. simpl in H. lia. }
  set (st := chunk_loop _ _ _) in *. simpl in Hcat.
  destruct (currentChunk st) as [|q cur] eqn:E; simpl.
  - rewrite app_nil_r in Hcat. auto.
  - repeat split.
    + apply Forall_app. split; [assumption|]. constructor; [discriminate|constructor].
    + rewrite concat_app. simpl. rewrite app_nil_r. assumption.
    + apply Forall_app. split; [assumption|]. constructor; [assumption|constructor].
Qed.

(** C1. The chunks of [chunkParagraphs] are never empty, there is none for
    an empty input, their concatenation in order is the input (no candidate
    is split, dropped or moved), and the same input gives the same chunk
    boundaries. *)
Theorem chunkParagraphs_partition (paragraphs : list ParagraphCandidate) :
  Forall (fun chunk => chunk <> []) (chunkParagraphs paragraphs)
  /\ chunkParagraphs [] = []
  /\ concat (chunkParagraphs paragraphs) = paragraphs
  /\ (forall again, again = paragraphs ->
        map (@length ParagraphCandidate) (chunkParagraphs again)
        = map (@length ParagraphCandidate) (chunkParagraphs paragraphs)).
Proof.
  destruct (chunkParagraphsWith_inv paragraphs 7000) as (Hne & Hcat & _).
  unfold chunkParagraphs. repeat split; auto.
  intros again ->. reflexivity.
Qed.

(** C10. A chunk of two paragraphs or more has an estimated size of at most
    7000; a chunk above 7000 is one paragraph that is itself above 7000. *)
Theorem chunkParagraphs_budget (paragraphs : list ParagraphCandidate) :
  Forall (fun chunk =>
            ((2 <= length chunk)%nat -> chunkSize chunk <= 7000)
            /\ (7000 < chunkSize chunk ->
                exists paragraph, chunk = [paragraph] /\ 7000 < serializedLength paragraph))
         (chunkParagraphs paragraphs).
Proof.
  destruct (chunkParagraphsWith_inv paragraphs 7000) as (Hne & _ & Hb).
  unfold chunkParagraphs.
  rewrite Forall_forall in *. intros chunk Hin.
  specialize (Hne chunk Hin). specialize (Hb chunk Hin).
  split; [exact Hb|].
  intros Hover. destruct chunk as [|p [|q rest]].
  - congruence.
  - exists p. split; [reflexivity|]. rewrite chunkSize_single in Hover. exact Hover.
  - exfalso. unfold within_budget in Hb. simpl in Hb. 
    assert (chunkSize (p :: q :: rest) <= 7000) by (apply Hb; lia). lia.
Qed.

(** ** Quality gate *)

Lemma Qltb_true (a b : Q) : Qltb a b = true <-> (a < b)%Q.
Proof.
  unfold Qltb. rewrite negb_true_iff. split.
  - intros H. apply Qnot_le_lt. intros Hle. apply Qle_bool_iff in Hle. congruence.
  - intros H. destruct (Qle_bool b a) eqn:E; [|reflexivity].
    apply Qle_bool_iff in E. exfalso. exact (Qlt_not_le _ _ H E).
Qed.

Lemma Qltb_raise (n lower higher : Q) :
  (lower <= higher)%Q -> Qltb n lower = true -> Qltb n higher = true.
Proof.
  rewrite !Qltb_true. intros Hle Hlt. exact (Qlt_le_trans _ _ _ Hlt Hle).
Qed.

(** C3. Raising [minWordsPerParagraph] or [minAlphaCharsPerParagraph], the
    other settings unchanged, never turns a text the quality gate rejects
    into one it accepts. *)
Theorem isLikelyCodingParagraph_monotone (text : string)
    (lower higher : ExtractionQualitySettings) :
  (minWordsPerParagraph lower <= minWordsPerParagraph higher)%Q ->
  (minAlphaCharsPerParagraph lower <= minAlphaCharsPerParagraph higher)%Q ->
  shortParagraphWordThreshold higher = shortParagraphWordThreshold lower ->
  requireSentenceTerminatorForShortParagraphs higher
  = requireSentenceTerminatorForShortParagraphs lower ->
  isLikelyCodingParagraph text lower = false ->
  isLikelyCodingParagraph text higher = false.
Proof.
  intros Hwords Halpha Hshort Hreq.
  unfold isLikelyCodingParagraph. rewrite Hshort, Hreq.
  destruct (negb (Str.truthy (normalizeParagraph text))); [reflexivity|].
  destruct (Qltb _ (minWordsPerParagraph higher)) eqn:Ew; [reflexivity|].
  destruct (Qltb _ (minWordsPerParagraph lower)) eqn:Ew'.
  { rewrite (Qltb_raise _ _ _ Hwords Ew') in Ew. discriminate. }
  destruct (Qltb _ (minAlphaCharsPerParagraph higher)) eqn:Ea; [reflexivity|].
  destruct (Qltb _ (minAlphaCharsPerParagraph lower)) eqn:Ea'.
  { rewrite (Qltb_raise _ _ _ Halpha Ea') in Ea. discriminate. }
  intros H. exact H.
Qed.

Lemma isLikelyCodingParagraph_monotone_witness :
  isLikelyCodingParagraph "Too short." lower_example = false
  /\ isLikelyCodingParagraph "Too short." higher_example = false.
Proof.
  split; [reflexivity|].
  apply (isLikelyCodingParagraph_monotone "Too short." lower_example higher_example).
  - vm_compute. discriminate.
  - vm_compute. discriminate.
  - reflexivity.
  - reflexivity.
  - reflexivity.
Defined.

(** ** Row assembler *)

Lemma dedupe_loop_length (rows : list ExtractionRow) : forall seen,
  (length (dedupe_loop rows seen) <= length rows)%nat.
Proof.
  induction rows as [|row rest IH]; intros seen; simpl; [lia|].
  destruct (negb (Str.truthy (row_key row))); simpl.
  - specialize (IH seen). lia.
  - destruct (decide (row_key row ∈ seen)); simpl.
    + specialize (IH seen). lia.
    + specialize (IH ({[row_key row]} ∪ seen)). lia.
Qed.

(** A second pass with a smaller [seen] changes nothing. *)
Lemma dedupe_loop_again (rows : list ExtractionRow) : forall seen seen' : gset string,
  seen' ⊆ seen ->
  dedupe_loop (dedupe_loop rows seen) seen' = dedupe_loop rows seen.
Proof.
  induction rows as [|row rest IH]; intros seen seen' Hsub; simpl; [reflexivity|].
  destruct (negb (Str.truthy (row_key row))) eqn:Ekey.
  - simpl. rewrite Ekey. f_equal. apply IH. exact Hsub.
  - destruct (decide (row_key row ∈ seen)) as [Hin|Hnin].
    + apply IH. exact Hsub.
    + simpl. rewrite Ekey.
      destruct (decide (row_key row ∈ seen')) as [Hin'|_];
        [exfalso; apply Hnin, Hsub, Hin'|].
      f_equal. apply IH. apply union_mono_l. exact Hsub.
Qed.

(** A list the loop leaves alone is left alone under any change that keeps
    the keys. *)
Lemma dedupe_loop_same_keys (rows : list ExtractionRow) : forall rows' seen,
  map row_key rows' = map row_key rows ->
  dedupe_loop rows seen = rows ->
  dedupe_loop rows' seen = rows'.
Proof.
  induction rows as [|row rest IH]; intros rows' seen Hkeys Hfix.
  - destruct rows'; [reflexivity|discriminate].
  - destruct rows' as [|row' rest']; [discriminate|].
    simpl in Hkeys. injection Hkeys as Hk Hks.
    simpl in *. rewrite Hk.
    destruct (negb (Str.truthy (row_key row))).
    + injection Hfix as Hfix. f_equal. apply IH; assumption.
    + destruct (decide (row_key row ∈ seen)).
      * exfalso. pose proof (dedupe_loop_length rest seen) as Hlen.
        rewrite Hfix in Hlen. simpl in Hlen. lia.
      * injection Hfix as Hfix. f_equal. apply IH; assumption.
Qed.

Lemma row_key_with_index (i : nat) (row : ExtractionRow) :
  row_key (with_index i row) = row_key row.
Proof. reflexivity. Qed.

Lemma map_row_key_imap (rows : list ExtractionRow) : forall f : nat -> nat,
  map row_key (imap (fun i => with_index (f i)) rows) = map row_key rows.
Proof.
  induction rows as [|row rest IH]; intros f; [reflexivity|].
  simpl. f_equal. apply (IH (f ∘ S)).
Qed.

Lemma imap_with_index_twice (rows : list ExtractionRow) : forall f : nat -> nat,
  imap (fun i => with_index (f i)) (imap (fun i => with_index (f i)) rows)
  = imap (fun i => with_index (f i)) rows.
Proof.
  induction rows as [|row rest IH]; intros f; [reflexivity|].
  simpl. f_equal. apply (IH (f ∘ S)).
Qed.

Lemma paragraph_index_imap (rows : list ExtractionRow) : forall start : nat,
  map paragraph_index (imap (fun i => with_index (start + i)) rows)
  = map (fun i => Z.of_nat i + 1) (seq start (length rows)).
Proof.
  induction rows as [|row rest IH]; intros start; [reflexivity|].
  simpl. f_equal.
  - rewrite Nat.add_0_r. reflexivity.
  - rewrite <- (IH (S start)). f_equal. apply imap_ext. intros i x _. simpl.
    f_equal. lia.
Qed.

(** C8. De-duplicating twice is de-duplicating once: the second pass removes
    no row and changes no [paragraph_index]; after a pass [paragraph_index]
    is the 1-based position of each row. *)
Theorem dedupeRowsWithinPdf_idempotent (rows : list ExtractionRow) :
  dedupeRowsWithinPdf (dedupeRowsWithinPdf rows) = dedupeRowsWithinPdf rows
  /\ length (dedupeRowsWithinPdf (dedupeRowsWithinPdf rows))
     = length (dedupeRowsWithinPdf rows)
  /\ map paragraph_index (dedupeRowsWithinPdf rows)
     = map (fun i => Z.of_nat i + 1) (seq 0 (length (dedupeRowsWithinPdf rows))).
Proof.
  assert (Hidem : dedupeRowsWithinPdf (dedupeRowsWithinPdf rows) = dedupeRowsWithinPdf rows).
  { unfold dedupeRowsWithinPdf.
    rewrite (dedupe_loop_same_keys (dedupe_loop rows ∅)).
    - apply (imap_with_index_twice _ (fun i => i)).
    - apply (map_row_key_imap _ (fun i => i)).
    - apply dedupe_loop_again. reflexivity. }
  split; [exact Hidem|]. split; [rewrite Hidem; reflexivity|].
  unfold dedupeRowsWithinPdf. rewrite length_imap.
  apply (paragraph_index_imap _ 0%nat).
Qed.

(** ** Numbers *)

Lemma is_nan_false (x : float) :
  PrimFloat.is_nan x = false -> Prim2SF x <> S754_nan.
Proof.
  unfold PrimFloat.is_nan. intros H E.
  apply negb_false_iff in H. rewrite FloatAxioms.eqb_spec, E in H. discriminate.
Qed.

Lemma ltb_leb (a b : float) : PrimFloat.ltb a b = true -> PrimFloat.leb a b = true.
Proof.
  rewrite ltb_spec, leb_spec. unfold SFltb, SFleb.
  destruct (SFcompare (Prim2SF a) (Prim2SF b)) as [[]|]; congruence.
Qed.

Lemma SFcompare_antisym (a b : spec_float) :
  SFcompare b a = option_map CompOpp (SFcompare a b).
Proof.
  destruct a as [sa|sa| |sa ma ea], b as [sb|sb| |sb mb eb]; simpl;
    try reflexivity; try (destruct sa; reflexivity); try (destruct sb; reflexivity);
    try (destruct sa, sb; reflexivity).
  destruct sa, sb; simpl; try reflexivity;
    rewrite (Z.compare_antisym ea eb);
    destruct (ea ?= eb) eqn:E; simpl; try reflexivity;
    change (Pos.compare_cont Eq mb ma) with (Pos.compare mb ma);
    change (Pos.compare_cont Eq ma mb) with (Pos.compare ma mb);
    rewrite (Pos.compare_antisym ma mb);
    destruct (Pos.compare ma mb); reflexivity.
Qed.

Lemma not_ltb_leb (a b : float) :
  PrimFloat.is_nan a = false -> PrimFloat.is_nan b = false ->
  PrimFloat.ltb a b = false -> PrimFloat.leb b a = true.
Proof.
  intros Ha Hb. apply is_nan_false in Ha, Hb.
  rewrite ltb_spec, leb_spec. unfold SFltb, SFleb.
  rewrite (SFcompare_antisym (Prim2SF a) (Prim2SF b)).
  destruct (SFcompare (Prim2SF a) (Prim2SF b)) as [[]|] eqn:E; simpl; try congruence.
  exfalso. destruct (Prim2SF a), (Prim2SF b); simpl in E; congruence.
Qed.

Lemma clamp_range (x : float) :
  PrimFloat.is_nan x = false ->
  let c := Math_max PrimFloat.zero (Math_min PrimFloat.one x) in
  PrimFloat.leb PrimFloat.zero c = true /\ PrimFloat.leb c PrimFloat.one = true.
Proof.
  intros Hx c. subst c. unfold Math_min.
  change (PrimFloat.is_nan PrimFloat.one) with false. rewrite Hx. cbn [orb].
  assert (Hmax1 : Math_max PrimFloat.zero PrimFloat.one = PrimFloat.one) by reflexivity.
  destruct (PrimFloat.ltb PrimFloat.one x) eqn:E1.
  { rewrite Hmax1. split; reflexivity. }
  change (is_neg_zero PrimFloat.one) with false. cbv iota.
  assert (Hx1 : PrimFloat.leb x PrimFloat.one = true).
  { apply not_ltb_leb; [reflexivity|assumption|assumption]. }
  assert (Hm : (if PrimFloat.ltb x PrimFloat.one then x else x) = x)
    by (destruct (PrimFloat.ltb x PrimFloat.one); reflexivity).
  rewrite Hm. unfold Math_max.
  change (PrimFloat.is_nan PrimFloat.zero) with false. rewrite Hx. cbn [orb].
  change (is_neg_zero PrimFloat.zero) with false. cbv iota.
  destruct (PrimFloat.ltb PrimFloat.zero x) eqn:E0.
  { split; [apply ltb_leb; assumption|assumption]. }
  assert (Hz : (if PrimFloat.ltb x PrimFloat.zero then PrimFloat.zero else PrimFloat.zero)
               = PrimFloat.zero)
    by (destruct (PrimFloat.ltb x PrimFloat.zero); reflexivity).
  rewrite Hz. split; reflexivity.
Qed.

(** ** Decision normalizers *)

Lemma get_field (item : json) (k : string) :
  item <> JNull -> get item k = Ok (field item k).
Proof. destruct item; intros H; try reflexivity. congruence. Qed.

Lemma normalizeKeepItem_spec (item : json) :
  item <> JNull ->
  normalizeKeepItem item = Ok (if has_id item then Some (keepDecisionOf item) else None).
Proof.
  intros Hnull. unfold normalizeKeepItem, has_id, keepDecisionOf, string_field.
  rewrite !(get_field item) by assumption. cbn [mbind res_bind].
  destruct (field item "id") as [[]|]; try reflexivity.
  destruct (Str.truthy (Str.trim s)); reflexivity.
Qed.

Lemma normalizeVisionItem_spec (item : json) :
  item <> JNull ->
  normalizeVisionItem item
  = Ok (if has_text item then Some (visionParagraphOf item) else None).
Proof.
  intros Hnull. unfold normalizeVisionItem, has_text, visionParagraphOf, string_field.
  rewrite !(get_field item) by assumption. cbn [mbind res_bind].
  destruct (field item "text") as [[]|]; try reflexivity.
  destruct (Str.truthy (Str.trim s)); reflexivity.
Qed.

(** [items.map(f).filter(item => item !== null)] when no call of [f] throws. *)
Lemma mapM_filter_map {A : Type} (f : json -> res (option A)) (valid : json -> bool)
    (convert : json -> A) (items : list json) :
  Forall (fun item => f item = Ok (if valid item then Some (convert item) else None)) items ->
  exists mapped,
    mapM f items = Ok mapped
    /\ omap (fun item => item) mapped
       = map convert (filter (fun item => valid item = true) items).
Proof.
  induction 1 as [|item rest Hitem _ IH].
  - exists []. split; reflexivity.
  - destruct IH as (mapped & Hm & Ho).
    exists ((if valid item then Some (convert item) else None) :: mapped).
    split.
    + cbn [mapM]. rewrite Hitem. cbn [mbind res_bind].
      fold (mapM f). rewrite Hm. reflexivity.
    + destruct (valid item) eqn:E.
      * rewrite filter_cons_True by exact E. simpl. f_equal. exact Ho.
      * rewrite filter_cons_False by (rewrite E; discriminate). exact Ho.
Qed.

Lemma normalizeDecision_array (raw : json) (items : list json) :
  field raw "keep" = Some (JArr items) ->
  Forall (fun item => item <> JNull) items ->
  normalizeDecision raw
  = Ok {| cd_keep := map keepDecisionOf (filter (fun item => has_id item = true) items);
          cd_warnings := normalizeWarnings (field raw "warnings") |}.
Proof.
  intros Hkeep Hitems.
  assert (Hraw : raw <> JNull) by (intros ->; discriminate).
  unfold normalizeDecision. rewrite !(get_field raw) by assumption.
  cbn [mbind res_bind]. rewrite Hkeep.
  destruct (mapM_filter_map normalizeKeepItem has_id keepDecisionOf items) as (mapped & Hm & Ho).
  { eapply Forall_impl; [exact Hitems|]. intros item. apply normalizeKeepItem_spec. }
  rewrite Hm. cbn [mbind res_bind]. rewrite Ho. reflexivity.
Qed.

Lemma normalizeVisionDecision_array (raw : json) (items : list json) :
  field raw "paragraphs" = Some (JArr items) ->
  Forall (fun item => item <> JNull) items ->
  normalizeVisionDecision raw
  = Ok {| vd_paragraphs :=
            map visionParagraphOf (filter (fun item => has_text item = true) items);
          vd_warnings := normalizeWarnings (field raw "warnings") |}.
Proof.
  intros Hkeep Hitems.
  assert (Hraw : raw <> JNull) by (intros ->; discriminate).
  unfold normalizeVisionDecision. rewrite !(get_field raw) by assumption.
  cbn [mbind res_bind]. rewrite Hkeep.
  destruct (mapM_filter_map normalizeVisionItem has_text visionParagraphOf items)
    as (mapped & Hm & Ho).
  { eapply Forall_impl; [exact Hitems|]. intros item. apply normalizeVisionItem_spec. }
  rewrite Hm. cbn [mbind res_bind]. rewrite Ho. reflexivity.
Qed.

Lemma normalizeDecision_not_array (raw : json) :
  isArray (field raw "keep") = false -> is_ok (normalizeDecision raw) = false.
Proof.
  intros H. unfold normalizeDecision. destruct raw; try reflexivity.
  cbn [get mbind res_bind]. unfold field, get_opt in H.
  destruct (assoc "keep" fields) as [[]|]; try reflexivity. discriminate.
Qed.

Lemma normalizeVisionDecision_not_array (raw : json) :
  isArray (field raw "paragraphs") = false -> is_ok (normalizeVisionDecision raw) = false.
Proof.
  intros H. unfold normalizeVisionDecision. destruct raw; try reflexivity.
  cbn [get mbind res_bind]. unfold field, get_opt in H.
  destruct (assoc "paragraphs" fields) as [[]|]; try reflexivity. discriminate.
Qed.

Lemma clampConfidence_range (value : option json) (c : float) :
  clampConfidence value = Some c ->
  PrimFloat.leb PrimFloat.zero c = true /\ PrimFloat.leb c PrimFloat.one = true.
Proof.
  unfold clampConfidence. destruct value as [[]|]; try discriminate.
  destruct (PrimFloat.is_nan x) eqn:E; [discriminate|].
  intros [= <-]. apply clamp_range. exact E.
Qed.

(** C2, as amended. [normalizeDecision] throws when [keep] is not an array;
    when [keep] is an array without a [null] element it returns, in order,
    exactly the elements whose [id] is a string that is not empty once
    trimmed, each with its [id] unchanged, its [confidence] clamped into
    [0, 1] ([undefined] exactly when it is not a number, or is NaN) and its
    [possible_boilerplate] coerced to a boolean; 1.7 is clamped to 1.  The
    same holds of [normalizeVisionDecision] for [paragraphs] and a [text]
    that is not empty once trimmed. *)
Theorem normalizers_amended :
  (forall raw, isArray (field raw "keep") = false -> is_ok (normalizeDecision raw) = false)
  /\ (forall raw items,
        field raw "keep" = Some (JArr items) ->
        Forall (fun item => item <> JNull) items ->
        normalizeDecision raw
        = Ok {| cd_keep := map keepDecisionOf (filter (fun item => has_id item = true) items);
                cd_warnings := normalizeWarnings (field raw "warnings") |})
  /\ (forall value c,
        clampConfidence value = Some c ->
        PrimFloat.leb PrimFloat.zero c = true /\ PrimFloat.leb c PrimFloat.one = true)
  /\ (forall value,
        clampConfidence value = None <->
        match value with Some (JNum x) => PrimFloat.is_nan x = true | _ => True end)
  /\ normalizeDecision scenario_D
     = Ok {| cd_keep := [ {| kd_id := "p1-1"; kd_section_heading := None; kd_note := None;
                             kd_confidence := Some PrimFloat.one;
                             kd_possible_boilerplate := false |} ];
             cd_warnings := [] |}
  /\ (forall raw,
        isArray (field raw "paragraphs") = false ->
        is_ok (normalizeVisionDecision raw) = false)
  /\ (forall raw items,
        field raw "paragraphs" = Some (JArr items) ->
        Forall (fun item => item <> JNull) items ->
        normalizeVisionDecision raw
        = Ok {| vd_paragraphs :=
                  map visionParagraphOf (filter (fun item => has_text item = true) items);
                vd_warnings := normalizeWarnings (field raw "warnings") |}).
Proof.
  split; [exact normalizeDecision_not_array|].
  split; [exact normalizeDecision_array|].
  split; [exact clampConfidence_range|].
  split.
  { intros value. unfold clampConfidence. destruct value as [[]|]; try tauto.
    destruct (PrimFloat.is_nan x); split; intros; try reflexivity; try discriminate. }
  split; [vm_compute; reflexivity|].
  split; [exact normalizeVisionDecision_not_array|exact normalizeVisionDecision_array].
Qed.

(** The amended statement at a decision with a blank [id]. *)
Lemma normalizers_amended_witness :
  normalizeDecision blank_id_decision
  = Ok {| cd_keep := map keepDecisionOf
                       (filter (fun item => has_id item = true)
                          [JObj [("id", JStr "p1-1")]; blank_id_item]);
          cd_warnings := normalizeWarnings (field blank_id_decision "warnings") |}.
Proof.
  apply (proj1 (proj2 normalizers_amended)).
  - reflexivity.
  - repeat constructor; discriminate.
Defined.

(** C2 as stated fails twice: an element whose [id] is the non-empty string
    of one space is dropped, and an array with a [null] element makes
    [normalizeDecision] throw although [keep] is an array. *)
Lemma normalizeDecision_counterexample :
  (has_nonempty_id blank_id_item = true
   /\ normalizeDecision blank_id_decision
      = Ok {| cd_keep := [keepDecisionOf (JObj [("id", JStr "p1-1")])]; cd_warnings := [] |})
  /\ (isArray (field null_item_decision "keep") = true
      /\ is_ok (normalizeDecision null_item_decision) = false).
Proof. split; split; reflexivity. Qed.

(** ** Segmenter *)

Lemma join_group_snoc (group : list Line) (line : Line) :
  join_group (group ++ [line]) = appendLine (join_group group) (line_text line).
Proof.
  unfold join_group. rewrite map_app, fold_left_app. reflexivity.
Qed.

Lemma appendLine_empty (paragraph line : string) :
  Str.truthy paragraph = false -> appendLine paragraph line = line.
Proof. intros H. unfold appendLine. rewrite H. reflexivity. Qed.

Lemma group_paragraphs_cons (group : list Line) (groups : list (list Line)) :
  group_paragraphs (group :: groups)
  = (if Str.truthy (normalizeSpaces (join_group group))
     then [normalizeSpaces (join_group group)] else [])
    ++ group_paragraphs groups.
Proof.
  unfold group_paragraphs. cbn [map].
  destruct (Str.truthy (normalizeSpaces (join_group group))) eqn:E.
  - rewrite filter_cons_True by exact E. reflexivity.
  - rewrite filter_cons_False by (rewrite E; discriminate). reflexivity.
Qed.

Lemma normalizeSpaces_empty (s : string) :
  Str.truthy s = false -> Str.truthy (normalizeSpaces s) = false.
Proof. destruct s; [reflexivity|discriminate]. Qed.

(** The loop of the code and the groups of the specification agree: the
    current paragraph is the join of the open group. *)
Lemma paragraph_loop_groups (threshold : float) (lines : list Line) :
  forall prev group paragraphs,
    close_paragraph (paragraph_loop threshold prev lines paragraphs (join_group group))
    = paragraphs ++ group_paragraphs (split_at_breaks threshold prev lines group).
Proof.
  induction lines as [|line rest IH]; intros prev group paragraphs.
  - cbn [paragraph_loop split_at_breaks]. unfold close_paragraph. cbn [fst snd].
    rewrite group_paragraphs_cons.
    destruct (Str.truthy (normalizeSpaces (join_group group)));
      cbn [group_paragraphs map filter app]; [reflexivity|].
    rewrite app_nil_r. reflexivity.
  - cbn [paragraph_loop split_at_breaks].
    destruct (Str.truthy (join_group group)) eqn:Ecur; cbn [negb].
    + (* a paragraph is open *)
      destruct (PrimFloat.ltb threshold (PrimFloat.sub (line_y prev) (line_y line))).
      * replace (line_text line) with (join_group [line]) by reflexivity.
        rewrite IH. rewrite group_paragraphs_cons.
        destruct (Str.truthy (normalizeSpaces (join_group group)));
          [rewrite <- app_assoc|]; reflexivity.
      * rewrite <- join_group_snoc. apply IH.
    + (* nothing is open: the line is taken whatever the gap *)
      destruct (PrimFloat.ltb threshold (PrimFloat.sub (line_y prev) (line_y line))).
      * replace (line_text line) with (join_group [line]) by reflexivity.
        rewrite IH. rewrite group_paragraphs_cons.
        rewrite (normalizeSpaces_empty _ Ecur). reflexivity.
      * rewrite <- (appendLine_empty (join_group group) (line_text line) Ecur).
        rewrite <- join_group_snoc. apply IH.
Qed.

(** C5, as amended. [linesToParagraphs] takes 1.65 times the median of the
    gaps between consecutive lines that lie strictly between 0.5 and 40
    units (12 standing for the median when there is none) as its threshold,
    starts a new paragraph exactly at the boundaries where the gap to the
    previous line exceeds it, and appends the line with the de-hyphenation
    rule otherwise. *)
Theorem linesToParagraphs_amended (lines : list Line) :
  linesToParagraphs lines = linesToParagraphs_usable_gaps lines
  /\ median [] = 12%float.
Proof.
  split; [|reflexivity].
  unfold linesToParagraphs, linesToParagraphs_usable_gaps, paragraphs_by_threshold.
  destruct lines as [|first rest]; [reflexivity|].
  set (threshold := PrimFloat.mul _ _).
  pose proof (paragraph_loop_groups threshold rest first [first] []) as H.
  change (join_group [first]) with (line_text first) in H.
  unfold close_paragraph in H.
  destruct (paragraph_loop threshold first rest [] (line_text first)) as [paragraphs current].
  exact H.
Qed.

(** C5 as stated fails on a page with the gaps 50, 50, 10 and 30: the median
    of all four gaps is 40 and would put every line in one paragraph, the
    code takes the median 20 of the two usable gaps and breaks twice. *)
Lemma linesToParagraphs_counterexample :
  linesToParagraphs wide_gap_page = ["a"; "b"; "c d e"]
  /\ linesToParagraphs_spec wide_gap_page = ["a b c d e"]
  /\ linesToParagraphs wide_gap_page <> linesToParagraphs_spec wide_gap_page.
Proof. repeat split; try (vm_compute; reflexivity). vm_compute. discriminate. Qed.

(** ** Retry runtime *)

Lemma jitter_range (random : nat -> Q) (attempt : nat) :
  (0 <= random attempt < 1)%Q ->
  0 <= jitter random attempt < 220.
Proof.
  intros [Hlo Hhi]. unfold jitter. split.
  - change 0 with (Qfloor 0). apply Qfloor_resp_le.
    apply Qmult_le_0_compat; [exact Hlo|discriminate].
  - assert (H : (inject_Z (Qfloor (random attempt * 220)) < inject_Z 220)%Q).
    { eapply Qle_lt_trans; [apply Qfloor_le|].
      replace (inject_Z 220) with (1 * 220)%Q by reflexivity.
      apply Qmult_lt_compat_r; [reflexivity|exact Hhi]. }
    rewrite <- Zlt_Qlt in H. exact H.
Qed.

Lemma quiet_not_aborted (options : RetryOptions) (attempt : nat) :
  quiet options ->
  signal_aborted options attempt = false /\ sleep_rejected options attempt = false.
Proof.
  unfold quiet, signal_aborted, sleep_rejected.
  destruct (signal options) as [s|]; [|split; reflexivity].
  intros H. exact (H attempt).
Qed.

(** C6. When the operation fails with HTTP 503 at its first two calls and
    succeeds at the third, [withRetries] with [retries = 2] (and no signal
    that fires) returns the value of the third call after exactly two
    sleeps, of [baseDelayMs * (attempt + 1)] plus a jitter of [[0, 220)]
    milliseconds each. *)
Theorem withRetries_two_failures_then_success {T : Type}
    (operation : nat -> res T) (random : nat -> Q) (options : RetryOptions)
    (message0 message1 : string) (value : T) :
  operation 0%nat = Throw (HttpError 503 message0) ->
  operation 1%nat = Throw (HttpError 503 message1) ->
  operation 2%nat = Ok value ->
  retries options = 2 ->
  quiet options ->
  (forall n, 0 <= random n < 1)%Q ->
  let run := withRetries operation random options in
  let base := default 800 (baseDelayMs options) in
  run_result run = Ok value
  /\ run_calls run = 3%nat
  /\ run_sleeps run = [base * 1 + jitter random 0; base * 2 + jitter random 1]
  /\ 0 <= jitter random 0 < 220
  /\ 0 <= jitter random 1 < 220.
Proof.
  intros H0 H1 H2 Hretries Hquiet Hrandom run base. subst run base.
  unfold withRetries. rewrite Hretries.
  change (Z.to_nat (Z.max 0 2)) with 2%nat.
  destruct (quiet_not_aborted options 0 Hquiet) as [Ha0 Hs0].
  destruct (quiet_not_aborted options 1 Hquiet) as [Ha1 Hs1].
  destruct (quiet_not_aborted options 2 Hquiet) as [Ha2 _].
  cbn [retry_loop]. rewrite Ha0, H0. cbn [isTransientError Z.eqb Z.leb Z.compare
    Pos.compare Pos.compare_cont orb negb]. 
  rewrite Hs0, Ha1, H1. cbn [isTransientError]. 
  change (negb ((503 =? 429) || (500 <=? 503))) with false. cbv iota.
  rewrite Hs1, Ha2, H2. cbn [run_result run_calls run_sleeps app].
  unfold backoff. 
  repeat split; try (apply jitter_range; apply Hrandom).
Qed.

(** Scenario E: [retries = 2], [baseDelayMs = 10], every random draw 1/2. *)
Lemma withRetries_scenario_E :
  let run := withRetries scenario_E_operation half scenario_E_options in
  run_result run = Ok "done"
  /\ run_calls run = 3%nat
  /\ run_sleeps run = [10 * 1 + jitter half 0; 10 * 2 + jitter half 1]
  /\ 0 <= jitter half 0 < 220
  /\ 0 <= jitter half 1 < 220.
Proof.
  apply (withRetries_two_failures_then_success scenario_E_operation half
           scenario_E_options "Service Unavailable" "Service Unavailable" "done");
    try reflexivity; try exact I.
  intros n. split; vm_compute; [discriminate|reflexivity].
Defined.

(** ** Cross-page repeat filter *)

(** C7. Three candidates whose normalised text is [Cookie Policy], on the
    pages 1, 4 and 7, are all removed by [removeGlobalRepeats]: nothing is
    kept. *)
Theorem removeGlobalRepeats_cookie_policy (c1 c2 c3 : ParagraphCandidate) :
  normalizeForDuplicateCheck (pc_text c1) = "Cookie Policy" ->
  normalizeForDuplicateCheck (pc_text c2) = "Cookie Policy" ->
  normalizeForDuplicateCheck (pc_text c3) = "Cookie Policy" ->
  pc_pageNumber c1 = 1 -> pc_pageNumber c2 = 4 -> pc_pageNumber c3 = 7 ->
  removeGlobalRepeats [c1; c2; c3]
  = {| rf_paragraphs := [];
       rf_warnings :=
         ["Removed 3 repeated short paragraphs likely to be template/header/footer text."] |}.
Proof.
  intros H1 H2 H3 P1 P2 P3.
  unfold removeGlobalRepeats.
  cbn [collect_pages repeat_loop]. unfold repeatedAcrossPages.
  rewrite H1, H2, H3, P1, P2, P3.
  vm_compute. reflexivity.
Qed.

(** Scenario C, with white space around and inside the text. *)
Lemma removeGlobalRepeats_scenario_C :
  removeGlobalRepeats [cookie_policy 1; cookie_policy 4; cookie_policy 7]
  = {| rf_paragraphs := [];
       rf_warnings :=
         ["Removed 3 repeated short paragraphs likely to be template/header/footer text."] |}.
Proof.
  apply (removeGlobalRepeats_cookie_policy
           (cookie_policy 1) (cookie_policy 4) (cookie_policy 7)); reflexivity.
Defined.

(** ** Vision fallback *)

Lemma dedupe_loop_head (row : ExtractionRow) (rest : list ExtractionRow) :
  dedupe_loop (row :: rest) ∅ <> [].
Proof.
  cbn [dedupe_loop]. destruct (negb (Str.truthy (row_key row))); [discriminate|].
  destruct (decide (row_key row ∈ ∅)) as [Hin|_]; [|discriminate].
  exfalso. exact (not_elem_of_empty _ Hin).
Qed.

Lemma dedupeRowsWithinPdf_nonempty (rows : list ExtractionRow) :
  rows <> [] -> dedupeRowsWithinPdf rows <> [].
Proof.
  destruct rows as [|row rest]; [congruence|]. intros _ H.
  unfold dedupeRowsWithinPdf in H.
  apply (f_equal (@length _)) in H. rewrite length_imap in H.
  pose proof (dedupe_loop_head row rest) as Hne.
  destruct (dedupe_loop (row :: rest) ∅); [congruence|discriminate].
Qed.

Lemma dedupeRowsWithinPdf_placeholder (pdfName : string) :
  dedupeRowsWithinPdf [nothingExtractedRow pdfName] = [placeholderRow pdfName].
Proof. reflexivity. Qed.

Lemma processPdfWithVisionFallback_eq (file : VisionFile)
    (quality : option PartialQualitySettings) :
  processPdfWithVisionFallback file quality
  = match visionPagesRows file quality with
    | Ok [] => Ok [placeholderRow (vf_name file)]
    | Ok rows => Ok (dedupeRowsWithinPdf rows)
    | Throw e => Throw e
    end.
Proof.
  unfold processPdfWithVisionFallback, visionPagesRows.
  destruct (iteratePdfPageImages _ _ _) as [[|row rows]|e]; reflexivity.
Qed.

Lemma iterate_pages_runs (onPage : Z -> VisionPage -> list ExtractionRow -> res (list ExtractionRow))
    (pages : list VisionPage) :
  (forall n page rows, vpg_abortedAtCall page = false ->
                       vpg_outcome page <> Throw AbortError ->
                       is_ok (onPage n page rows) = true) ->
  Forall (fun page =>
            vpg_abortedAtPage page = false
            /\ is_ok (vpg_image page) = true
            /\ vpg_abortedAtCall page = false
            /\ vpg_outcome page <> Throw AbortError) pages ->
  forall n rows, is_ok (iterate_pages onPage n pages rows) = true.
Proof.
  intros HonPage. induction 1 as [|page rest (Hp & Hi & Hc & Ho) _ IH]; intros n rows.
  - reflexivity.
  - cbn [iterate_pages]. rewrite Hp.
    destruct (vpg_image page) as [image|e]; [|discriminate]. cbn [mbind res_bind].
    specialize (HonPage n page rows Hc Ho).
    destruct (onPage n page rows) as [rows'|e]; [|discriminate]. cbn [mbind res_bind].
    apply IH.
Qed.

Lemma visionPageCallback_runs (pdfName : string) (qualitySettings : ExtractionQualitySettings)
    (n : Z) (page : VisionPage) (rows : list ExtractionRow) :
  vpg_abortedAtCall page = false ->
  vpg_outcome page <> Throw AbortError ->
  is_ok (visionPageCallback pdfName qualitySettings n page rows) = true.
Proof.
  intros Hc Ho. unfold visionPageCallback. rewrite Hc.
  destruct (vpg_outcome page) as [decision|[]]; try reflexivity.
  - destruct (length (vd_paragraphs decision) =? 0)%nat; reflexivity.
  - congruence.
Qed.

Lemma processPdfWithVisionFallback_runs (file : VisionFile)
    (quality : option PartialQualitySettings) :
  runs_through file -> is_ok (processPdfWithVisionFallback file quality) = true.
Proof.
  intros (Hopen & pages & Hpages & Hall).
  rewrite processPdfWithVisionFallback_eq. unfold visionPagesRows, iteratePdfPageImages.
  rewrite Hopen, Hpages. cbn [mbind res_bind].
  pose proof (iterate_pages_runs
                (visionPageCallback (vf_name file) (sanitizeQualitySettings quality)) pages
                (visionPageCallback_runs _ _) Hall 1 []) as H.
  destruct (iterate_pages _ 1 pages []) as [[|row rows]|e]; [reflexivity|reflexivity|discriminate].
Qed.

Lemma processPdfWithVisionFallback_nonempty (file : VisionFile)
    (quality : option PartialQualitySettings) (rows : list ExtractionRow) :
  processPdfWithVisionFallback file quality = Ok rows -> rows <> [].
Proof.
  rewrite processPdfWithVisionFallback_eq.
  destruct (visionPagesRows file quality) as [[|row rest]|e]; intros [= <-].
  - discriminate.
  - apply dedupeRowsWithinPdf_nonempty. discriminate.
Qed.

(** ** Batch reconciliation *)

Lemma insert_file_perm (f : ExtractionBatchFilePlan) (sorted : list ExtractionBatchFilePlan) :
  insert_file f sorted ≡ₚ f :: sorted.
Proof.
  induction sorted as [|g rest IH]; cbn [insert_file]; [reflexivity|].
  destruct (fp_fileIndex f - fp_fileIndex g <? 0); [reflexivity|].
  rewrite IH. apply Permutation_swap.
Qed.

Lemma sort_files_perm (files : list ExtractionBatchFilePlan) :
  sort_files files ≡ₚ files.
Proof.
  unfold sort_files.
  assert (H : forall acc, fold_left (fun sorted f => insert_file f sorted) files acc
                          ≡ₚ files ++ acc).
  { induction files as [|f rest IH]; intros acc; cbn [fold_left]; [reflexivity|].
    rewrite IH, insert_file_perm. cbn [app].
    symmetry. apply Permutation_middle. }
  rewrite H, app_nil_r. reflexivity.
Qed.

Lemma concat_map_elem {A B : Type} (g : A -> list B) (x : A) (l : list A) :
  x ∈ l -> exists before after, concat (map g l) = before ++ g x ++ after.
Proof.
  intros Hin. apply list_elem_of_split in Hin as (l1 & l2 & ->).
  exists (concat (map g l1)), (concat (map g l2)).
  rewrite map_app, concat_app. reflexivity.
Qed.

Lemma rowsForFilePlan_vision (rowsByPdf : gmap string (list ExtractionRow))
    (filePlan : ExtractionBatchFilePlan) :
  fp_mode filePlan = mode_vision ->
  rowsForFilePlan rowsByPdf filePlan <> []
  /\ (default [] (rowsByPdf !! fp_pdfName filePlan) = [] ->
      rowsForFilePlan rowsByPdf filePlan = [placeholderRow (fp_pdfName filePlan)]).
Proof.
  intros Hmode. unfold rowsForFilePlan. rewrite Hmode.
  destruct (default [] (rowsByPdf !! fp_pdfName filePlan)) as [|row rest] eqn:E.
  - split; [discriminate|]. reflexivity.
  - split; [|discriminate]. apply dedupeRowsWithinPdf_nonempty. discriminate.
Qed.

Lemma contents_pushRow (rowsByPdf : gmap string (list ExtractionRow)) (p q : string)
    (row : ExtractionRow) :
  contents (pushRow rowsByPdf p row) q
  = contents rowsByPdf q ++ (if decide (p = q) then [row] else []).
Proof.
  unfold contents, pushRow. destruct (decide (p = q)) as [->|Hne].
  - rewrite lookup_insert_eq. reflexivity.
  - rewrite lookup_insert_ne by exact Hne. rewrite app_nil_r. reflexivity.
Qed.

Lemma contents_pushRows (rows : list ExtractionRow) : forall rowsByPdf (p q : string),
  contents (fold_left (fun m row => pushRow m p row) rows rowsByPdf) q
  = contents rowsByPdf q ++ (if decide (p = q) then rows else []).
Proof.
  induction rows as [|row rest IH]; intros rowsByPdf p q; cbn [fold_left].
  - destruct (decide (p = q)); rewrite app_nil_r; reflexivity.
  - rewrite IH, contents_pushRow. destruct (decide (p = q)).
    + rewrite <- app_assoc. reflexivity.
    + rewrite !app_nil_r. reflexivity.
Qed.

Section Batch.

Variable JSON_parse : string -> res json.
Variable Number_toString : float -> string.

Lemma contents_collectRows quality outputMap errorMap (tasks : list ExtractionBatchTask) :
  forall rowsByPdf q,
    contents (collectRows JSON_parse Number_toString quality outputMap errorMap tasks rowsByPdf) q
    = contents rowsByPdf q
      ++ documentRows JSON_parse Number_toString quality outputMap errorMap tasks q.
Proof.
  unfold collectRows, documentRows.
  induction tasks as [|task rest IH]; intros rowsByPdf q; cbn [fold_left map concat].
  - rewrite app_nil_r. reflexivity.
  - rewrite IH, contents_pushRows, <- app_assoc. reflexivity.
Qed.

Lemma contents_manifestRows manifest outputMap errorMap q :
  contents (manifestRows JSON_parse Number_toString manifest outputMap errorMap) q
  = documentRows JSON_parse Number_toString
      (sanitizeQualitySettings (Some (mf_quality manifest))) outputMap errorMap
      (mf_tasks manifest) q.
Proof.
  unfold manifestRows. rewrite contents_collectRows. reflexivity.
Qed.

Lemma importOpenAiBatchResultFiles_eq manifest out err outputMap errorMap :
  resultMap JSON_parse out = Ok outputMap ->
  resultMap JSON_parse err = Ok errorMap ->
  importOpenAiBatchResultFiles JSON_parse Number_toString manifest out err
  = Ok (concat (map (rowsForFilePlan
                       (manifestRows JSON_parse Number_toString manifest outputMap errorMap))
                    (sort_files (mf_files manifest)))).
Proof.
  intros Hout Herr. unfold importOpenAiBatchResultFiles. rewrite Hout, Herr. reflexivity.
Qed.

End Batch.

Lemma dedupe_loop_subset (rows : list ExtractionRow) : forall seen r,
  r ∈ dedupe_loop rows seen -> r ∈ rows.
Proof.
  induction rows as [|row rest IH]; intros seen r; cbn [dedupe_loop]; [trivial|].
  destruct (negb (Str.truthy (row_key row))).
  - rewrite !elem_of_cons. intros [->|H]; [left; reflexivity|right; eauto].
  - destruct (decide (row_key row ∈ seen)).
    + intros H. apply elem_of_cons. right. eauto.
    + rewrite !elem_of_cons. intros [->|H]; [left; reflexivity|right; eauto].
Qed.

(** A row is kept, or it has a text that was seen before it or is the text
    of a row that is kept. *)
Lemma dedupe_loop_covers (rows : list ExtractionRow) : forall seen r,
  r ∈ rows ->
  r ∈ dedupe_loop rows seen
  \/ (Str.truthy (row_key r) = true
      /\ (row_key r ∈ seen
          \/ exists r', r' ∈ dedupe_loop rows seen /\ row_key r' = row_key r)).
Proof.
  induction rows as [|row rest IH]; intros seen r Hin.
  - apply elem_of_nil in Hin. contradiction.
  - cbn [dedupe_loop]. apply elem_of_cons in Hin.
    destruct (Str.truthy (row_key row)) eqn:Ekey; cbn [negb].
    + destruct (decide (row_key row ∈ seen)) as [Hseen|Hnew].
      * destruct Hin as [->|Hin].
        -- right. split; [exact Ekey|]. left. exact Hseen.
        -- apply IH. exact Hin.
      * destruct Hin as [->|Hin].
        -- left. apply elem_of_cons. left. reflexivity.
        -- destruct (IH ({[row_key row]} ∪ seen) r Hin) as [H|(Ht & [H|(r' & H & Hk)])].
           ++ left. apply elem_of_cons. right. exact H.
           ++ right. split; [exact Ht|].
              apply elem_of_union in H as [H|H].
              ** apply elem_of_singleton in H. right. exists row.
                 split; [apply elem_of_cons; left; reflexivity|]. symmetry. exact H.
              ** left. exact H.
           ++ right. split; [exact Ht|]. right. exists r'.
              split; [apply elem_of_cons; right; exact H|exact Hk].
    + destruct Hin as [->|Hin].
      * left. apply elem_of_cons. left. reflexivity.
      * destruct (IH seen r Hin) as [H|(Ht & [H|(r' & H & Hk)])].
        -- left. apply elem_of_cons. right. exact H.
        -- right. split; [exact Ht|]. left. exact H.
        -- right. split; [exact Ht|]. right. exists r'.
           split; [apply elem_of_cons; right; exact H|exact Hk].
Qed.

Lemma elem_of_dedupeRowsWithinPdf (rows : list ExtractionRow) (r : ExtractionRow) :
  r ∈ dedupe_loop rows ∅ -> exists i, with_index i r ∈ dedupeRowsWithinPdf rows.
Proof.
  intros H. apply list_elem_of_lookup in H as (i & Hi). exists i.
  unfold dedupeRowsWithinPdf. apply elem_of_lookup_imap. exists i, r. split; [reflexivity|exact Hi].
Qed.

Lemma dedupeRowsWithinPdf_covers (rows : list ExtractionRow) (p : string) (r : ExtractionRow) :
  Forall (fun row => pdf_name row = p) rows ->
  r ∈ rows ->
  returned_or_duplicate (dedupeRowsWithinPdf rows) r.
Proof.
  intros Hp Hin.
  destruct (dedupe_loop_covers rows ∅ r Hin) as [H|(Ht & [H|(r' & H & Hk)])].
  - left. apply elem_of_dedupeRowsWithinPdf. exact H.
  - exfalso. exact (not_elem_of_empty _ H).
  - right. split; [exact Ht|].
    destruct (elem_of_dedupeRowsWithinPdf rows r' H) as (i & Hi).
    exists r', i. split; [|split; [exact Hk|exact Hi]].
    rewrite Forall_forall in Hp.
    rewrite (Hp r' (dedupe_loop_subset _ _ _ H)), (Hp r Hin). reflexivity.
Qed.

Lemma returned_or_duplicate_mono (rows rows' : list ExtractionRow) (r : ExtractionRow) :
  (forall x, x ∈ rows -> x ∈ rows') ->
  returned_or_duplicate rows r -> returned_or_duplicate rows' r.
Proof.
  intros Hsub [(i & H)|(Ht & other & i & Hn & Hk & H)].
  - left. exists i. auto.
  - right. split; [exact Ht|]. exists other, i. auto.
Qed.

Lemma keep_loop_pdf_name pdfName quality candidateMap (keeps : list KeepDecision) :
  forall used,
    Forall (fun row => pdf_name row = pdfName)
           (keep_loop pdfName quality candidateMap keeps used).
Proof.
  induction keeps as [|keep rest IH]; intros used; cbn [keep_loop]; [constructor|].
  destruct (candidateMap !! kd_id keep) as [candidate|]; [|apply IH].
  destruct (decide (kd_id keep ∈ used)); [apply IH|].
  destruct (negb (isLikelyCodingParagraph (pc_text candidate) quality)); [apply IH|].
  constructor; [reflexivity|apply IH].
Qed.

Lemma visionRows_pdf_name pdfName pageNumber quality decision :
  Forall (fun row => pdf_name row = pdfName) (visionRows pdfName pageNumber quality decision).
Proof.
  unfold visionRows. apply Forall_forall. intros row Hin.
  apply list_elem_of_omap in Hin as (paragraph & _ & Hrow).
  unfold visionRow in Hrow.
  destruct (negb (isLikelyCodingParagraph (vp_text paragraph) quality)); [discriminate|].
  injection Hrow as <-. reflexivity.
Qed.

Lemma failureRows_pdf_name (task : ExtractionBatchTask) (message : string) :
  Forall (fun row => pdf_name row = task_pdfName task) (failureRows task message).
Proof.
  destruct task; cbn [failureRows task_pdfName].
  - unfold fallbackRowsFromChunk. apply Forall_map. apply Forall_forall. reflexivity.
  - constructor; [reflexivity|constructor].
Qed.

Section Batch.

Variable JSON_parse : string -> res json.
Variable Number_toString : float -> string.

Lemma taskRows_pdf_name quality (task : ExtractionBatchTask) (line : option json) :
  Forall (fun row => pdf_name row = task_pdfName task)
         (taskRows JSON_parse Number_toString quality task line).
Proof.
  unfold taskRows.
  destruct (taskAttempt JSON_parse Number_toString quality task line) as [rows|e] eqn:E;
    [|apply failureRows_pdf_name].
  unfold taskAttempt in E. destruct (unusable line).
  - destruct (formatBatchError Number_toString line); discriminate.
  - destruct (parseOpenAiJsonResponse JSON_parse _) as [rawObject|]; [|discriminate].
    cbn [mbind res_bind] in E. destruct task; cbn [task_pdfName].
    + destruct (normalizeDecision rawObject) as [decision|]; [|discriminate].
      injection E as <-. apply keep_loop_pdf_name.
    + destruct (normalizeVisionDecision rawObject) as [decision|]; [|discriminate].
      cbn [mbind res_bind] in E.
      destruct (length (vd_paragraphs decision) =? 0)%nat; injection E as <-;
        [constructor|apply visionRows_pdf_name].
Qed.

Lemma documentRows_pdf_name quality outputMap errorMap (tasks : list ExtractionBatchTask) q :
  Forall (fun row => pdf_name row = q)
         (documentRows JSON_parse Number_toString quality outputMap errorMap tasks q).
Proof.
  unfold documentRows. apply Forall_concat. apply Forall_map.
  apply Forall_forall. intros task _.
  destruct (decide (task_pdfName task = q)) as [<-|_]; [apply taskRows_pdf_name|constructor].
Qed.

Lemma taskRows_in_documentRows quality outputMap errorMap (tasks : list ExtractionBatchTask)
    (task : ExtractionBatchTask) (r : ExtractionRow) :
  task ∈ tasks ->
  r ∈ taskRows JSON_parse Number_toString quality task (lookup_line outputMap errorMap task) ->
  r ∈ documentRows JSON_parse Number_toString quality outputMap errorMap tasks
        (task_pdfName task).
Proof.
  intros Htask Hr. unfold documentRows.
  induction tasks as [|task' rest IH]; [apply elem_of_nil in Htask; contradiction|].
  cbn [map concat]. apply elem_of_app. apply elem_of_cons in Htask as [<-|Htask].
  - left. rewrite decide_True by reflexivity. exact Hr.
  - right. apply IH. exact Htask.
Qed.

(** The rows of a planned task reach the result, up to de-duplication. *)
Lemma taskRows_returned manifest out err outputMap errorMap task :
  resultMap JSON_parse out = Ok outputMap ->
  resultMap JSON_parse err = Ok errorMap ->
  task ∈ mf_tasks manifest ->
  planned manifest task ->
  exists rows,
    importOpenAiBatchResultFiles JSON_parse Number_toString manifest out err = Ok rows
    /\ Forall (returned_or_duplicate rows)
         (taskRows JSON_parse Number_toString
            (sanitizeQualitySettings (Some (mf_quality manifest))) task
            (lookup_line outputMap errorMap task)).
Proof.
  intros Hout Herr Htask (filePlan & Hplan & Hname).
  eexists. split; [apply (importOpenAiBatchResultFiles_eq _ _ _ _ _ _ _ Hout Herr)|].
  apply Forall_forall. intros r Hr.
  pose proof (taskRows_in_documentRows _ _ _ _ _ _ Htask Hr) as Hdoc.
  rewrite <- contents_manifestRows in Hdoc.
  assert (Hsorted : filePlan ∈ sort_files (mf_files manifest)).
  { rewrite sort_files_perm. exact Hplan. }
  destruct (concat_map_elem
              (rowsForFilePlan
                 (manifestRows JSON_parse Number_toString manifest outputMap errorMap))
              filePlan _ Hsorted) as (before & after & ->).
  apply (returned_or_duplicate_mono
           (rowsForFilePlan
              (manifestRows JSON_parse Number_toString manifest outputMap errorMap) filePlan)).
  { intros x Hx. apply elem_of_app. right. apply elem_of_app. left. exact Hx. }
  unfold rowsForFilePlan. rewrite Hname.
  fold (contents (manifestRows JSON_parse Number_toString manifest outputMap errorMap)
          (task_pdfName task)).
  set (docRows := contents _ _) in *.
  assert (Hrows : (match fp_mode filePlan with
                   | mode_text => docRows
                   | mode_vision =>
                       if (length docRows =? 0)%nat
                       then docRows ++ [nothingExtractedRow (task_pdfName task)]
                       else docRows
                   end) = docRows).
  { destruct (fp_mode filePlan); [reflexivity|].
    destruct docRows; [|reflexivity]. apply elem_of_nil in Hdoc. contradiction. }
  rewrite Hrows.
  apply (dedupeRowsWithinPdf_covers docRows (task_pdfName task)); [|exact Hdoc].
  subst docRows. rewrite contents_manifestRows. apply documentRows_pdf_name.
Qed.

End Batch.

Lemma dedupeRowsWithinPdf_pdf_name (rows : list ExtractionRow) (p : string) :
  Forall (fun row => pdf_name row = p) rows ->
  Forall (fun row => pdf_name row = p) (dedupeRowsWithinPdf rows).
Proof.
  intros H. apply Forall_forall. intros r Hr.
  unfold dedupeRowsWithinPdf in Hr.
  apply elem_of_lookup_imap in Hr as (i & r0 & -> & Hi).
  rewrite Forall_forall in H. cbn [with_index pdf_name].
  apply H. apply (dedupe_loop_subset rows ∅). apply list_elem_of_lookup. exists i. exact Hi.
Qed.

Section Batch.

Variable JSON_parse : string -> res json.
Variable Number_toString : float -> string.

Lemma taskAttempt_missing quality (task : ExtractionBatchTask) :
  taskAttempt JSON_parse Number_toString quality task None = Throw (JsError no_result).
Proof. reflexivity. Qed.

Lemma lookup_line_missing (outputMap errorMap : gmap string json) (task : ExtractionBatchTask) :
  outputMap !! task_customId task = None ->
  errorMap !! task_customId task = None ->
  lookup_line outputMap errorMap task = None.
Proof. intros Ho He. unfold lookup_line. rewrite Ho, He. reflexivity. Qed.

Lemma rowsForFilePlan_pdf_name manifest outputMap errorMap filePlan :
  Forall (fun row => pdf_name row = fp_pdfName filePlan)
    (rowsForFilePlan (manifestRows JSON_parse Number_toString manifest outputMap errorMap)
       filePlan).
Proof.
  unfold rowsForFilePlan. apply dedupeRowsWithinPdf_pdf_name.
  fold (contents (manifestRows JSON_parse Number_toString manifest outputMap errorMap)
          (fp_pdfName filePlan)).
  assert (H : Forall (fun row => pdf_name row = fp_pdfName filePlan)
                (contents (manifestRows JSON_parse Number_toString manifest outputMap errorMap)
                   (fp_pdfName filePlan))).
  { rewrite contents_manifestRows. apply documentRows_pdf_name. }
  destruct (fp_mode filePlan); [exact H|].
  destruct (length _ =? 0)%nat; [|exact H].
  apply Forall_app. split; [exact H|]. constructor; [reflexivity|constructor].
Qed.

End Batch.

(** C4, as amended. When both result files parse, the import does not
    throw; and for every task of the manifest whose document has a file
    plan: if neither file has a line for its [customId], each candidate of a
    text chunk has its fallback row, with the explanation that no batch
    result was returned, among the returned rows (renumbered), unless
    de-duplication kept another row of the document with the same
    normalised text in its place, and a vision page has its failure row
    among them; more generally, whatever makes the task's result unusable,
    its fallback rows are returned in the same sense. *)
Theorem importOpenAiBatchResultFiles_fallback
    (JSON_parse : string -> res json) (Number_toString : float -> string)
    (manifest : OpenAiExtractionBatchManifest) (outputFileText errorFileText : option string)
    (outputMap errorMap : gmap string json) :
  resultMap JSON_parse outputFileText = Ok outputMap ->
  resultMap JSON_parse errorFileText = Ok errorMap ->
  exists rows,
    importOpenAiBatchResultFiles JSON_parse Number_toString manifest
      outputFileText errorFileText = Ok rows
    /\ forall task,
         task ∈ mf_tasks manifest ->
         planned manifest task ->
         (outputMap !! task_customId task = None ->
          errorMap !! task_customId task = None ->
          match task with
          | TextFilterBatchTask _ pdfName _ _ _ _ chunk =>
              Forall (fun candidate =>
                        returned_or_duplicate rows (fallbackRow pdfName no_result candidate))
                     chunk
          | VisionPageBatchTask _ pdfName _ _ pageNumber _ =>
              exists i, with_index i (visionFailureRow pdfName pageNumber no_result) ∈ rows
          end)
         /\ (forall error,
               taskAttempt JSON_parse Number_toString
                 (sanitizeQualitySettings (Some (mf_quality manifest))) task
                 (lookup_line outputMap errorMap task) = Throw error ->
               Forall (returned_or_duplicate rows)
                      (failureRows task (message_or error "Unknown batch result error"))).
Proof.
  intros Hout Herr.
  eexists. split; [apply (importOpenAiBatchResultFiles_eq _ _ _ _ _ _ _ Hout Herr)|].
  intros task Htask Hplanned.
  destruct (taskRows_returned JSON_parse Number_toString manifest outputFileText errorFileText
              outputMap errorMap task Hout Herr Htask Hplanned) as (rows & Hrows & Hall).
  rewrite (importOpenAiBatchResultFiles_eq _ _ _ _ _ _ _ Hout Herr) in Hrows.
  injection Hrows as <-.
  split.
  - intros Ho He. unfold taskRows in Hall.
    rewrite (lookup_line_missing outputMap errorMap task Ho He) in Hall.
    rewrite taskAttempt_missing in Hall. cbn [message_or] in Hall.
    destruct task; cbn [failureRows] in Hall.
    + unfold fallbackRowsFromChunk in Hall. rewrite Forall_map in Hall. exact Hall.
    + apply Forall_cons in Hall as [[H|(Ht & _)] _]; [exact H|].
      vm_compute in Ht. discriminate.
  - intros error Hthrow. unfold taskRows in Hall. rewrite Hthrow in Hall. exact Hall.
Qed.

(** Scenario F: the task [f0-text_filter-0] and two empty result files. *)
Lemma importOpenAiBatchResultFiles_scenario_F :
  exists rows,
    importOpenAiBatchResultFiles rejecting_parser unused_toString
      (scenario_F_manifest distinct_chunk) None None = Ok rows
    /\ Forall (fun candidate =>
                 returned_or_duplicate rows (fallbackRow "report.pdf" no_result candidate))
              distinct_chunk.
Proof.
  destruct (importOpenAiBatchResultFiles_fallback rejecting_parser unused_toString
              (scenario_F_manifest distinct_chunk) None None ∅ ∅)
    as (rows & Hrows & Htasks); [reflexivity|reflexivity|].
  exists rows. split; [exact Hrows|].
  destruct (Htasks (scenario_F_task distinct_chunk)) as [Hmissing _].
  - apply elem_of_cons. left. reflexivity.
  - eexists. split; [apply elem_of_cons; left; reflexivity|reflexivity].
  - apply Hmissing; reflexivity.
Defined.

(** C4 as stated fails twice: a chunk of two candidates with the same text
    gets one row for its two candidates, and a result file with a line that
    is not JSON makes the import throw. *)
Lemma importOpenAiBatchResultFiles_counterexample :
  (length repeated_chunk = 2%nat
   /\ importOpenAiBatchResultFiles rejecting_parser unused_toString
        (scenario_F_manifest repeated_chunk) None None
      = Ok [with_index 0 (fallbackRow "report.pdf" no_result
                            (candidate "p1-1" 1 "The same paragraph on two pages."))])
  /\ importOpenAiBatchResultFiles rejecting_parser unused_toString
       (scenario_F_manifest distinct_chunk) (Some "not json") None
     = Throw (JsError "Unexpected token in JSON").
Proof. split; [split|]; vm_compute; reflexivity. Qed.

(** C9. The rows returned for a document of the vision path are never
    empty, in live mode ([processPdfWithVisionFallback], which returns
    unless the run is aborted or the PDF cannot be read) and for every
    vision-mode file plan of a batch import; when no page produced a row
    they are exactly the placeholder, of empty paragraph, page number
    [null] and an explanatory note. *)
Theorem vision_document_never_empty :
  (forall file quality rows,
      processPdfWithVisionFallback file quality = Ok rows -> rows <> [])
  /\ (forall file quality,
        visionPagesRows file quality = Ok [] ->
        processPdfWithVisionFallback file quality = Ok [placeholderRow (vf_name file)])
  /\ (forall file quality,
        runs_through file -> is_ok (processPdfWithVisionFallback file quality) = true)
  /\ (forall JSON_parse Number_toString manifest outputFileText errorFileText
             outputMap errorMap filePlan,
        resultMap JSON_parse outputFileText = Ok outputMap ->
        resultMap JSON_parse errorFileText = Ok errorMap ->
        filePlan ∈ mf_files manifest ->
        fp_mode filePlan = mode_vision ->
        let rowsByPdf := manifestRows JSON_parse Number_toString manifest outputMap errorMap in
        let docRows := rowsForFilePlan rowsByPdf filePlan in
        docRows <> []
        /\ Forall (fun row => pdf_name row = fp_pdfName filePlan) docRows
        /\ (exists before after,
              importOpenAiBatchResultFiles JSON_parse Number_toString manifest
                outputFileText errorFileText = Ok (before ++ docRows ++ after))
        /\ (contents rowsByPdf (fp_pdfName filePlan) = [] ->
            docRows = [placeholderRow (fp_pdfName filePlan)]))
  /\ (forall pdfName,
        pdf_name (placeholderRow pdfName) = pdfName
        /\ paragraph (placeholderRow pdfName) = ""
        /\ page_number (placeholderRow pdfName) = None
        /\ notes (placeholderRow pdfName)
           = "No extractable paragraphs were found by text-layer parsing or vision OCR extraction.").
Proof.
  split; [exact processPdfWithVisionFallback_nonempty|].
  split.
  { intros file quality H. rewrite processPdfWithVisionFallback_eq, H. reflexivity. }
  split; [exact processPdfWithVisionFallback_runs|].
  split; [|intros pdfName; repeat split].
  intros JSON_parse Number_toString manifest outputFileText errorFileText
         outputMap errorMap filePlan Hout Herr Hplan Hmode rowsByPdf docRows.
  destruct (rowsForFilePlan_vision rowsByPdf filePlan Hmode) as [Hne Hplaceholder].
  split; [exact Hne|].
  split; [apply rowsForFilePlan_pdf_name|].
  split; [|exact Hplaceholder].
  rewrite (importOpenAiBatchResultFiles_eq JSON_parse Number_toString manifest
             outputFileText errorFileText outputMap errorMap Hout Herr).
  assert (Hsorted : filePlan ∈ sort_files (mf_files manifest)).
  { rewrite sort_files_perm. exact Hplan. }
  destruct (concat_map_elem (rowsForFilePlan rowsByPdf) filePlan _ Hsorted)
    as (before & after & Heq).
  exists before, after. subst rowsByPdf docRows. rewrite Heq. reflexivity.
Qed.

(** A scanned file on which nothing is found, live and in a batch. *)
Lemma vision_document_never_empty_witness :
  processPdfWithVisionFallback blank_scan None = Ok [placeholderRow "scan.pdf"]
  /\ rowsForFilePlan
       (manifestRows rejecting_parser unused_toString scanned_manifest ∅ ∅) scanned_plan
     = [placeholderRow "scan.pdf"].
Proof.
  destruct vision_document_never_empty as (_ & Hlive & _ & Hbatch & _).
  split.
  - apply (Hlive blank_scan None). reflexivity.
  - apply (Hbatch rejecting_parser unused_toString scanned_manifest None None ∅ ∅ scanned_plan).
    + reflexivity.
    + reflexivity.
    + apply elem_of_cons. left. reflexivity.
    + reflexivity.
    + reflexivity.
Defined.

(** * More properties of the code *)

(** ** White-space normalisation *)

Lemma chars_of_chars (l : list ascii) : Str.chars (Str.of_chars l) = l.
Proof. apply list_ascii_of_string_of_list_ascii. Qed.

Lemma of_chars_chars (s : string) : Str.of_chars (Str.chars s) = s.
Proof. apply string_of_list_ascii_of_string. Qed.

Lemma collapse_ws_head (c : ascii) (l : list ascii) :
  Str.is_space c = false -> Str.collapse_ws (c :: l) = c :: Str.collapse_ws l.
Proof. intros H. cbn [Str.collapse_ws]. rewrite H. reflexivity. Qed.

Lemma single_spaced_collapse (l : list ascii) : single_spaced (Str.collapse_ws l) = true.
Proof.
  induction l as [|c l IH]; [reflexivity|].
  cbn [Str.collapse_ws]. destruct (Str.is_space c) eqn:Ec.
  - destruct l as [|d l']; [reflexivity|].
    destruct (Str.is_space d) eqn:Ed; [exact IH|].
    rewrite (collapse_ws_head d l' Ed) in *.
    cbn [single_spaced] in *. change (Str.is_space " ") with true.
    rewrite Ed. cbn [negb andb Ascii.eqb]. rewrite Ed in IH. exact IH.
  - cbn [single_spaced]. rewrite Ec. exact IH.
Qed.

Lemma collapse_single_spaced (l : list ascii) :
  single_spaced l = true -> Str.collapse_ws l = l.
Proof.
  induction l as [|c l IH]; [reflexivity|].
  cbn [single_spaced Str.collapse_ws]. intros H.
  apply andb_true_iff in H as [Hc Hl]. specialize (IH Hl).
  destruct (Str.is_space c) eqn:Ec; [|rewrite IH; reflexivity].
  apply andb_true_iff in Hc as [Hsp Hnext].
  apply Ascii.eqb_eq in Hsp. subst c.
  destruct l as [|d l']; [reflexivity|].
  apply negb_true_iff in Hnext. rewrite Hnext, IH. reflexivity.
Qed.

Lemma single_spaced_tail (c : ascii) (l : list ascii) :
  single_spaced (c :: l) = true -> single_spaced l = true.
Proof. cbn [single_spaced]. intros H. apply andb_true_iff in H as [_ H]. exact H. Qed.

Lemma single_spaced_trim_start (l : list ascii) :
  single_spaced l = true -> single_spaced (Str.trim_start l) = true.
Proof.
  induction l as [|c l IH]; [reflexivity|].
  intros H. cbn [Str.trim_start]. destruct (Str.is_space c); [|exact H].
  apply IH. exact (single_spaced_tail c l H).
Qed.

Lemma starts_clean_trim_start (l : list ascii) : starts_clean (Str.trim_start l) = true.
Proof.
  induction l as [|c l IH]; [reflexivity|].
  cbn [Str.trim_start]. destruct (Str.is_space c) eqn:E; [exact IH|].
  cbn [starts_clean]. rewrite E. reflexivity.
Qed.

Lemma trim_start_clean (l : list ascii) : starts_clean l = true -> Str.trim_start l = l.
Proof.
  destruct l as [|c l]; [reflexivity|]. cbn [starts_clean Str.trim_start].
  intros H. apply negb_true_iff in H. rewrite H. reflexivity.
Qed.

(** [trim_start] drops a prefix of white space. *)
Lemma trim_start_split (l : list ascii) :
  exists ws, l = ws ++ Str.trim_start l /\ Forall (fun c => Str.is_space c = true) ws.
Proof.
  induction l as [|c l (ws & Hl & Hws)]; [exists []; split; [reflexivity|constructor]|].
  cbn [Str.trim_start]. destruct (Str.is_space c) eqn:E.
  - exists (c :: ws). split; [cbn [app]; f_equal; exact Hl|constructor; assumption].
  - exists []. split; [reflexivity|constructor].
Qed.

(** [trim_end] drops a suffix of white space. *)
Lemma trim_end_split (l : list ascii) :
  exists ws, l = Str.trim_end l ++ ws /\ Forall (fun c => Str.is_space c = true) ws.
Proof.
  unfold Str.trim_end. destruct (trim_start_split (rev l)) as (ws & Hl & Hws).
  exists (rev ws). split.
  - rewrite <- rev_app_distr, <- Hl, rev_involutive. reflexivity.
  - apply Forall_rev. exact Hws.
Qed.

Lemma last_rev (l : list ascii) : last (rev l) = head l.
Proof. destruct l as [|c l]; [reflexivity|]. cbn [rev head]. apply last_snoc. Qed.

Lemma ends_clean_trim_end (l : list ascii) : ends_clean (Str.trim_end l) = true.
Proof.
  unfold ends_clean, Str.trim_end. rewrite last_rev.
  pose proof (starts_clean_trim_start (rev l)) as H.
  destruct (Str.trim_start (rev l)); [reflexivity|exact H].
Qed.

Lemma trim_end_clean (l : list ascii) : ends_clean l = true -> Str.trim_end l = l.
Proof.
  intros H. unfold Str.trim_end. rewrite trim_start_clean; [apply rev_involutive|].
  unfold ends_clean in H. rewrite <- (rev_involutive l), last_rev in H.
  destruct (rev l); [reflexivity|exact H].
Qed.

Lemma single_spaced_prefix (l ws : list ascii) :
  single_spaced (l ++ ws) = true -> single_spaced l = true.
Proof.
  induction l as [|c l IH]; [reflexivity|].
  cbn [app single_spaced]. intros H. apply andb_true_iff in H as [Hc Hl].
  rewrite (IH Hl), andb_true_r.
  destruct (Str.is_space c); [|reflexivity].
  apply andb_true_iff in Hc as [Hsp Hnext]. rewrite Hsp. cbn [andb].
  destruct l as [|d l']; [reflexivity|exact Hnext].
Qed.

Lemma single_spaced_trim_end (l : list ascii) :
  single_spaced l = true -> single_spaced (Str.trim_end l) = true.
Proof.
  intros H. destruct (trim_end_split l) as (ws & Hl & _).
  rewrite Hl in H. exact (single_spaced_prefix _ _ H).
Qed.

Lemma starts_clean_trim_end (l : list ascii) :
  starts_clean l = true -> starts_clean (Str.trim_end l) = true.
Proof.
  intros H. destruct (trim_end_split l) as (ws & Hl & Hws).
  destruct (Str.trim_end l) as [|c t] eqn:E; [reflexivity|].
  rewrite Hl in H. exact H.
Qed.

Lemma normalize_ws_normalized (s : string) : normalized_text (Str.normalize_ws s).
Proof.
  unfold normalized_text, Str.normalize_ws. rewrite chars_of_chars.
  split; [|split].
  - apply single_spaced_trim_end, single_spaced_trim_start, single_spaced_collapse.
  - apply starts_clean_trim_end, starts_clean_trim_start.
  - apply ends_clean_trim_end.
Qed.

Lemma normalize_ws_fixed (s : string) : normalized_text s -> Str.normalize_ws s = s.
Proof.
  intros (Hs & Hb & He). unfold Str.normalize_ws.
  rewrite (collapse_single_spaced _ Hs), (trim_start_clean _ Hb), (trim_end_clean _ He).
  apply of_chars_chars.
Qed.

Lemma normalize_ws_idempotent (s : string) :
  Str.normalize_ws (Str.normalize_ws s) = Str.normalize_ws s.
Proof. apply normalize_ws_fixed, normalize_ws_normalized. Qed.

(** X1. [normalizeSpaces] (and the same normalisation under its other two
    names) returns a text with single spaces as its only white space and
    none at either end, and normalising twice is normalising once. *)
Theorem normalizeSpaces_idempotent (input : string) :
  normalized_text (normalizeSpaces input)
  /\ normalizeSpaces (normalizeSpaces input) = normalizeSpaces input
  /\ normalizeParagraph (normalizeParagraph input) = normalizeParagraph input
  /\ normalizeForDuplicateCheck (normalizeForDuplicateCheck input)
     = normalizeForDuplicateCheck input.
Proof.
  repeat split; try apply normalize_ws_idempotent; apply (normalize_ws_normalized input).
Qed.


(** ** Segmenter: what the paragraphs look like *)

Lemma linesToParagraphs_by_threshold (lines : list Line) :
  exists threshold, linesToParagraphs lines = paragraphs_by_threshold threshold lines.
Proof.
  unfold linesToParagraphs, paragraphs_by_threshold.
  destruct lines as [|first rest]; [exists PrimFloat.zero; reflexivity|].
  set (threshold := PrimFloat.mul _ _). exists threshold.
  pose proof (paragraph_loop_groups threshold rest first [first] []) as H.
  change (join_group [first]) with (line_text first) in H.
  unfold close_paragraph in H.
  destruct (paragraph_loop threshold first rest [] (line_text first)) as [paragraphs current].
  exact H.
Qed.

Lemma split_at_breaks_length (threshold : float) (lines : list Line) :
  forall prev group,
    (length (split_at_breaks threshold prev lines group) <= S (length lines))%nat.
Proof.
  induction lines as [|line rest IH]; intros prev group; cbn [split_at_breaks length]; [lia|].
  destruct (PrimFloat.ltb _ _); cbn [length].
  - specialize (IH line [line]). lia.
  - specialize (IH line (group ++ [line])). lia.
Qed.

Lemma paragraphs_by_threshold_shape (threshold : float) (lines : list Line) :
  Forall (fun p => Str.truthy p = true /\ normalized_text p)
         (paragraphs_by_threshold threshold lines)
  /\ (length (paragraphs_by_threshold threshold lines) <= length lines)%nat.
Proof.
  unfold paragraphs_by_threshold. destruct lines as [|first rest].
  - split; [constructor|reflexivity].
  - split.
    + apply Forall_forall. intros p Hp.
      apply list_elem_of_filter in Hp as [Ht Hp]. split; [exact Ht|].
      apply list_elem_of_fmap in Hp as (group & -> & _).
      apply normalize_ws_normalized.
    + etransitivity; [apply length_filter|]. rewrite length_map.
      pose proof (split_at_breaks_length threshold rest first [first]). cbn [length]. lia.
Qed.

(** X2. Every paragraph [linesToParagraphs] returns is a non-empty
    normalised text, and there are at most as many paragraphs as lines. *)
Theorem linesToParagraphs_shape (lines : list Line) :
  Forall (fun p => Str.truthy p = true /\ normalized_text p) (linesToParagraphs lines)
  /\ (length (linesToParagraphs lines) <= length lines)%nat.
Proof.
  destruct (linesToParagraphs_by_threshold lines) as (threshold & ->).
  apply paragraphs_by_threshold_shape.
Qed.

(** ** Settings *)

Lemma Qle_bool_inject (a b : Z) : Qle_bool (inject_Z a) (inject_Z b) = (a <=? b).
Proof.
  destruct (a <=? b) eqn:E.
  - apply Qle_bool_iff. rewrite <- Zle_Qle. apply Z.leb_le. exact E.
  - destruct (Qle_bool (inject_Z a) (inject_Z b)) eqn:E'; [|reflexivity].
    apply Qle_bool_iff in E'. rewrite <- Zle_Qle in E'. apply Z.leb_le in E'. congruence.
Qed.

Lemma floor_clamp_between (value : Q) (lo hi : Z) :
  lo <= hi ->
  integer_between lo hi (Math_floor (clamp value (inject_Z lo) (inject_Z hi))).
Proof.
  intros Hle. unfold integer_between, Math_floor, clamp, Qmin', Qmax'.
  eexists. split; [reflexivity|].
  destruct (Qle_bool (inject_Z lo) value) eqn:E1.
  - destruct (Qle_bool (inject_Z hi) value) eqn:E2.
    + rewrite Qfloor_Z. lia.
    + apply Qle_bool_iff in E1.
      assert (E3 : (value < inject_Z hi)%Q).
      { apply Qnot_le_lt. intros H. apply Qle_bool_iff in H. congruence. }
      split.
      * rewrite <- (Qfloor_Z lo). apply Qfloor_resp_le. exact E1.
      * rewrite <- (Qfloor_Z hi). apply Qfloor_resp_le. apply Qlt_le_weak. exact E3.
  - rewrite Qle_bool_inject. destruct (hi <=? lo) eqn:E2; rewrite Qfloor_Z.
    + apply Z.leb_le in E2. lia.
    + lia.
Qed.

Lemma floor_clamp_fixed (z lo hi : Z) :
  lo <= z <= hi ->
  Math_floor (clamp (inject_Z z) (inject_Z lo) (inject_Z hi)) = inject_Z z.
Proof.
  intros [Hlo Hhi]. unfold Math_floor, clamp, Qmin', Qmax'.
  rewrite (Qle_bool_inject lo z). apply Z.leb_le in Hlo. rewrite Hlo.
  rewrite (Qle_bool_inject hi z). destruct (hi <=? z) eqn:E.
  - apply Z.leb_le in E. assert (z = hi) by lia. subst. rewrite Qfloor_Z. reflexivity.
  - rewrite Qfloor_Z. reflexivity.
Qed.

Lemma sanitizeQualitySettings_fixed (input : option PartialQualitySettings) :
  sanitizeQualitySettings (Some (as_partial (sanitizeQualitySettings input)))
  = sanitizeQualitySettings input.
Proof.
  set (quality := sanitizeQualitySettings input).
  assert (Hw : integer_between 1 100 (minWordsPerParagraph quality))
    by (apply (floor_clamp_between _ 1 100); lia).
  assert (Ha : integer_between 1 600 (minAlphaCharsPerParagraph quality))
    by (apply (floor_clamp_between _ 1 600); lia).
  assert (Hs : integer_between 1 200 (shortParagraphWordThreshold quality))
    by (apply (floor_clamp_between _ 1 200); lia).
  destruct Hw as (w & Ew & Hw), Ha as (a & Ea & Ha), Hs as (s & Es & Hs).
  unfold sanitizeQualitySettings at 1. cbn [mbind option_bind as_partial
    in_minWordsPerParagraph in_minAlphaCharsPerParagraph in_shortParagraphWordThreshold
    in_requireSentenceTerminatorForShortParagraphs toFiniteNumber default].
  rewrite Ew, Ea, Es.
  unfold id.
  rewrite (floor_clamp_fixed w 1 100 Hw
             : Math_floor (clamp (inject_Z w) 1%Q 100%Q) = inject_Z w).
  rewrite (floor_clamp_fixed a 1 600 Ha
             : Math_floor (clamp (inject_Z a) 1%Q 600%Q) = inject_Z a).
  rewrite (floor_clamp_fixed s 1 200 Hs
             : Math_floor (clamp (inject_Z s) 1%Q 200%Q) = inject_Z s).
  rewrite <- Ew, <- Ea, <- Es. destruct quality; reflexivity.
Qed.


(** ** Chunker: chunks are as full as they can be *)

Lemma greedy_snoc (maxChars : Z) (l : list (list ParagraphCandidate))
    (chunk next : list ParagraphCandidate) :
  greedy maxChars (l ++ [chunk]) ->
  did_not_fit maxChars chunk next ->
  greedy maxChars (l ++ [chunk; next]).
Proof.
  induction l as [|c l IH]; intros Hg Hfit.
  - cbn. split; [exact Hfit|exact I].
  - destruct l as [|c' l'].
    + cbn in *. destruct Hg as [H _]. repeat split; assumption.
    + change ((c :: c' :: l') ++ [chunk; next]) with (c :: (c' :: l') ++ [chunk; next]).
      change ((c :: c' :: l') ++ [chunk]) with (c :: (c' :: l') ++ [chunk]) in Hg.
      cbn [greedy app] in *. destruct Hg as [H Hg]. split; [exact H|].
      apply IH; assumption.
Qed.

(** Growing the last chunk keeps the chunks greedy: what did not fit before
    it is its first paragraph, which stays. *)
Lemma greedy_grow (maxChars : Z) (l : list (list ParagraphCandidate))
    (q p : ParagraphCandidate) (cur : list ParagraphCandidate) :
  greedy maxChars (l ++ [q :: cur]) ->
  greedy maxChars (l ++ [(q :: cur) ++ [p]]).
Proof.
  induction l as [|c l IH]; intros Hg; [exact I|].
  destruct l as [|c' l'].
  - cbn in *. exact Hg.
  - change ((c :: c' :: l') ++ [(q :: cur) ++ [p]])
      with (c :: (c' :: l') ++ [(q :: cur) ++ [p]]).
    change ((c :: c' :: l') ++ [q :: cur]) with (c :: (c' :: l') ++ [q :: cur]) in Hg.
    cbn [greedy app] in *. destruct Hg as [H Hg]. split; [exact H|].
    apply IH. exact Hg.
Qed.

(** The invariant of the loop for greediness; the open chunk is empty at
    the start only. *)
Lemma chunk_step_greedy (maxChars : Z) (st : chunkState) (p : ParagraphCandidate) :
  (currentChunk st = [] -> chunks st = []) ->
  currentLength st = chunkSize (currentChunk st) ->
  greedy maxChars (all_chunks st) ->
  let st' := chunk_step maxChars st p in
  (currentChunk st' = [] -> chunks st' = [])
  /\ currentLength st' = chunkSize (currentChunk st')
  /\ greedy maxChars (all_chunks st').
Proof.
  intros Hinit Hlen Hg. unfold chunk_step, all_chunks in *.
  destruct (currentChunk st) as [|q cur] eqn:Ecur.
  - cbn [length Nat.ltb Nat.leb andb chunks currentChunk currentLength].
    rewrite Ecur, (Hinit eq_refl). cbn [app].
    split; [discriminate|]. split; [|exact I].
    rewrite Hlen, chunkSize_single. cbn [chunkSize foldr]. lia.
  - cbn [length Nat.ltb Nat.leb andb].
    destruct (maxChars <? currentLength st + serializedLength p) eqn:Eover;
      cbn [chunks currentChunk currentLength].
    + cbn [app]. split; [discriminate|]. split; [rewrite chunkSize_single; lia|].
      rewrite <- app_assoc. cbn [app]. apply greedy_snoc; [exact Hg|].
      apply Z.ltb_lt in Eover. cbn [did_not_fit]. rewrite <- Hlen. exact Eover.
    + rewrite Ecur. split; [discriminate|].
      split; [rewrite Hlen, chunkSize_app, chunkSize_single; reflexivity|].
      cbn [app]. apply (greedy_grow maxChars (chunks st) q p cur). exact Hg.
Qed.

Lemma chunk_loop_greedy (maxChars : Z) (paragraphs : list ParagraphCandidate) :
  forall st,
    (currentChunk st = [] -> chunks st = []) ->
    currentLength st = chunkSize (currentChunk st) ->
    greedy maxChars (all_chunks st) ->
    greedy maxChars (all_chunks (chunk_loop maxChars paragraphs st)).
Proof.
  induction paragraphs as [|p rest IH]; intros st Hinit Hlen Hg; [exact Hg|].
  cbn [chunk_loop].
  destruct (chunk_step_greedy maxChars st p Hinit Hlen Hg) as (H1 & H2 & H3).
  apply IH; assumption.
Qed.

Lemma chunkParagraphsWith_all_chunks (paragraphs : list ParagraphCandidate) (maxChars : Z) :
  chunkParagraphsWith paragraphs maxChars
  = all_chunks (chunk_loop maxChars paragraphs
                  {| chunks := []; currentChunk := []; currentLength := 0 |}).
Proof.
  unfold chunkParagraphsWith, all_chunks.
  destruct (currentChunk _); reflexivity.
Qed.

Lemma greedy_adjacent (maxChars : Z) (before : list (list ParagraphCandidate)) :
  forall chunk next after,
    greedy maxChars (before ++ chunk :: next :: after) ->
    did_not_fit maxChars chunk next.
Proof.
  induction before as [|c l IH]; intros chunk next after Hg.
  - cbn in Hg. exact (proj1 Hg).
  - destruct l as [|c' l'].
    + cbn in Hg. apply (IH chunk next after). exact (proj2 Hg).
    + change ((c :: c' :: l') ++ chunk :: next :: after)
        with (c :: (c' :: l') ++ chunk :: next :: after) in Hg.
      cbn [greedy app] in Hg. apply (IH chunk next after). exact (proj2 Hg).
Qed.

(** X4. Chunking is greedy for every budget: wherever a chunk is followed
    by another, the first paragraph of the next one did not fit into it. *)
Theorem chunkParagraphsWith_greedy (paragraphs : list ParagraphCandidate) (maxChars : Z)
    (before after : list (list ParagraphCandidate)) (chunk next : list ParagraphCandidate) :
  chunkParagraphsWith paragraphs maxChars = before ++ chunk :: next :: after ->
  exists paragraph rest,
    next = paragraph :: rest
    /\ maxChars < chunkSize chunk + serializedLength paragraph.
Proof.
  intros Heq.
  assert (Hg : greedy maxChars (chunkParagraphsWith paragraphs maxChars)).
  { rewrite chunkParagraphsWith_all_chunks.
    apply chunk_loop_greedy; [reflexivity|reflexivity|exact I]. }
  rewrite Heq in Hg. apply greedy_adjacent in Hg.
  destruct next as [|paragraph rest]; [contradiction|].
  exists paragraph, rest. split; [reflexivity|exact Hg].
Qed.

(** Two paragraphs of estimated sizes 125 and 190 under a budget of 200. *)
Lemma chunkParagraphsWith_greedy_witness :
  exists paragraph rest,
    [candidate "p1-2" 1 long_text] = paragraph :: rest
    /\ 200 < chunkSize [candidate "p1-1" 1 "short"] + serializedLength paragraph.
Proof.
  apply (chunkParagraphsWith_greedy
           [candidate "p1-1" 1 "short"; candidate "p1-2" 1 long_text] 200 [] []).
  reflexivity.
Defined.

(** ** Row assembler: what survives *)

Lemma text_keys_cons (row : ExtractionRow) (rows : list ExtractionRow) :
  text_keys (row :: rows)
  = (if Str.truthy (row_key row) then [row_key row] else []) ++ text_keys rows.
Proof.
  unfold text_keys. cbn [map]. destruct (Str.truthy (row_key row)) eqn:E.
  - rewrite filter_cons_True by exact E. reflexivity.
  - rewrite filter_cons_False by (rewrite E; discriminate). reflexivity.
Qed.

Lemma blank_rows_cons (row : ExtractionRow) (rows : list ExtractionRow) :
  blank_rows (row :: rows)
  = (if Str.truthy (row_key row) then [] else [row]) ++ blank_rows rows.
Proof.
  unfold blank_rows. destruct (Str.truthy (row_key row)) eqn:E.
  - rewrite filter_cons_False by (rewrite E; discriminate). reflexivity.
  - rewrite filter_cons_True by exact E. reflexivity.
Qed.

(** The keys kept are new, pairwise distinct, and the blank rows all stay. *)
Lemma dedupe_loop_keys (rows : list ExtractionRow) : forall seen : gset string,
  NoDup (text_keys (dedupe_loop rows seen))
  /\ (forall key, key ∈ text_keys (dedupe_loop rows seen) -> key ∉ seen)
  /\ blank_rows (dedupe_loop rows seen) = blank_rows rows.
Proof.
  induction rows as [|row rest IH]; intros seen.
  - split; [constructor|]. split; [|reflexivity].
    intros key H. apply elem_of_nil in H. contradiction.
  - cbn [dedupe_loop]. destruct (Str.truthy (row_key row)) eqn:Ekey; cbn [negb].
    + destruct (decide (row_key row ∈ seen)) as [Hseen|Hnew].
      * destruct (IH seen) as (Hnd & Hout & Hblank).
        split; [exact Hnd|]. split; [exact Hout|].
        rewrite blank_rows_cons, Ekey. exact Hblank.
      * destruct (IH ({[row_key row]} ∪ seen)) as (Hnd & Hout & Hblank).
        rewrite text_keys_cons, Ekey. cbn [app].
        split; [|split].
        -- constructor; [|exact Hnd]. intros Hin. apply (Hout _ Hin).
           apply elem_of_union. left. apply elem_of_singleton. reflexivity.
        -- intros key Hin. apply elem_of_cons in Hin as [->|Hin]; [exact Hnew|].
           intros Hs. apply (Hout _ Hin). apply elem_of_union. right. exact Hs.
        -- rewrite !blank_rows_cons, Ekey. exact Hblank.
    + destruct (IH seen) as (Hnd & Hout & Hblank).
      rewrite text_keys_cons, Ekey. cbn [app].
      split; [exact Hnd|]. split; [exact Hout|].
      rewrite !blank_rows_cons, Ekey. cbn [app]. f_equal. exact Hblank.
Qed.

Lemma text_keys_imap (rows : list ExtractionRow) :
  text_keys (imap with_index rows) = text_keys rows.
Proof.
  unfold text_keys. f_equal. apply (map_row_key_imap rows (fun i => i)).
Qed.

Lemma length_blank_rows_imap (rows : list ExtractionRow) : forall f : nat -> nat,
  length (blank_rows (imap (fun i => with_index (f i)) rows)) = length (blank_rows rows).
Proof.
  induction rows as [|row rest IH]; intros f; [reflexivity|].
  cbn [imap]. rewrite !blank_rows_cons, row_key_with_index, !length_app.
  f_equal; [destruct (Str.truthy (row_key row)); reflexivity|].
  apply (IH (f ∘ S)).
Qed.

(** X5. After de-duplication no two rows have the same non-empty
    normalised paragraph, every text of the input is still the text of a
    row, the rows without a text are all kept, and no row is added. *)
Theorem dedupeRowsWithinPdf_distinct (rows : list ExtractionRow) :
  NoDup (text_keys (dedupeRowsWithinPdf rows))
  /\ length (blank_rows (dedupeRowsWithinPdf rows)) = length (blank_rows rows)
  /\ (length (dedupeRowsWithinPdf rows) <= length rows)%nat
  /\ (forall key, key ∈ text_keys rows -> key ∈ text_keys (dedupeRowsWithinPdf rows)).
Proof.
  unfold dedupeRowsWithinPdf.
  destruct (dedupe_loop_keys rows ∅) as (Hnd & _ & Hblank).
  split; [rewrite text_keys_imap; exact Hnd|].
  split; [rewrite (length_blank_rows_imap _ (fun i => i)), Hblank; reflexivity|].
  split; [rewrite length_imap; apply dedupe_loop_length|].
  intros key Hkey. rewrite text_keys_imap.
  unfold text_keys in *. apply list_elem_of_filter in Hkey as [Ht Hkey].
  apply list_elem_of_fmap in Hkey as (row & -> & Hrow).
  apply list_elem_of_filter. split; [exact Ht|].
  destruct (dedupe_loop_covers rows ∅ row Hrow) as [H|(_ & [H|(r' & H & Hk)])].
  - apply list_elem_of_fmap. exists row. split; [reflexivity|exact H].
  - exfalso. exact (not_elem_of_empty _ H).
  - apply list_elem_of_fmap. exists r'. split; [symmetry; exact Hk|exact H].
Qed.

(** ** Text filter: what the model can and cannot make of a chunk *)

Lemma map_of_entries_lookup {V : Type} (entries : list (string * V)) (k : string) (v : V) :
  map_of_entries entries !! k = Some v -> (k, v) ∈ entries.
Proof.
  unfold map_of_entries.
  assert (H : forall m : gmap string V,
             fold_left (fun m entry => <[entry.1 := entry.2]> m) entries m !! k = Some v ->
             (k, v) ∈ entries \/ m !! k = Some v).
  { induction entries as [|[k' v'] rest IH]; intros m Hm; cbn [fold_left] in Hm.
    - right. exact Hm.
    - destruct (IH _ Hm) as [Hin|Hlook].
      + left. apply elem_of_cons. right. exact Hin.
      + cbn [fst snd] in Hlook. destruct (decide (k' = k)) as [->|Hne].
        * rewrite lookup_insert_eq in Hlook. injection Hlook as ->.
          left. apply elem_of_cons. left. reflexivity.
        * rewrite lookup_insert_ne in Hlook by exact Hne. right. exact Hlook. }
  intros Hm. destruct (H ∅ Hm) as [Hin|Hempty]; [exact Hin|].
  rewrite lookup_empty in Hempty. discriminate.
Qed.

Lemma map_of_entries_size {V : Type} (entries : list (string * V)) :
  (size (dom (map_of_entries entries)) <= length entries)%nat.
Proof.
  unfold map_of_entries.
  assert (H : forall m : gmap string V,
             (size (dom (fold_left (fun m entry => <[entry.1 := entry.2]> m) entries m))
              <= size (dom m) + length entries)%nat).
  { induction entries as [|[k' v'] rest IH]; intros m; cbn [fold_left length]; [lia|].
    etransitivity; [apply IH|]. cbn [fst snd]. rewrite dom_insert_L.
    rewrite size_union_alt, size_singleton.
    pose proof (subseteq_size (dom m ∖ {[k']}) (dom m)) as Hsub.
    assert (dom m ∖ {[k']} ⊆ dom m) as Hd by (apply subseteq_difference_l; reflexivity).
    specialize (Hsub Hd). lia. }
  specialize (H ∅). rewrite dom_empty_L, size_empty in H. exact H.
Qed.

Lemma keep_loop_rows pdfName quality (chunk : list ParagraphCandidate)
    (candidateMap : gmap string ParagraphCandidate) (keeps : list KeepDecision) :
  (forall id candidate, candidateMap !! id = Some candidate -> candidate ∈ chunk) ->
  forall used,
    Forall (row_of_chunk pdfName quality chunk)
           (keep_loop pdfName quality candidateMap keeps used).
Proof.
  intros Hmap. induction keeps as [|keep rest IH]; intros used; cbn [keep_loop]; [constructor|].
  destruct (candidateMap !! kd_id keep) as [candidate|] eqn:Elook; [|apply IH].
  destruct (decide (kd_id keep ∈ used)); [apply IH|].
  destruct (isLikelyCodingParagraph (pc_text candidate) quality) eqn:Egate; cbn [negb];
    [|apply IH].
  constructor; [|apply IH].
  exists candidate. cbn. repeat split; [exact (Hmap _ _ Elook)|exact Egate].
Qed.

Lemma keep_loop_length pdfName quality (candidateMap : gmap string ParagraphCandidate)
    (keeps : list KeepDecision) :
  forall used : gset string,
    (length (keep_loop pdfName quality candidateMap keeps used)
     <= size (dom candidateMap ∖ used))%nat.
Proof.
  induction keeps as [|keep rest IH]; intros used; cbn [keep_loop]; [cbn; lia|].
  destruct (candidateMap !! kd_id keep) as [candidate|] eqn:Elook; [|apply IH].
  destruct (decide (kd_id keep ∈ used)) as [|Hnew]; [apply IH|].
  destruct (negb (isLikelyCodingParagraph (pc_text candidate) quality)); [apply IH|].
  cbn [length]. specialize (IH ({[kd_id keep]} ∪ used)).
  assert (Hsplit : dom candidateMap ∖ used
                   = {[kd_id keep]} ∪ dom candidateMap ∖ ({[kd_id keep]} ∪ used)).
  { apply set_eq. intros x. rewrite elem_of_union, !elem_of_difference, elem_of_union,
      elem_of_singleton. split.
    - intros [Hd Hu]. destruct (decide (x = kd_id keep)) as [->|Hne]; [left; reflexivity|].
      right. split; [exact Hd|]. intros [H|H]; contradiction.
    - intros [->|[Hd Hu]].
      + split; [apply elem_of_dom; eexists; exact Elook|exact Hnew].
      + split; [exact Hd|]. intros H. apply Hu. right. exact H. }
  rewrite Hsplit, size_union, size_singleton; [lia|].
  intros x Hx Hd. apply elem_of_singleton in Hx. subst x.
  apply elem_of_difference in Hd as [_ Hd]. apply Hd.
  apply elem_of_union. left. apply elem_of_singleton. reflexivity.
Qed.

Lemma textFilterRows_of_chunk (pdfName : string) (quality : ExtractionQualitySettings)
    (chunk : list ParagraphCandidate) (decision : ChunkDecision) :
  Forall (row_of_chunk pdfName quality chunk)
         (textFilterRows pdfName quality chunk decision).
Proof.
  unfold textFilterRows. apply keep_loop_rows. intros id c Hc.
  apply map_of_entries_lookup in Hc. apply list_elem_of_fmap in Hc as (c' & Heq & Hin).
  injection Heq as _ ->. exact Hin.
Qed.

Lemma textFilterRows_at_most_chunk (pdfName : string) (quality : ExtractionQualitySettings)
    (chunk : list ParagraphCandidate) (decision : ChunkDecision) :
  (length (textFilterRows pdfName quality chunk decision) <= length chunk)%nat.
Proof.
  unfold textFilterRows.
  etransitivity; [apply keep_loop_length|].
  etransitivity; [apply subseteq_size, subseteq_difference_l; reflexivity|].
  etransitivity; [apply map_of_entries_size|]. rewrite length_map. reflexivity.
Qed.

(** X6. Whatever decision the model returns for a chunk, every row made of
    it carries the text and the page of a candidate of that chunk that
    passes the quality gate, and there are at most as many rows as
    candidates and as kept entries. *)
Theorem textFilterRows_from_chunk (pdfName : string) (quality : ExtractionQualitySettings)
    (chunk : list ParagraphCandidate) (decision : ChunkDecision) :
  Forall (row_of_chunk pdfName quality chunk)
         (textFilterRows pdfName quality chunk decision)
  /\ (length (textFilterRows pdfName quality chunk decision) <= length chunk)%nat
  /\ (length (textFilterRows pdfName quality chunk decision)
      <= length (cd_keep decision))%nat.
Proof.
  split; [apply textFilterRows_of_chunk|].
  split; [apply textFilterRows_at_most_chunk|].
  unfold textFilterRows.
  generalize (∅ : gset string).
  generalize (map_of_entries (map (fun item => (pc_id item, item)) chunk)).
  induction (cd_keep decision) as [|keep rest IH]; intros m used; cbn [keep_loop length];
    [lia|].
  destruct (m !! kd_id keep) as [c|]; [|specialize (IH m used); lia].
  destruct (decide (kd_id keep ∈ used)); [specialize (IH m used); lia|].
  destruct (negb (isLikelyCodingParagraph (pc_text c) quality));
    [specialize (IH m used); lia|].
  cbn [length]. specialize (IH m ({[kd_id keep]} ∪ used)). lia.
Qed.

(** ** Repeat filter *)

Lemma pages_of_cons (key : string) (c : ParagraphCandidate) (rest : list ParagraphCandidate) :
  pages_of key (c :: rest)
  = (if decide (candidate_key c = key) then {[pc_pageNumber c]} else ∅) ∪ pages_of key rest.
Proof.
  unfold pages_of. destruct (decide (candidate_key c = key)) as [E|E].
  - rewrite filter_cons_True by exact E. reflexivity.
  - rewrite filter_cons_False by exact E. rewrite union_empty_l_L. reflexivity.
Qed.

(** What the first loop has collected for a key. *)
Lemma collect_pages_lookup (candidates : list ParagraphCandidate) :
  forall (keyToPages : gmap string (gset Z)) (key : string),
    default ∅ (collect_pages candidates keyToPages !! key)
    = default ∅ (keyToPages !! key)
      ∪ (if string_length key <? 8 then ∅ else pages_of key candidates).
Proof.
  induction candidates as [|c rest IH]; intros m key; cbn [collect_pages].
  - destruct (string_length key <? 8); [rewrite union_empty_r_L; reflexivity|].
    unfold pages_of. cbn. rewrite union_empty_r_L. reflexivity.
  - fold (candidate_key c). destruct (string_length (candidate_key c) <? 8) eqn:Eshort.
    + rewrite IH. destruct (string_length key <? 8) eqn:Ekey; [reflexivity|].
      rewrite pages_of_cons. destruct (decide (candidate_key c = key)) as [E|E].
      * rewrite E in Eshort. congruence.
      * rewrite union_empty_l_L. reflexivity.
    + rewrite IH. rewrite pages_of_cons.
      destruct (decide (candidate_key c = key)) as [E|E].
      * subst key. rewrite lookup_insert_eq, Eshort. cbn [default from_option id].
        unfold id. apply set_eq. intros x. rewrite !elem_of_union. tauto.
      * rewrite lookup_insert_ne by exact E. rewrite union_empty_l_L. reflexivity.
Qed.

Lemma repeatedAcrossPages_key (candidates : list ParagraphCandidate) (c : ParagraphCandidate) :
  repeatedAcrossPages (collect_pages candidates ∅) c
  = repeated_key candidates (candidate_key c).
Proof.
  unfold repeatedAcrossPages, repeated_key. fold (candidate_key c).
  pose proof (collect_pages_lookup candidates ∅ (candidate_key c)) as H.
  rewrite lookup_empty in H. cbn [default from_option] in H. rewrite union_empty_l_L in H.
  destruct (collect_pages candidates ∅ !! candidate_key c) as [pageSet|] eqn:E;
    cbn [default from_option] in H; unfold id in H.
  - destruct (string_length (candidate_key c) <? 8) eqn:Eshort.
    + subst pageSet. rewrite size_empty. apply Z.ltb_lt in Eshort.
      assert (E8 : (8 <=? string_length (candidate_key c)) = false) by (apply Z.leb_gt; lia).
      rewrite E8. reflexivity.
    + subst pageSet. apply Z.ltb_ge in Eshort. apply Z.leb_le in Eshort.
      rewrite Eshort. reflexivity.
  - destruct (string_length (candidate_key c) <? 8) eqn:Eshort.
    + apply Z.ltb_lt in Eshort.
      assert (E8 : (8 <=? string_length (candidate_key c)) = false) by (apply Z.leb_gt; lia).
      rewrite E8. reflexivity.
    + rewrite <- H, size_empty. cbn. rewrite andb_false_r. reflexivity.
Qed.

Lemma repeat_loop_filter (candidates all : list ParagraphCandidate) :
  forall removedByRepeat kept,
    repeat_loop (collect_pages all ∅) candidates removedByRepeat kept
    = ((removedByRepeat
        + (length candidates
           - length (filter (fun c => repeated_key all (candidate_key c) = false) candidates)))%nat,
       kept ++ filter (fun c => repeated_key all (candidate_key c) = false) candidates).
Proof.
  induction candidates as [|c rest IH]; intros n kept; cbn [repeat_loop].
  - rewrite app_nil_r. cbn. f_equal; lia.
  - rewrite repeatedAcrossPages_key.
    pose proof (length_filter (fun c => repeated_key all (candidate_key c) = false) rest) as Hle.
    destruct (repeated_key all (candidate_key c)) eqn:E.
    + rewrite IH. rewrite filter_cons_False by (rewrite E; discriminate).
      f_equal; cbn [length]; lia.
    + rewrite IH. rewrite filter_cons_True by exact E.
      rewrite <- app_assoc. f_equal; cbn [length]; lia.
Qed.

Lemma removeGlobalRepeats_filter (candidates : list ParagraphCandidate) :
  removeGlobalRepeats candidates
  = {| rf_paragraphs := kept_candidates candidates;
       rf_warnings :=
         let removed := (length candidates - length (kept_candidates candidates))%nat in
         if (0 <? removed)%nat
         then ["Removed " +:+ Str.string_of_nat removed
               +:+ " repeated short paragraphs likely to be template/header/footer text."]
         else [] |}.
Proof.
  unfold removeGlobalRepeats. rewrite repeat_loop_filter. reflexivity.
Qed.

Lemma pages_of_kept (candidates : list ParagraphCandidate) (key : string) :
  repeated_key candidates key = false ->
  pages_of key (kept_candidates candidates) = pages_of key candidates.
Proof.
  intros Hkey. unfold pages_of, kept_candidates. f_equal. f_equal.
  rewrite list_filter_filter. apply list_filter_iff. intros c. split.
  - intros [H _]. exact H.
  - intros H. split; [exact H|]. rewrite H. exact Hkey.
Qed.

Lemma repeated_key_kept (candidates : list ParagraphCandidate) (key : string) :
  repeated_key candidates key = false ->
  repeated_key (kept_candidates candidates) key = false.
Proof.
  intros Hkey. unfold repeated_key in *. rewrite (pages_of_kept _ _ Hkey). exact Hkey.
Qed.

Lemma filter_all {A : Type} (P : A -> Prop) `{forall x, Decision (P x)} (l : list A) :
  Forall P l -> filter P l = l.
Proof.
  induction 1 as [|x l Hx _ IH]; [reflexivity|].
  rewrite filter_cons_True by exact Hx. f_equal. exact IH.
Qed.

Lemma filter_full_length {A : Type} (P : A -> Prop) `{forall x, Decision (P x)} (l : list A) :
  (length l <= length (filter P l))%nat -> filter P l = l.
Proof.
  induction l as [|x l IH]; [reflexivity|]. intros Hlen.
  pose proof (length_filter P l) as Hle.
  destruct (decide (P x)) as [Hx|Hx].
  - rewrite filter_cons_True in * by exact Hx. f_equal. apply IH. cbn [length] in Hlen. lia.
  - rewrite filter_cons_False in Hlen by exact Hx. cbn [length] in Hlen. lia.
Qed.

Lemma kept_candidates_idempotent (candidates : list ParagraphCandidate) :
  kept_candidates (kept_candidates candidates) = kept_candidates candidates.
Proof.
  unfold kept_candidates at 1. apply filter_all. apply Forall_forall. intros c Hc.
  apply repeated_key_kept. unfold kept_candidates in Hc.
  apply list_elem_of_filter in Hc as [Hc _]. exact Hc.
Qed.

(** X7. [removeGlobalRepeats] removes exactly the candidates whose
    normalised text has 8 to 219 characters, does not end in [.], [!] or
    [?], and occurs on three distinct pages or more; the others are kept in
    their order, and a warning is given exactly when something was
    removed. *)
Theorem removeGlobalRepeats_characterised (candidates : list ParagraphCandidate) :
  rf_paragraphs (removeGlobalRepeats candidates)
  = filter (fun c => repeated_key candidates (candidate_key c) = false) candidates
  /\ rf_paragraphs (removeGlobalRepeats candidates) `sublist_of` candidates
  /\ (rf_warnings (removeGlobalRepeats candidates) = [] <->
      rf_paragraphs (removeGlobalRepeats candidates) = candidates).
Proof.
  rewrite removeGlobalRepeats_filter. cbn [rf_paragraphs rf_warnings].
  split; [reflexivity|]. split; [apply sublist_filter|].
  unfold kept_candidates.
  pose proof (length_filter (fun c => repeated_key candidates (candidate_key c) = false)
                candidates) as Hle.
  destruct (0 <? _)%nat eqn:E.
  - apply Nat.ltb_lt in E. split; [discriminate|].
    intros Heq. rewrite Heq in E. lia.
  - apply Nat.ltb_ge in E. split; [intros _|reflexivity].
    apply filter_full_length. lia.
Qed.

(** X8. Filtering the kept candidates again removes nothing and warns of
    nothing. *)
Theorem removeGlobalRepeats_idempotent (candidates : list ParagraphCandidate) :
  removeGlobalRepeats (rf_paragraphs (removeGlobalRepeats candidates))
  = {| rf_paragraphs := rf_paragraphs (removeGlobalRepeats candidates);
       rf_warnings := [] |}.
Proof.
  rewrite (removeGlobalRepeats_filter candidates). cbn [rf_paragraphs].
  rewrite removeGlobalRepeats_filter, kept_candidates_idempotent.
  cbn zeta. rewrite Nat.sub_diag. reflexivity.
Qed.


(** ** Retry runtime: every run *)

Section Retry.

Context {T : Type}.
Variable operation : nat -> res T.
Variable random : nat -> Q.
Variable options : RetryOptions.

Lemma retry_loop_spec (remaining : nat) : forall attempt sleeps,
  let run := retry_loop operation random options attempt remaining sleeps in
  exists n,
    (n <= remaining)%nat
    /\ run_sleeps run = sleeps ++ map (backoff random options) (seq attempt n)
    /\ (forall k, (attempt <= k < attempt + n)%nat -> failed_transiently operation k)
    /\ ended_at operation run (attempt + n) (n = remaining).
Proof.
  induction remaining as [|remaining IH]; intros attempt sleeps run; subst run.
  - exists 0%nat. cbn [retry_loop seq map]. rewrite app_nil_r, Nat.add_0_r.
    split; [lia|].
    destruct (signal_aborted options attempt).
    { split; [reflexivity|]. split; [intros k Hk; lia|]. left. split; reflexivity. }
    destruct (operation attempt) as [value|e] eqn:Eop.
    { split; [reflexivity|]. split; [intros k Hk; lia|]. right. left. exists value. repeat split. exact Eop. }
    split; [reflexivity|]. split; [intros k Hk; lia|]. right. right. exists e.
    repeat split; [exact Eop|]. left. reflexivity.
  - cbn [retry_loop].
    destruct (signal_aborted options attempt).
    { exists 0%nat. cbn [seq map]. rewrite app_nil_r, Nat.add_0_r.
      split; [lia|]. split; [reflexivity|]. split; [intros k Hk; lia|]. left. split; reflexivity. }
    destruct (operation attempt) as [value|e] eqn:Eop.
    { exists 0%nat. cbn [seq map]. rewrite app_nil_r, Nat.add_0_r.
      split; [lia|]. split; [reflexivity|]. split; [intros k Hk; lia|].
      right. left. exists value. repeat split. exact Eop. }
    destruct (isTransientError e) eqn:Etransient; cbn [negb].
    + destruct (sleep_rejected options attempt).
      * exists 1%nat. cbn [seq map run_sleeps run_result run_calls].
        split; [lia|]. split; [reflexivity|]. split.
        -- intros k Hk. assert (k = attempt) by lia. subst k. exists e. split; assumption.
        -- left. split; [reflexivity|cbn [run_calls]; lia].
      * destruct (IH (S attempt) (sleeps ++ [backoff random options attempt]))
          as (n & Hn & Hsleeps & Hretried & Hend).
        exists (S n). split; [lia|]. split; [|split].
        -- rewrite Hsleeps, <- app_assoc. reflexivity.
        -- intros k Hk. destruct (decide (k = attempt)) as [->|Hne].
           ++ exists e. split; assumption.
           ++ apply Hretried. lia.
        -- replace (attempt + S n)%nat with (S attempt + n)%nat by lia.
           destruct Hend as [H|[H|(e' & H1 & H2 & H3 & H4)]].
           ++ left. exact H.
           ++ right. left. exact H.
           ++ right. right. exists e'. repeat split; try assumption.
              destruct H4 as [H4|H4]; [left; lia|right; exact H4].
    + exists 0%nat. cbn [seq map run_sleeps run_result run_calls].
      rewrite app_nil_r, Nat.add_0_r. split; [lia|].
      split; [reflexivity|]. split; [intros k Hk; lia|]. right. right. exists e.
      repeat split; [exact Eop|]. right. exact Etransient.
Qed.

End Retry.






(** X12. With a base delay of at least 220 ms (the default is 800) and
    random draws in [[0, 1)], the delay before the retry [i + 1] lies in
    [[base * (i + 1), base * (i + 1) + 220)], so the delays of a run grow
    strictly. *)
Theorem withRetries_backoff_grows {T : Type} (operation : nat -> res T) (random : nat -> Q)
    (options : RetryOptions) :
  220 <= default 800 (baseDelayMs options) ->
  (forall k, (0 <= random k < 1)%Q) ->
  let sleeps := run_sleeps (withRetries operation random options) in
  (forall i ms, sleeps !! i = Some ms ->
     let base := default 800 (baseDelayMs options) * (Z.of_nat i + 1) in
     base <= ms < base + 220)
  /\ (forall i ms next, sleeps !! i = Some ms -> sleeps !! S i = Some next -> ms < next).
Proof.
  intros Hbase Hrandom sleeps. subst sleeps. unfold withRetries.
  destruct (retry_loop_spec operation random options
              (Z.to_nat (Z.max 0 (retries options))) 0%nat [])
    as (n & _ & Hsleeps & _).
  cbn [app] in Hsleeps. rewrite Hsleeps.
  assert (Hlookup : forall i ms,
            map (backoff random options) (seq 0 n) !! i = Some ms ->
            ms = backoff random options i).
  { intros i ms H. rewrite list_lookup_fmap in H.
    destruct (seq 0 n !! i) as [k|] eqn:Ek; [|discriminate].
    apply lookup_seq in Ek. destruct Ek as [-> _]. cbn in H. congruence. }
  split.
  - intros i ms H. cbv zeta. rewrite (Hlookup i ms H). unfold backoff.
    pose proof (jitter_range random i (Hrandom i)). lia.
  - intros i ms next H1 H2. rewrite (Hlookup i ms H1), (Hlookup (S i) next H2).
    unfold backoff.
    pose proof (jitter_range random i (Hrandom i)).
    pose proof (jitter_range random (S i) (Hrandom (S i))).
    nia.
Qed.

Lemma withRetries_backoff_grows_witness :
  let sleeps := run_sleeps (withRetries always_unavailable half patient_options) in
  (forall i ms, sleeps !! i = Some ms ->
     let base := default 800 (baseDelayMs patient_options) * (Z.of_nat i + 1) in
     base <= ms < base + 220)
  /\ (forall i ms next, sleeps !! i = Some ms -> sleeps !! S i = Some next -> ms < next).
Proof.
  apply (withRetries_backoff_grows always_unavailable half patient_options).
  - cbn. lia.
  - intros k. split; unfold half; [discriminate|reflexivity].
Defined.

(** ** Layout of the imported rows *)

Lemma insert_file_sorted (f : ExtractionBatchFilePlan) (sorted : list ExtractionBatchFilePlan) :
  StronglySorted by_fileIndex sorted -> StronglySorted by_fileIndex (insert_file f sorted).
Proof.
  induction sorted as [|g rest IH]; intros Hsorted; cbn [insert_file].
  - constructor; [constructor|constructor].
  - apply StronglySorted_inv in Hsorted as [Hrest Hg].
    destruct (fp_fileIndex f - fp_fileIndex g <? 0) eqn:E.
    + apply Z.ltb_lt in E. constructor.
      * constructor; assumption.
      * constructor.
        -- unfold by_fileIndex. lia.
        -- eapply Forall_impl; [exact Hg|]. unfold by_fileIndex. intros h Hh. lia.
    + apply Z.ltb_ge in E. constructor; [apply IH; exact Hrest|].
      rewrite insert_file_perm. constructor; [unfold by_fileIndex; lia|exact Hg].
Qed.

Lemma sort_files_sorted (files : list ExtractionBatchFilePlan) :
  StronglySorted by_fileIndex (sort_files files).
Proof.
  unfold sort_files.
  assert (H : forall acc, StronglySorted by_fileIndex acc ->
                StronglySorted by_fileIndex
                  (fold_left (fun sorted f => insert_file f sorted) files acc)).
  { induction files as [|f rest IH]; intros acc Hacc; cbn [fold_left]; [exact Hacc|].
    apply IH, insert_file_sorted, Hacc. }
  apply H. constructor.
Qed.

Lemma dedupeRowsWithinPdf_numbered (rows : list ExtractionRow) :
  numbered (dedupeRowsWithinPdf rows).
Proof.
  unfold numbered, dedupeRowsWithinPdf. rewrite length_imap.
  apply (paragraph_index_imap _ 0%nat).
Qed.

Lemma dedupeRowsWithinPdf_NoDup (rows : list ExtractionRow) :
  NoDup (text_keys (dedupeRowsWithinPdf rows)).
Proof.
  unfold dedupeRowsWithinPdf.
  destruct (dedupe_loop_keys rows ∅) as (Hnd & _ & _).
  rewrite text_keys_imap. exact Hnd.
Qed.

Lemma rowsForFilePlan_block (JSON_parse : string -> res json)
    (Number_toString : float -> string) manifest outputMap errorMap filePlan :
  file_block filePlan
    (rowsForFilePlan (manifestRows JSON_parse Number_toString manifest outputMap errorMap)
       filePlan).
Proof.
  split; [apply rowsForFilePlan_pdf_name|].
  split; [apply dedupeRowsWithinPdf_numbered|].
  split; [apply dedupeRowsWithinPdf_NoDup|].
  intros Hmode. apply (rowsForFilePlan_vision _ _ Hmode).
Qed.

(** X13. When both result files parse, the rows of an import are the rows
    of the file plans one plan after the other, in ascending order of
    [fileIndex]: each block carries its plan's [pdfName], is numbered from 1,
    holds no text twice and is not empty for a vision plan.  So a row of a
    task whose document has no file plan is never returned. *)
Theorem importOpenAiBatchResultFiles_layout
    (JSON_parse : string -> res json) (Number_toString : float -> string)
    (manifest : OpenAiExtractionBatchManifest) (outputFileText errorFileText : option string)
    (outputMap errorMap : gmap string json) :
  resultMap JSON_parse outputFileText = Ok outputMap ->
  resultMap JSON_parse errorFileText = Ok errorMap ->
  exists sortedFiles blocks,
    importOpenAiBatchResultFiles JSON_parse Number_toString manifest
      outputFileText errorFileText = Ok (concat blocks)
    /\ sortedFiles ≡ₚ mf_files manifest
    /\ StronglySorted by_fileIndex sortedFiles
    /\ Forall2 file_block sortedFiles blocks
    /\ Forall (fun row => exists filePlan,
                 filePlan ∈ mf_files manifest /\ pdf_name row = fp_pdfName filePlan)
              (concat blocks).
Proof.
  intros Hout Herr.
  set (rowsByPdf := manifestRows JSON_parse Number_toString manifest outputMap errorMap).
  exists (sort_files (mf_files manifest)),
         (map (rowsForFilePlan rowsByPdf) (sort_files (mf_files manifest))).
  split; [exact (importOpenAiBatchResultFiles_eq JSON_parse Number_toString manifest
                   outputFileText errorFileText outputMap errorMap Hout Herr)|].
  split; [apply sort_files_perm|].
  split; [apply sort_files_sorted|].
  split.
  - apply Forall2_fmap_r, Forall_Forall2_diag, Forall_forall.
    intros filePlan _. apply rowsForFilePlan_block.
  - apply Forall_concat, Forall_fmap, Forall_forall. intros filePlan Hplan. cbn.
    eapply Forall_impl; [apply rowsForFilePlan_pdf_name|].
    intros row Hrow. exists filePlan. split; [|exact Hrow].
    rewrite <- sort_files_perm. exact Hplan.
Qed.

Lemma importOpenAiBatchResultFiles_layout_witness :
  exists sortedFiles blocks,
    importOpenAiBatchResultFiles rejecting_parser unused_toString two_plans_manifest
      None None = Ok (concat blocks)
    /\ sortedFiles ≡ₚ two_plans
    /\ StronglySorted by_fileIndex sortedFiles
    /\ Forall2 file_block sortedFiles blocks
    /\ Forall (fun row => exists filePlan,
                 filePlan ∈ two_plans /\ pdf_name row = fp_pdfName filePlan)
              (concat blocks).
Proof.
  apply (importOpenAiBatchResultFiles_layout rejecting_parser unused_toString
           two_plans_manifest None None ∅ ∅); reflexivity.
Defined.

(** ** One document, live mode *)

Lemma with_index_fields (i : nat) (row : ExtractionRow) :
  pdf_name (with_index i row) = pdf_name row
  /\ paragraph (with_index i row) = paragraph row
  /\ page_number (with_index i row) = page_number row.
Proof. repeat split. Qed.

Lemma dedupeRowsWithinPdf_from (rows : list ExtractionRow) (row : ExtractionRow) :
  row ∈ dedupeRowsWithinPdf rows -> exists i r, r ∈ rows /\ row = with_index i r.
Proof.
  unfold dedupeRowsWithinPdf. intros H.
  apply elem_of_lookup_imap in H as (i & r & -> & Hr).
  exists i, r. split; [|reflexivity].
  apply (dedupe_loop_subset rows ∅). apply list_elem_of_lookup. exists i. exact Hr.
Qed.

Lemma dedupeRowsWithinPdf_Forall (P : ExtractionRow -> Prop) (rows : list ExtractionRow) :
  (forall i r, P r -> P (with_index i r)) ->
  Forall P rows -> Forall P (dedupeRowsWithinPdf rows).
Proof.
  intros Hindex Hall. apply Forall_forall. intros row Hrow.
  apply dedupeRowsWithinPdf_from in Hrow as (i & r & Hr & ->).
  apply Hindex. rewrite Forall_forall in Hall. apply Hall, Hr.
Qed.

Lemma dedupeRowsWithinPdf_shorter (rows : list ExtractionRow) :
  (length (dedupeRowsWithinPdf rows) <= length rows)%nat.
Proof. unfold dedupeRowsWithinPdf. rewrite length_imap. apply dedupe_loop_length. Qed.

Lemma from_candidates_with_index pdfName candidates (i : nat) (row : ExtractionRow) :
  from_candidates pdfName candidates row -> from_candidates pdfName candidates (with_index i row).
Proof. intros H. exact H. Qed.

Lemma from_candidates_mono pdfName (some more : list ParagraphCandidate) row :
  some ⊆ more -> from_candidates pdfName some row -> from_candidates pdfName more row.
Proof.
  intros Hsub (Hname & c & Hc & Htext & Hpage).
  split; [exact Hname|]. exists c. split; [apply Hsub, Hc|]. split; assumption.
Qed.

Lemma textFilterRows_from_candidates pdfName quality chunk decision :
  Forall (from_candidates pdfName chunk) (textFilterRows pdfName quality chunk decision).
Proof.
  eapply Forall_impl; [apply textFilterRows_of_chunk|].
  intros row (c & Hc & Htext & Hpage & Hname & _).
  split; [exact Hname|]. exists c. split; [exact Hc|]. split; assumption.
Qed.

Lemma fallbackRowsFromChunk_from_candidates pdfName chunk message :
  Forall (from_candidates pdfName chunk) (fallbackRowsFromChunk pdfName chunk message).
Proof.
  unfold fallbackRowsFromChunk. apply Forall_fmap, Forall_forall. intros c Hc.
  split; [reflexivity|]. exists c. split; [exact Hc|]. split; reflexivity.
Qed.

(** What the loop over the chunks adds to the rows when it ends. *)
Lemma filter_chunks_ok (file : PdfFile) quality (chunks : list (list ParagraphCandidate)) :
  forall chunkIndex rows result,
    filter_chunks file quality chunkIndex chunks rows = Ok result ->
    exists added,
      result = rows ++ added
      /\ Forall (from_candidates (pf_name file) (concat chunks)) added
      /\ (length added <= length (concat chunks))%nat
      /\ forall i chunk error,
           chunks !! i = Some chunk ->
           pf_decision file (chunkIndex + i)%nat = Throw error ->
           Forall (fun candidate =>
                     fallbackRow (pf_name file) (message_or error "Unknown model error")
                       candidate ∈ added) chunk.
Proof.
  induction chunks as [|chunk rest IH]; intros chunkIndex rows result Hrun.
  - cbn [filter_chunks] in Hrun. injection Hrun as <-.
    exists []. rewrite app_nil_r. split; [reflexivity|]. split; [constructor|].
    split; [reflexivity|]. intros i c e Hi. discriminate.
  - cbn [filter_chunks] in Hrun.
    destruct (pf_abortedAtChunk file chunkIndex); [discriminate|].
    assert (Hstep : forall pushed,
              filter_chunks file quality (S chunkIndex) rest (rows ++ pushed) = Ok result ->
              Forall (from_candidates (pf_name file) chunk) pushed ->
              (length pushed <= length chunk)%nat ->
              (forall error, pf_decision file chunkIndex = Throw error ->
                 Forall (fun candidate =>
                           fallbackRow (pf_name file) (message_or error "Unknown model error")
                             candidate ∈ pushed) chunk) ->
              exists added,
                result = rows ++ added
                /\ Forall (from_candidates (pf_name file) (concat (chunk :: rest))) added
                /\ (length added <= length (concat (chunk :: rest)))%nat
                /\ forall i c error,
                     (chunk :: rest) !! i = Some c ->
                     pf_decision file (chunkIndex + i)%nat = Throw error ->
                     Forall (fun candidate =>
                               fallbackRow (pf_name file)
                                 (message_or error "Unknown model error") candidate ∈ added)
                            c).
    { intros pushed Hrest Hfrom Hlen Hfail.
      destruct (IH _ _ _ Hrest) as (added & -> & Hadded & Hlen' & Hfail').
      exists (pushed ++ added). rewrite app_assoc. split; [reflexivity|].
      cbn [concat]. split; [|split].
      - apply Forall_app. split.
        + eapply Forall_impl; [exact Hfrom|]. intros row.
          apply from_candidates_mono. intros c Hc. apply elem_of_app. left. exact Hc.
        + eapply Forall_impl; [exact Hadded|]. intros row.
          apply from_candidates_mono. intros c Hc. apply elem_of_app. right. exact Hc.
      - rewrite !length_app. lia.
      - intros [|i] c error Hi Herr.
        + injection Hi as <-. rewrite Nat.add_0_r in Herr.
          eapply Forall_impl; [exact (Hfail error Herr)|].
          intros candidate Hin. apply elem_of_app. left. exact Hin.
        + replace (chunkIndex + S i)%nat with (S chunkIndex + i)%nat in Herr by lia.
          eapply Forall_impl; [exact (Hfail' i c error Hi Herr)|].
          intros candidate Hin. apply elem_of_app. right. exact Hin. }
    destruct (pf_decision file chunkIndex) as [decision|error] eqn:Edecision.
    + apply (Hstep _ Hrun).
      * apply textFilterRows_from_candidates.
      * apply textFilterRows_at_most_chunk.
      * intros error Herr. discriminate.
    + assert (Hfallback :
                filter_chunks file quality (S chunkIndex) rest
                  (rows ++ fallbackRowsFromChunk (pf_name file) chunk
                             (message_or error "Unknown model error")) = Ok result).
      { destruct error; [discriminate|exact Hrun..]. }
      apply (Hstep _ Hfallback).
      * apply fallbackRowsFromChunk_from_candidates.
      * unfold fallbackRowsFromChunk. rewrite length_map. reflexivity.
      * intros error' [= <-]. apply Forall_forall. intros candidate Hin.
        unfold fallbackRowsFromChunk. apply list_elem_of_fmap.
        exists candidate. split; [reflexivity|exact Hin].
Qed.

Lemma filter_chunks_throws (file : PdfFile) quality (chunks : list (list ParagraphCandidate)) :
  forall chunkIndex rows error,
    filter_chunks file quality chunkIndex chunks rows = Throw error ->
    error = AbortError
    /\ exists i, pf_abortedAtChunk file i = true \/ pf_decision file i = Throw AbortError.
Proof.
  induction chunks as [|chunk rest IH]; intros chunkIndex rows error Hrun;
    cbn [filter_chunks] in Hrun; [discriminate|].
  destruct (pf_abortedAtChunk file chunkIndex) eqn:Eaborted.
  { split; [congruence|]. exists chunkIndex. left. exact Eaborted. }
  destruct (pf_decision file chunkIndex) as [decision|[]] eqn:Edecision; eauto.
  split; [congruence|]. exists chunkIndex. right. exact Edecision.
Qed.

(** X14. The rows of a document with a text layer come from its
    candidates: each returned row carries the document's name and the text
    and page of a parsed candidate, there are at most as many rows as
    candidates, they are numbered from 1, and when the model fails on a
    chunk (other than by an abort) each of its candidates has its fallback
    row among them, unless de-duplication kept another row with the same
    normalised text. *)
Theorem processSinglePdf_text_rows (file : PdfFile) (quality : option PartialQualitySettings)
    (paragraphs : list ParagraphCandidate) (rows : list ExtractionRow) :
  pf_parsed file = Ok paragraphs ->
  paragraphs <> [] ->
  processSinglePdf file quality = Ok rows ->
  Forall (from_candidates (pf_name file) paragraphs) rows
  /\ (length rows <= length paragraphs)%nat
  /\ numbered rows
  /\ forall i chunk error,
       chunkParagraphs paragraphs !! i = Some chunk ->
       pf_decision file i = Throw error ->
       Forall (fun candidate =>
                 returned_or_duplicate rows
                   (fallbackRow (pf_name file) (message_or error "Unknown model error")
                      candidate)) chunk.
Proof.
  intros Hparsed Hne Hrun. unfold processSinglePdf in Hrun.
  rewrite Hparsed in Hrun. cbn [mbind res_bind] in Hrun.
  destruct paragraphs as [|p rest]; [congruence|]. cbn [length Nat.eqb] in Hrun.
  set (paragraphs := p :: rest) in *.
  destruct (filter_chunks file (sanitizeQualitySettings quality) 0
              (chunkParagraphs paragraphs) []) as [pushed|e] eqn:Eloop; [|discriminate].
  cbn [mbind res_bind] in Hrun. injection Hrun as <-.
  destruct (filter_chunks_ok _ _ _ _ _ _ Eloop) as (added & -> & Hfrom & Hlen & Hfail).
  cbn [app] in *.
  destruct (chunkParagraphsWith_inv paragraphs 7000) as (_ & Hcat & _).
  fold (chunkParagraphs paragraphs) in Hcat. rewrite Hcat in Hfrom, Hlen.
  split; [|split; [|split]].
  - apply dedupeRowsWithinPdf_Forall; [|exact Hfrom].
    intros i r. apply from_candidates_with_index.
  - etransitivity; [apply dedupeRowsWithinPdf_shorter|exact Hlen].
  - apply dedupeRowsWithinPdf_numbered.
  - intros i chunk error Hi Herr.
    eapply Forall_impl; [exact (Hfail i chunk error Hi Herr)|].
    intros candidate Hin.
    apply (dedupeRowsWithinPdf_covers added (pf_name file)); [|exact Hin].
    eapply Forall_impl; [exact Hfrom|]. intros row [Hname _]. exact Hname.
Qed.

Lemma processSinglePdf_text_rows_witness :
  let rows := dedupeRowsWithinPdf
                (fallbackRowsFromChunk "report.pdf" distinct_chunk "Internal Server Error") in
  Forall (from_candidates "report.pdf" distinct_chunk) rows
  /\ (length rows <= length distinct_chunk)%nat
  /\ numbered rows
  /\ forall i chunk error,
       chunkParagraphs distinct_chunk !! i = Some chunk ->
       pf_decision unfiltered_file i = Throw error ->
       Forall (fun candidate =>
                 returned_or_duplicate rows
                   (fallbackRow "report.pdf" (message_or error "Unknown model error")
                      candidate)) chunk.
Proof.
  apply (processSinglePdf_text_rows unfiltered_file None distinct_chunk).
  - reflexivity.
  - discriminate.
  - vm_compute. reflexivity.
Defined.

(** ** The vision fallback, every run *)

Lemma on_page_with_index pdfName first pages (i : nat) (row : ExtractionRow) :
  on_page pdfName first pages row -> on_page pdfName first pages (with_index i row).
Proof. intros H. exact H. Qed.

Lemma visionRows_on_page pdfName pageNumber quality decision :
  Forall (on_page pdfName pageNumber 1) (visionRows pdfName pageNumber quality decision).
Proof.
  unfold visionRows. apply Forall_forall. intros row Hin.
  apply list_elem_of_omap in Hin as (paragraph & _ & Hrow).
  unfold visionRow in Hrow.
  destruct (negb (isLikelyCodingParagraph (vp_text paragraph) quality)); [discriminate|].
  injection Hrow as <-. split; [reflexivity|]. exists pageNumber. split; [reflexivity|lia].
Qed.

Lemma on_page_mono pdfName (first first' : Z) (pages pages' : nat) row :
  first' <= first -> first + Z.of_nat pages <= first' + Z.of_nat pages' ->
  on_page pdfName first pages row -> on_page pdfName first' pages' row.
Proof.
  intros Hlo Hhi (Hname & p & Hp & Hrange).
  split; [exact Hname|]. exists p. split; [exact Hp|lia].
Qed.

Lemma iterate_pages_ok pdfName quality (pages : list VisionPage) :
  forall pageNumber rows result,
    iterate_pages (visionPageCallback pdfName quality) pageNumber pages rows = Ok result ->
    exists added,
      result = rows ++ added
      /\ Forall (on_page pdfName pageNumber (length pages)) added
      /\ forall i page error,
           pages !! i = Some page ->
           vpg_outcome page = Throw error ->
           visionFailureRow pdfName (pageNumber + Z.of_nat i)
             (message_or error "Unknown vision extraction error") ∈ added.
Proof.
  induction pages as [|page rest IH]; intros pageNumber rows result Hrun.
  - cbn [iterate_pages] in Hrun. injection Hrun as <-.
    exists []. rewrite app_nil_r. split; [reflexivity|]. split; [constructor|].
    intros i page error Hi. discriminate.
  - cbn [iterate_pages] in Hrun.
    destruct (vpg_abortedAtPage page); [discriminate|].
    destruct (vpg_image page) as [image|e]; [|discriminate]. cbn [mbind res_bind] in Hrun.
    destruct (visionPageCallback pdfName quality pageNumber page rows) as [rows'|e] eqn:Ecall;
      [|discriminate].
    cbn [mbind res_bind] in Hrun.
    destruct (IH _ _ _ Hrun) as (added & -> & Hadded & Hfail).
    assert (Hpushed : exists pushed,
              rows' = rows ++ pushed
              /\ Forall (on_page pdfName pageNumber 1) pushed
              /\ forall error, vpg_outcome page = Throw error ->
                   visionFailureRow pdfName pageNumber
                     (message_or error "Unknown vision extraction error") ∈ pushed).
    { unfold visionPageCallback in Ecall.
      destruct (vpg_abortedAtCall page); [discriminate|].
      destruct (vpg_outcome page) as [decision|error].
      - destruct (length (vd_paragraphs decision) =? 0)%nat; injection Ecall as <-.
        + exists []. rewrite app_nil_r. split; [reflexivity|]. split; [constructor|].
          intros error Herr. discriminate.
        + eexists. split; [reflexivity|]. split; [apply visionRows_on_page|].
          intros error Herr. discriminate.
      - assert (Hrows : rows' = rows ++ [visionFailureRow pdfName pageNumber
                                           (message_or error "Unknown vision extraction error")]).
        { destruct error; [discriminate|injection Ecall as <-; reflexivity..]. }
        eexists. split; [exact Hrows|]. split.
        + constructor; [|constructor]. split; [reflexivity|].
          exists pageNumber. split; [reflexivity|lia].
        + intros error' [= <-]. apply elem_of_cons. left. reflexivity. }
    destruct Hpushed as (pushed & -> & Hpage & Hfailed).
    exists (pushed ++ added). rewrite app_assoc. split; [reflexivity|]. split.
    + apply Forall_app. split.
      * eapply Forall_impl; [exact Hpage|]. intros row. apply on_page_mono; cbn [length]; lia.
      * eapply Forall_impl; [exact Hadded|]. intros row. apply on_page_mono; cbn [length]; lia.
    + intros [|i] page' error Hi Herr.
      * injection Hi as <-. rewrite Z.add_0_r. apply elem_of_app. left.
        apply Hfailed, Herr.
      * apply elem_of_app. right.
        replace (pageNumber + Z.of_nat (S i)) with (pageNumber + 1 + Z.of_nat i) by lia.
        apply (Hfail i page' error Hi Herr).
Qed.

Lemma iterate_pages_throws pdfName quality (pages : list VisionPage) :
  forall pageNumber rows e,
    iterate_pages (visionPageCallback pdfName quality) pageNumber pages rows = Throw e ->
    exists page,
      page ∈ pages
      /\ ((e = AbortError
           /\ (vpg_abortedAtPage page = true
               \/ vpg_abortedAtCall page = true
               \/ vpg_outcome page = Throw AbortError))
          \/ vpg_image page = Throw e).
Proof.
  induction pages as [|page rest IH]; intros pageNumber rows e Hrun;
    cbn [iterate_pages] in Hrun; [discriminate|].
  assert (Hhere : forall P : VisionPage -> Prop, P page -> exists page', page' ∈ page :: rest /\ P page').
  { intros P HP. exists page. split; [apply elem_of_cons; left; reflexivity|exact HP]. }
  destruct (vpg_abortedAtPage page) eqn:Epage.
  { injection Hrun as <-. apply Hhere. left. split; [reflexivity|]. left. exact Epage. }
  destruct (vpg_image page) as [image|e'] eqn:Eimage; cbn [mbind res_bind] in Hrun.
  2:{ injection Hrun as <-. apply Hhere. right. exact Eimage. }
  destruct (visionPageCallback pdfName quality pageNumber page rows) as [rows'|e'] eqn:Ecall;
    cbn [mbind res_bind] in Hrun.
  - destruct (IH _ _ _ Hrun) as (page' & Hin & Hcause).
    exists page'. split; [apply elem_of_cons; right; exact Hin|exact Hcause].
  - injection Hrun as <-. unfold visionPageCallback in Ecall.
    destruct (vpg_abortedAtCall page) eqn:Eaborted.
    { injection Ecall as <-. apply Hhere. left. split; [reflexivity|]. right. left. exact Eaborted. }
    destruct (vpg_outcome page) as [decision|[]] eqn:Eoutcome; try discriminate.
    + destruct (length (vd_paragraphs decision) =? 0)%nat; discriminate.
    + injection Ecall as <-. apply Hhere. left. split; [reflexivity|]. right. right. exact Eoutcome.
Qed.

Lemma blank_row_kept (rows : list ExtractionRow) (row : ExtractionRow) :
  row ∈ rows -> Str.truthy (row_key row) = false ->
  exists i, with_index i row ∈ dedupeRowsWithinPdf rows.
Proof.
  intros Hin Hblank.
  destruct (dedupe_loop_covers rows ∅ row Hin) as [H|(Ht & _)]; [|congruence].
  apply elem_of_dedupeRowsWithinPdf. exact H.
Qed.

(** X15. What the vision fallback returns or throws, for every run: the
    rows are the placeholder alone, or rows of the document whose page
    numbers lie between 1 and the number of pages; they are numbered from
    1; every page on which the extraction failed has its failure row among
    them; and the only errors that leave are an abort, the failure to load
    the PDF and the failure to render a page. *)
Theorem processPdfWithVisionFallback_outcome (file : VisionFile)
    (quality : option PartialQualitySettings) :
  match processPdfWithVisionFallback file quality with
  | Ok rows =>
      exists pages,
        vf_pages file = Ok pages
        /\ numbered rows
        /\ (rows = [placeholderRow (vf_name file)]
            \/ Forall (on_page (vf_name file) 1 (length pages)) rows)
        /\ forall i page error,
             pages !! i = Some page ->
             vpg_outcome page = Throw error ->
             exists k,
               with_index k (visionFailureRow (vf_name file) (Z.of_nat i + 1)
                               (message_or error "Unknown vision extraction error")) ∈ rows
  | Throw e =>
      e = AbortError
      \/ vf_pages file = Throw e
      \/ exists pages page,
           vf_pages file = Ok pages /\ page ∈ pages /\ vpg_image page = Throw e
  end.
Proof.
  rewrite processPdfWithVisionFallback_eq. unfold visionPagesRows, iteratePdfPageImages.
  destruct (vf_abortedAtOpen file); [left; reflexivity|].
  destruct (vf_pages file) as [pages|e] eqn:Epages; cbn [mbind res_bind];
    [|right; left; reflexivity].
  destruct (iterate_pages _ 1 pages []) as [pushed|e] eqn:Eloop.
  - destruct (iterate_pages_ok _ _ _ _ _ _ Eloop) as (added & -> & Hadded & Hfail).
    cbn [app] in *.
    assert (Hfailed : forall i page error,
              pages !! i = Some page ->
              vpg_outcome page = Throw error ->
              exists k,
                with_index k (visionFailureRow (vf_name file) (Z.of_nat i + 1)
                                (message_or error "Unknown vision extraction error"))
                  ∈ dedupeRowsWithinPdf added).
    { intros i page error Hi Herr. apply blank_row_kept; [|reflexivity].
      rewrite Z.add_comm. apply (Hfail i page error Hi Herr). }
    destruct added as [|row rest] eqn:Eadded.
    + exists pages. split; [reflexivity|]. split; [reflexivity|]. split; [left; reflexivity|].
      intros i page error Hi Herr. exfalso.
      exact (not_elem_of_nil _ (Hfail i page error Hi Herr)).
    + exists pages. split; [reflexivity|]. split; [apply dedupeRowsWithinPdf_numbered|].
      split; [|exact Hfailed]. right.
      apply dedupeRowsWithinPdf_Forall; [|exact Hadded].
      intros i r. apply on_page_with_index.
  - destruct (iterate_pages_throws _ _ _ _ _ _ Eloop) as (page & Hin & [[-> _]|Himage]).
    + left. reflexivity.
    + right. right. exists pages, page. split; [reflexivity|]. split; assumption.
Qed.

(** ** One file of a run *)

Lemma processSinglePdf_pdf_name (file : PdfFile) (quality : option PartialQualitySettings)
    (rows : list ExtractionRow) :
  processSinglePdf file quality = Ok rows ->
  Forall (fun row => pdf_name row = pf_name file) rows.
Proof.
  unfold processSinglePdf. destruct (pf_parsed file) as [paragraphs|e]; [|discriminate].
  cbn [mbind res_bind]. destruct (length paragraphs =? 0)%nat.
  - rewrite processPdfWithVisionFallback_eq. unfold visionPagesRows, iteratePdfPageImages.
    cbn [vision_file vf_name vf_abortedAtOpen vf_pages].
    destruct (pf_abortedAtOpen file); [discriminate|].
    destruct (pf_pages file) as [pages|e]; [|discriminate]. cbn [mbind res_bind].
    destruct (iterate_pages _ 1 pages []) as [pushed|e] eqn:Eloop; [|discriminate].
    destruct (iterate_pages_ok _ _ _ _ _ _ Eloop) as (added & -> & Hadded & _).
    cbn [app].
    assert (Hnames : Forall (fun row => pdf_name row = pf_name file) added).
    { eapply Forall_impl; [exact Hadded|]. intros row [Hname _]. exact Hname. }
    destruct added as [|row rest]; intros [= <-].
    + constructor; [reflexivity|constructor].
    + apply dedupeRowsWithinPdf_pdf_name. exact Hnames.
  - destruct (filter_chunks file _ 0 _ []) as [pushed|e] eqn:Eloop; [|discriminate].
    cbn [mbind res_bind]. intros [= <-].
    destruct (filter_chunks_ok _ _ _ _ _ _ Eloop) as (added & -> & Hfrom & _).
    cbn [app]. apply dedupeRowsWithinPdf_pdf_name.
    eapply Forall_impl; [exact Hfrom|]. intros row [Hname _]. exact Hname.
Qed.

Lemma processSinglePdf_abort (file : PdfFile) (quality : option PartialQualitySettings) :
  never_aborted file -> processSinglePdf file quality <> Throw AbortError.
Proof.
  intros (Hparsed & Hchunks & Hopen & Hpages & Hall) Hrun.
  unfold processSinglePdf in Hrun.
  destruct (pf_parsed file) as [paragraphs|e]; cbn [mbind res_bind] in Hrun; [|congruence].
  destruct (length paragraphs =? 0)%nat.
  - rewrite processPdfWithVisionFallback_eq in Hrun.
    unfold visionPagesRows, iteratePdfPageImages in Hrun.
    cbn [vision_file vf_name vf_abortedAtOpen vf_pages] in Hrun.
    rewrite Hopen in Hrun.
    destruct (pf_pages file) as [pages|e]; cbn [mbind res_bind] in Hrun; [|congruence].
    destruct (iterate_pages _ 1 pages []) as [[|row rest]|e] eqn:Eloop; try discriminate.
    injection Hrun as ->.
    destruct (iterate_pages_throws _ _ _ _ _ _ Eloop) as (page & Hin & Hcause).
    specialize (Hall pages eq_refl). rewrite Forall_forall in Hall.
    destruct (Hall page Hin) as (H1 & H2 & H3 & H4).
    destruct Hcause as [[_ [H|[H|H]]]|H]; congruence.
  - destruct (filter_chunks file _ 0 _ []) as [pushed|e] eqn:Eloop; [discriminate|].
    destruct (filter_chunks_throws _ _ _ _ _ _ Eloop) as (_ & i & Hcause).
    destruct (Hchunks i) as [H1 H2]. destruct Hcause; congruence.
Qed.

(** X16. The callback [runExtraction] maps over the files throws nothing
    but an [AbortError], and only when the run met an abort; every row it
    returns carries the name of its file; and a file that cannot be parsed
    gives exactly the one row that reports the failure. *)
Theorem processFile_contained (file : PdfFile) (quality : option PartialQualitySettings) :
  match processFile file quality with
  | Ok rows =>
      Forall (fun row => pdf_name row = pf_name file) rows
      /\ forall error,
           pf_parsed file = Throw error ->
           rows = [fileFailureRow (pf_name file) (message_or error "Unknown processing error")]
  | Throw error => error = AbortError /\ ~ never_aborted file
  end.
Proof.
  pose proof (processSinglePdf_pdf_name file quality) as Hnames.
  pose proof (processSinglePdf_abort file quality) as Habort.
  unfold processFile.
  assert (Hparsed : forall error,
            pf_parsed file = Throw error -> processSinglePdf file quality = Throw error).
  { intros error H. unfold processSinglePdf. rewrite H. reflexivity. }
  destruct (processSinglePdf file quality) as [rows|error] eqn:Erun.
  - split; [apply Hnames; reflexivity|]. intros error H. specialize (Hparsed error H).
    discriminate.
  - assert (Hrow : forall e, e = error -> e <> AbortError ->
              Forall (fun row => pdf_name row = pf_name file)
                [fileFailureRow (pf_name file) (message_or e "Unknown processing error")]
              /\ forall error',
                   pf_parsed file = Throw error' ->
                   [fileFailureRow (pf_name file) (message_or e "Unknown processing error")]
                   = [fileFailureRow (pf_name file)
                        (message_or error' "Unknown processing error")]).
    { intros e -> _. split; [constructor; [reflexivity|constructor]|].
      intros error' H. specialize (Hparsed error' H). congruence. }
    destruct error.
    + split; [reflexivity|]. intros Hquiet. exact (Habort Hquiet eq_refl).
    + apply Hrow; [reflexivity|discriminate].
    + apply Hrow; [reflexivity|discriminate].
    + apply Hrow; [reflexivity|discriminate].
Qed.

(** ** Batch preparation *)

Lemma string_of_uint_no_hyphen (d : Decimal.uint) : no_hyphen (NilEmpty.string_of_uint d).
Proof. induction d; cbn; (exact I || (split; [discriminate|assumption])). Qed.

Lemma string_of_Z_no_hyphen (z : Z) : 0 <= z -> no_hyphen (Str.string_of_Z z).
Proof.
  intros Hz. unfold Str.string_of_Z. destruct z as [|p|p]; [| |lia];
    apply string_of_uint_no_hyphen.
Qed.

Lemma string_of_Z_inj (a b : Z) : Str.string_of_Z a = Str.string_of_Z b -> a = b.
Proof.
  unfold Str.string_of_Z. intros H. apply DecimalZ.to_int_inj.
  pose proof (NilEmpty.isi (Z.to_int a)) as Ha. rewrite H, NilEmpty.isi in Ha.
  congruence.
Qed.

Lemma append_hyphen_inj (a1 a2 r1 r2 : string) :
  no_hyphen a1 -> no_hyphen a2 ->
  a1 +:+ String "-" r1 = a2 +:+ String "-" r2 -> a1 = a2 /\ r1 = r2.
Proof.
  revert a2. induction a1 as [|c a1 IH]; intros [|c' a2] H1 H2 Heq; cbn in *.
  - injection Heq as ->. split; reflexivity.
  - injection Heq as <- _. destruct H2 as [H2 _]. congruence.
  - injection Heq as -> _. destruct H1 as [H1 _]. congruence.
  - injection Heq as -> Heq. destruct (IH a2 (proj2 H1) (proj2 H2) Heq) as [-> ->].
    split; reflexivity.
Qed.

Lemma createBatchCustomId_inj (f1 t1 f2 t2 : Z) (k1 k2 : TaskKind) :
  0 <= f1 -> 0 <= f2 ->
  createBatchCustomId f1 t1 k1 = createBatchCustomId f2 t2 k2 ->
  f1 = f2 /\ t1 = t2 /\ k1 = k2.
Proof.
  intros Hf1 Hf2 Heq. unfold createBatchCustomId in Heq. cbn [String.append] in Heq.
  injection Heq as Heq.
  apply append_hyphen_inj in Heq as [Hf Hrest]; try (apply string_of_Z_no_hyphen; assumption).
  apply string_of_Z_inj in Hf.
  destruct k1, k2; cbn in Hrest; try discriminate;
    injection Hrest as Hrest; apply string_of_Z_inj in Hrest; auto.
Qed.

Lemma page_tasks_ok pdfName fileIndex totalPages (pages : list VisionPage) :
  forall pageNumber (tasks result : list ExtractionBatchTask),
    page_tasks pdfName fileIndex totalPages pageNumber (Z.of_nat (length tasks)) pages tasks
    = Ok result ->
    (forall j task, tasks !! j = Some task -> task_of_file pdfName fileIndex j task) ->
    forall j task, result !! j = Some task -> task_of_file pdfName fileIndex j task.
Proof.
  induction pages as [|page rest IH]; intros pageNumber tasks result Hrun Htasks;
    cbn [page_tasks] in Hrun.
  - injection Hrun as <-. exact Htasks.
  - destruct (vpg_abortedAtPage page); [discriminate|].
    destruct (vpg_image page) as [image|e]; [|discriminate]. cbn [mbind res_bind] in Hrun.
    destruct (vpg_abortedAtCall page); [discriminate|].
    apply (IH (pageNumber + 1)
              (tasks ++ [VisionPageBatchTask
                           (createBatchCustomId fileIndex (Z.of_nat (length tasks)) vision_page)
                           pdfName fileIndex (Z.of_nat (length tasks)) pageNumber totalPages])).
    + rewrite length_app. cbn [length].
      replace (Z.of_nat (length tasks + 1)) with (Z.of_nat (length tasks) + 1) by lia.
      exact Hrun.
    + intros j task Hj. apply lookup_app_Some in Hj as [Hj|[Hge Hj]]; [apply Htasks, Hj|].
      apply list_lookup_singleton_Some in Hj as [Hj <-].
      assert (j = length tasks) as -> by lia.
      repeat split.
Qed.

Lemma prepareSinglePdfForBatch_ok (file : BatchFile) (fileIndex : Z) (prepared : PreparedFile) :
  prepareSinglePdfForBatch file fileIndex = Ok prepared ->
  fp_pdfName (pr_filePlan prepared) = bf_name file
  /\ fp_fileIndex (pr_filePlan prepared) = fileIndex
  /\ forall j task,
       pr_tasks prepared !! j = Some task -> task_of_file (bf_name file) fileIndex j task.
Proof.
  unfold prepareSinglePdfForBatch.
  destruct (bf_parsed file) as [parsed|e]; [|discriminate]. cbn [mbind res_bind].
  destruct (length (pp_paragraphs parsed) =? 0)%nat.
  - destruct (bf_abortedAtOpen file); [discriminate|].
    destruct (bf_pages file) as [pages|e]; [|discriminate]. cbn [mbind res_bind].
    destruct (page_tasks _ _ _ 1 0 pages []) as [tasks|e] eqn:Eloop; [|discriminate].
    cbn [mbind res_bind]. intros [= <-]. split; [reflexivity|]. split; [reflexivity|].
    cbn [pr_tasks]. apply (page_tasks_ok _ _ _ _ _ [] _ Eloop).
    intros j task Hj. discriminate.
  - intros [= <-]. split; [reflexivity|]. split; [reflexivity|].
    cbn [pr_tasks]. intros j task Hj. rewrite list_lookup_imap in Hj.
    destruct (chunkParagraphs (pp_paragraphs parsed) !! j) as [chunk|]; [|discriminate].
    injection Hj as <-. repeat split.
Qed.

Lemma tasks_of_file_NoDup pdfName (fileIndex : Z) (tasks : list ExtractionBatchTask) :
  0 <= fileIndex ->
  (forall j task, tasks !! j = Some task -> task_of_file pdfName fileIndex j task) ->
  NoDup (map task_customId tasks).
Proof.
  intros Hindex Htasks. apply NoDup_alt. intros i j id Hi Hj.
  rewrite list_lookup_fmap in Hi, Hj.
  destruct (tasks !! i) as [a|] eqn:Ea; [|discriminate].
  destruct (tasks !! j) as [b|] eqn:Eb; [|discriminate].
  injection Hi as Hi. injection Hj as Hj.
  destruct (Htasks i a Ea) as (_ & _ & _ & Ida), (Htasks j b Eb) as (_ & _ & _ & Idb).
  rewrite Ida in Hi. rewrite Idb, <- Hi in Hj.
  apply createBatchCustomId_inj in Hj as (_ & Hj & _); lia.
Qed.

(** The tasks of the files prepared from the index [start] on. *)
Lemma prepared_from_tasks (files : list BatchFile) : forall start preparedFiles,
  prepared_from start files preparedFiles ->
  NoDup (map task_customId (concat (map pr_tasks preparedFiles)))
  /\ Forall (fun task =>
               Z.of_nat start <= task_fileIndex task
               /\ task_customId task
                  = createBatchCustomId (task_fileIndex task) (task_taskIndex task)
                      (task_kind task)
               /\ exists filePlan,
                    filePlan ∈ map pr_filePlan preparedFiles
                    /\ fp_pdfName filePlan = task_pdfName task)
            (concat (map pr_tasks preparedFiles))
  /\ Forall (fun filePlan => Z.of_nat start <= fp_fileIndex filePlan)
            (map pr_filePlan preparedFiles)
  /\ StronglySorted by_fileIndex (map pr_filePlan preparedFiles).
Proof.
  induction files as [|file files IH]; intros start [|prepared preparedFiles] Hfrom;
    cbn [prepared_from] in Hfrom; try contradiction.
  - cbn. repeat split; constructor.
  - destruct Hfrom as [Hfile Hrest].
    destruct (prepareSinglePdfForBatch_ok _ _ _ Hfile) as (Hname & Hindex & Htasks).
    destruct (IH _ _ Hrest) as (Hnodup & Hall & Hplans & Hsorted).
    cbn [map concat].
    assert (Hhead : Forall (fun task =>
                      task_fileIndex task = Z.of_nat start
                      /\ task_customId task
                         = createBatchCustomId (task_fileIndex task) (task_taskIndex task)
                             (task_kind task)
                      /\ fp_pdfName (pr_filePlan prepared) = task_pdfName task)
                    (pr_tasks prepared)).
    { apply Forall_forall. intros task Hin. apply list_elem_of_lookup in Hin as (j & Hj).
      destruct (Htasks j task Hj) as (H1 & H2 & H3 & H4).
      split; [exact H2|]. split; [rewrite H2, H3; exact H4|]. congruence. }
    split; [|split; [|split]].
    + rewrite map_app. apply NoDup_app. split; [|split; [|exact Hnodup]].
      * apply (tasks_of_file_NoDup (bf_name file) (Z.of_nat start)); [lia|exact Htasks].
      * intros id Hid Hid'.
        apply list_elem_of_fmap in Hid as (a & -> & Ha).
        apply list_elem_of_fmap in Hid' as (b & Heq & Hb).
        rewrite Forall_forall in Hhead, Hall.
        destruct (Hhead a Ha) as (Ha1 & Ha2 & _), (Hall b Hb) as (Hb1 & Hb2 & _).
        rewrite Ha2, Hb2 in Heq.
        apply createBatchCustomId_inj in Heq as (Heq & _); lia.
    + apply Forall_app. split.
      * eapply Forall_impl; [exact Hhead|]. intros task (H1 & H2 & H3).
        split; [lia|]. split; [exact H2|].
        exists (pr_filePlan prepared). split; [apply elem_of_cons; left; reflexivity|exact H3].
      * eapply Forall_impl; [exact Hall|]. intros task (H1 & H2 & plan & Hplan & H3).
        split; [lia|]. split; [exact H2|].
        exists plan. split; [apply elem_of_cons; right; exact Hplan|exact H3].
    + constructor; [lia|]. eapply Forall_impl; [exact Hplans|]. intros plan H. cbn in H. lia.
    + constructor; [exact Hsorted|].
      eapply Forall_impl; [exact Hplans|]. intros plan H. unfold by_fileIndex. cbn in H. lia.
Qed.

Lemma insert_file_last (f : ExtractionBatchFilePlan) (sorted : list ExtractionBatchFilePlan) :
  Forall (fun g => by_fileIndex g f) sorted -> insert_file f sorted = sorted ++ [f].
Proof.
  induction 1 as [|g rest Hg _ IH]; cbn [insert_file app]; [reflexivity|].
  unfold by_fileIndex in Hg.
  destruct (fp_fileIndex f - fp_fileIndex g <? 0) eqn:E; [apply Z.ltb_lt in E; lia|].
  rewrite IH. reflexivity.
Qed.

Lemma sort_files_sorted_fixed (files : list ExtractionBatchFilePlan) :
  StronglySorted by_fileIndex files -> sort_files files = files.
Proof.
  unfold sort_files.
  assert (H : forall acc,
            StronglySorted by_fileIndex (acc ++ files) ->
            fold_left (fun sorted f => insert_file f sorted) files acc = acc ++ files).
  { induction files as [|f rest IH]; intros acc Hsorted; cbn [fold_left].
    - rewrite app_nil_r. reflexivity.
    - rewrite insert_file_last.
      + rewrite IH; rewrite <- app_assoc; [reflexivity|exact Hsorted].
      + clear IH. induction acc as [|g acc IHacc]; [constructor|].
        cbn [app] in Hsorted. apply StronglySorted_inv in Hsorted as [Hsorted Hg].
        constructor; [|apply IHacc, Hsorted].
        rewrite Forall_forall in Hg. apply Hg, elem_of_app. right.
        apply elem_of_cons. left. reflexivity. }
  intros Hsorted. apply (H [] Hsorted).
Qed.

(** X17. A manifest that [prepareOpenAiExtractionBatch] returns for files
    prepared by [prepareSinglePdfForBatch] has at least one task, every
    task has a file plan of its document, no two tasks share a [customId],
    its file plans are already in the order the import sorts them into,
    and the import reads from it the quality settings the preparation
    used. *)
Theorem prepareOpenAiExtractionBatch_manifest (openai : bool) (createdAt model : string)
    (quality : option PartialQualitySettings) (files : list BatchFile)
    (preparedFiles : list PreparedFile) (requestBytes : Z)
    (batch : PreparedOpenAiExtractionBatch) :
  prepared_from 0 files preparedFiles ->
  prepareOpenAiExtractionBatch openai createdAt model quality preparedFiles requestBytes
  = Ok batch ->
  let manifest := pb_manifest batch in
  mf_tasks manifest <> []
  /\ Forall (planned manifest) (mf_tasks manifest)
  /\ NoDup (map task_customId (mf_tasks manifest))
  /\ sort_files (mf_files manifest) = mf_files manifest
  /\ sanitizeQualitySettings (Some (mf_quality manifest)) = sanitizeQualitySettings quality.
Proof.
  intros Hfrom Hrun manifest. subst manifest.
  unfold prepareOpenAiExtractionBatch in Hrun.
  destruct openai; cbn [negb] in Hrun; [|discriminate].
  cbn [mf_tasks] in Hrun.
  destruct (Z.of_nat (length (concat (map pr_tasks preparedFiles))) =? 0) eqn:Eempty;
    [discriminate|].
  destruct (200 * 1024 * 1024 <? requestBytes); [discriminate|].
  destruct (50000 <? _); [discriminate|].
  injection Hrun as <-. cbn [pb_manifest mf_tasks mf_files mf_quality].
  destruct (prepared_from_tasks files 0 preparedFiles Hfrom) as (Hnodup & Hall & _ & Hsorted).
  split; [|split; [|split; [|split]]].
  - intros Hnil. rewrite Hnil in Eempty. discriminate.
  - eapply Forall_impl; [exact Hall|]. intros task (_ & _ & Hplan). exact Hplan.
  - exact Hnodup.
  - apply sort_files_sorted_fixed, Hsorted.
  - apply sanitizeQualitySettings_fixed.
Qed.

Lemma prepareOpenAiExtractionBatch_manifest_witness :
  let manifest :=
    {| mf_createdAt := "2025-01-01T00:00:00.000Z";
       mf_model := "gpt-4o-mini";
       mf_quality := as_partial (sanitizeQualitySettings None);
       mf_files := map pr_filePlan two_files_prepared;
       mf_tasks := concat (map pr_tasks two_files_prepared) |} in
  mf_tasks manifest <> []
  /\ Forall (planned manifest) (mf_tasks manifest)
  /\ NoDup (map task_customId (mf_tasks manifest))
  /\ sort_files (mf_files manifest) = mf_files manifest
  /\ sanitizeQualitySettings (Some (mf_quality manifest)) = sanitizeQualitySettings None.
Proof.
  apply (prepareOpenAiExtractionBatch_manifest true "2025-01-01T00:00:00.000Z" "gpt-4o-mini"
           None two_files two_files_prepared 4096
           {| pb_manifest :=
                {| mf_createdAt := "2025-01-01T00:00:00.000Z";
                   mf_model := "gpt-4o-mini";
                   mf_quality := as_partial (sanitizeQualitySettings None);
                   mf_files := map pr_filePlan two_files_prepared;
                   mf_tasks := concat (map pr_tasks two_files_prepared) |};
              pb_requestCount := 2;
              pb_requestBytes := 4096 |}).
  - split; [reflexivity|]. split; [reflexivity|exact I].
  - reflexivity.
Defined.

(** ** CSV export *)

Lemma append_empty (b : string) : "" +:+ b = b.
Proof. reflexivity. Qed.

Lemma append_String (c : ascii) (a b : string) : String c a +:+ b = String c (a +:+ b).
Proof. reflexivity. Qed.

Lemma append_assoc (a b c : string) : (a +:+ b) +:+ c = a +:+ (b +:+ c).
Proof.
  induction a as [|x a IH]; rewrite ?append_empty, ?append_String; [reflexivity|].
  f_equal. exact IH.
Qed.

Ltac step_append H :=
  repeat (rewrite append_assoc in H || rewrite append_String in H
          || rewrite append_empty in H).

Lemma needs_quotes_head (c : ascii) (rest : string) :
  needs_quotes (String c rest) = false ->
  c <> double_quote /\ c <> line_feed /\ c <> comma /\ needs_quotes rest = false.
Proof.
  cbn [needs_quotes]. intros H.
  apply orb_false_iff in H as [H Hrest]. apply orb_false_iff in H as [H Hc].
  apply orb_false_iff in H as [Hq Hl].
  apply Ascii.eqb_neq in Hq, Hl, Hc. auto.
Qed.

(** Two plain cells that start the same text are the same cell. *)
Lemma plain_prefix (a : string) : forall b x y,
  needs_quotes a = false -> needs_quotes b = false ->
  after_cell x -> after_cell y ->
  a +:+ x = b +:+ y -> a = b /\ x = y.
Proof.
  induction a as [|c a IH]; intros [|c' b] x y Ha Hb Hx Hy Heq; step_append Heq.
  - split; [reflexivity|exact Heq].
  - apply needs_quotes_head in Hb as (_ & Hl & Hc & _).
    subst x. cbn in Hx. destruct Hx; congruence.
  - apply needs_quotes_head in Ha as (_ & Hl & Hc & _).
    subst y. cbn in Hy. destruct Hy; congruence.
  - injection Heq as -> Heq.
    apply needs_quotes_head in Ha as (_ & _ & _ & Ha).
    apply needs_quotes_head in Hb as (_ & _ & _ & Hb).
    destruct (IH b x y Ha Hb Hx Hy Heq) as [-> ->]. split; reflexivity.
Qed.

Lemma after_cell_not_quote (c : ascii) (rest : string) :
  after_cell (String c rest) -> c <> double_quote.
Proof. cbn. intros [->| ->]; discriminate. Qed.

(** Two quoted cells that start the same text are the same cell. *)
Lemma quoted_prefix (a : string) : forall b x y,
  after_cell x -> after_cell y ->
  double_the_quotes a +:+ String double_quote x
  = double_the_quotes b +:+ String double_quote y ->
  a = b /\ x = y.
Proof.
  induction a as [|c a IH]; intros [|c' b] x y Hx Hy Heq;
    cbn [double_the_quotes] in Heq; step_append Heq.
  - injection Heq as ->. split; reflexivity.
  - destruct (Ascii.eqb c' double_quote) eqn:Ec'; step_append Heq.
    + injection Heq as ->. exfalso. exact (after_cell_not_quote _ _ Hx eq_refl).
    + injection Heq as <- _. rewrite Ascii.eqb_refl in Ec'. discriminate.
  - destruct (Ascii.eqb c double_quote) eqn:Ec; step_append Heq.
    + injection Heq as <-. exfalso. exact (after_cell_not_quote _ _ Hy eq_refl).
    + injection Heq as -> _. rewrite Ascii.eqb_refl in Ec. discriminate.
  - destruct (Ascii.eqb c double_quote) eqn:Ec, (Ascii.eqb c' double_quote) eqn:Ec';
      step_append Heq.
    + apply Ascii.eqb_eq in Ec, Ec'. subst c c'. injection Heq as Heq.
      destruct (IH b x y Hx Hy Heq) as [-> ->]. split; reflexivity.
    + injection Heq as <- _. rewrite Ascii.eqb_refl in Ec'. discriminate.
    + injection Heq as -> _. rewrite Ascii.eqb_refl in Ec. discriminate.
    + injection Heq as -> Heq.
      destruct (IH b x y Hx Hy Heq) as [-> ->]. split; reflexivity.
Qed.

(** A text is read back from the start of what its cell begins. *)
Lemma quoted_if_needed_prefix (a b x y : string) :
  after_cell x -> after_cell y ->
  quoted_if_needed a +:+ x = quoted_if_needed b +:+ y -> a = b /\ x = y.
Proof.
  intros Hx Hy. unfold quoted_if_needed.
  destruct (needs_quotes a) eqn:Ea, (needs_quotes b) eqn:Eb; intros Heq; step_append Heq.
  - injection Heq as Heq. apply (quoted_prefix a b x y Hx Hy Heq).
  - exfalso. destruct b as [|c b]; step_append Heq.
    + subst y. exact (after_cell_not_quote _ _ Hy eq_refl).
    + injection Heq as <- _. apply needs_quotes_head in Eb as (Hq & _). congruence.
  - exfalso. destruct a as [|c a]; step_append Heq.
    + subst x. exact (after_cell_not_quote _ _ Hx eq_refl).
    + injection Heq as -> _. apply needs_quotes_head in Ea as (Hq & _). congruence.
  - apply (plain_prefix a b x y Ea Eb Hx Hy Heq).
Qed.

Lemma toCsvCell_text (Number_toString : float -> string) (value : CellValue) :
  toCsvCell Number_toString value = quoted_if_needed (cell_text Number_toString value).
Proof. destruct value; reflexivity. Qed.

Lemma concat_cons (sep head : string) (tail : list string) :
  String.concat sep (head :: tail)
  = head +:+ match tail with [] => "" | _ => sep +:+ String.concat sep tail end.
Proof.
  destruct tail; cbn [String.concat]; [|reflexivity].
  induction head as [|c head IH]; rewrite ?append_empty, ?append_String; [reflexivity|].
  f_equal. exact IH.
Qed.

(** The cells of a line are read back from the start of what the line
    begins. *)
Lemma cells_prefix (texts : list string) : forall texts' x y,
  length texts = length texts' ->
  after_line x -> after_line y ->
  String.concat "," (map quoted_if_needed texts) +:+ x
  = String.concat "," (map quoted_if_needed texts') +:+ y ->
  texts = texts' /\ x = y.
Proof.
  induction texts as [|a texts IH]; intros [|b texts'] x y Hlen Hx Hy Heq;
    try discriminate.
  - split; [reflexivity|exact Heq].
  - cbn [map] in Heq. rewrite !concat_cons, !append_assoc in Heq.
    injection Hlen as Hlen.
    assert (Hafter : forall (rest : list string) (z : string),
              after_line z ->
              after_cell (match map quoted_if_needed rest with
                          | [] => ""
                          | _ => "," +:+ String.concat "," (map quoted_if_needed rest)
                          end +:+ z)).
    { intros [|r rest] z Hz; cbn [map].
      - rewrite append_empty. destruct z; [exact I|]. right. exact Hz.
      - change "," with (String comma EmptyString).
        rewrite ?append_assoc, ?append_String. left. reflexivity. }
    apply quoted_if_needed_prefix in Heq as [-> Heq]; [|apply Hafter; assumption..].
    destruct texts as [|a' texts], texts' as [|b' texts']; try discriminate.
    + split; [reflexivity|exact Heq].
    + cbn [map] in Heq. change "," with (String comma EmptyString) in Heq.
      step_append Heq. injection Heq as Heq.
      change (String comma EmptyString) with "," in IH.
      destruct (IH (b' :: texts') x y Hlen Hx Hy Heq) as [-> ->]. split; reflexivity.
Qed.

Lemma lines_unique (lines : list (list string)) : forall lines',
  Forall (fun texts => length texts = 7%nat) lines ->
  Forall (fun texts => length texts = 7%nat) lines' ->
  String.concat (String line_feed EmptyString)
    (map (fun texts => String.concat "," (map quoted_if_needed texts)) lines)
  = String.concat (String line_feed EmptyString)
      (map (fun texts => String.concat "," (map quoted_if_needed texts)) lines') ->
  lines = lines'.
Proof.
  assert (Hline : forall texts, length texts = 7%nat ->
            String.concat "," (map quoted_if_needed texts) <> "").
  { intros [|a [|b rest]] Hlen; try discriminate.
    cbn [map]. rewrite concat_cons. cbn [map]. intros H.
    destruct (quoted_if_needed a); discriminate. }
  induction lines as [|l lines IH]; intros [|l' lines'] Hall Hall' Heq.
  - reflexivity.
  - exfalso. cbn [map] in Heq. rewrite concat_cons in Heq.
    apply Forall_cons in Hall' as [Hl' _]. specialize (Hline l' Hl').
    destruct (String.concat "," (map quoted_if_needed l')); [congruence|discriminate].
  - exfalso. cbn [map] in Heq. rewrite concat_cons in Heq.
    apply Forall_cons in Hall as [Hl _]. specialize (Hline l Hl).
    destruct (String.concat "," (map quoted_if_needed l)); [congruence|discriminate].
  - cbn [map] in Heq. rewrite !concat_cons in Heq.
    apply Forall_cons in Hall as [Hl Hall]. apply Forall_cons in Hall' as [Hl' Hall'].
    assert (Hafter : forall rest : list string,
              after_line (match rest with
                          | [] => ""
                          | _ => String line_feed EmptyString
                                 +:+ String.concat (String line_feed EmptyString) rest
                          end)).
    { intros [|r rest]; [exact I|]. rewrite append_String. reflexivity. }
    apply cells_prefix in Heq as [-> Heq]; [|congruence|apply Hafter..].
    f_equal. apply IH; [exact Hall|exact Hall'|].
    destruct lines as [|m lines], lines' as [|m' lines']; try discriminate.
    + reflexivity.
    + cbn [map] in Heq |- *. step_append Heq. injection Heq as Heq. exact Heq.
Qed.

Lemma string_of_Z_not_empty (z : Z) : Str.string_of_Z z <> "".
Proof.
  unfold Str.string_of_Z. destruct z as [|p|p]; cbn; try discriminate.
  pose proof (DecimalPos.Unsigned.to_uint_nonnil p) as H.
  destruct (Pos.to_uint p); cbn; congruence || discriminate.
Qed.

(** X18. The CSV export loses nothing: two lists of rows give the same
    CSV text only if they have as many rows and, row by row, the same
    [pdf_name], [paragraph], [paragraph_index], [page_number],
    [section_heading] and [notes], and confidences that print the same.
    So no comma, quote or line feed inside a cell can be taken for a
    separator. *)
Theorem rowsToCsv_lossless (Number_toString : float -> string)
    (rows rows' : list ExtractionRow) :
  rowsToCsv Number_toString rows = rowsToCsv Number_toString rows' ->
  Forall2 (same_export Number_toString) rows rows'.
Proof.
  unfold rowsToCsv. intros Heq.
  assert (Hbody : String.concat (String line_feed EmptyString)
                    (map (csv_line Number_toString) rows)
                  = String.concat (String line_feed EmptyString)
                      (map (csv_line Number_toString) rows')).
  { remember (String.concat _ (map _ rows)) as body.
    remember (String.concat _ (map _ rows')) as body'.
    clear -Heq. unfold EXPORT_HEADER in Heq. step_append Heq. congruence. }
  clear Heq.
  assert (Hlines : map (fun row => map (cell_text Number_toString) (row_values row)) rows
                   = map (fun row => map (cell_text Number_toString) (row_values row)) rows').
  { apply lines_unique.
    - apply Forall_fmap, Forall_forall. intros row _. reflexivity.
    - apply Forall_fmap, Forall_forall. intros row _. reflexivity.
    - assert (Hmap : forall rs : list ExtractionRow,
                map (fun row => String.concat ","
                                  (map quoted_if_needed
                                     (map (cell_text Number_toString) (row_values row)))) rs
                = map (csv_line Number_toString) rs).
      { intros rs. apply map_ext. intros row. unfold csv_line. rewrite map_map.
        f_equal. apply map_ext. intros value. symmetry. apply toCsvCell_text. }
      rewrite !map_map, !Hmap. exact Hbody. }
  clear Hbody. revert rows' Hlines.
  induction rows as [|row rows IH]; intros [|row' rows'] Hlines; try discriminate;
    [constructor|].
  cbn [map] in Hlines. injection Hlines as Hname Hparagraph Hindex Hpage Hheading Hnotes
                                           Hconfidence Hrest.
  constructor; [|apply IH, Hrest].
  repeat split; try assumption.
  - apply string_of_Z_inj, Hindex.
  - destruct (page_number row) as [p|], (page_number row') as [p'|]; cbn in Hpage.
    + f_equal. apply string_of_Z_inj, Hpage.
    + exfalso. exact (string_of_Z_not_empty _ Hpage).
    + exfalso. symmetry in Hpage. exact (string_of_Z_not_empty _ Hpage).
    + reflexivity.
Qed.

Lemma rowsToCsv_lossless_witness :
  Forall2 (same_export unused_toString) [comma_row] [comma_row].
Proof.
  apply (rowsToCsv_lossless unused_toString [comma_row] [comma_row]). reflexivity.
Defined.

(** ** Requests with a path fallback *)

Lemma caught_last {A : Type} (url : string) (rejection : Awaited A) (lastError : option exn) :
  caught url rejection lastError
  = match caught url rejection None with Some e => Some e | None => lastError end.
Proof.
  destruct rejection as [value| |[ |status message| | ]]; cbn [caught]; try reflexivity.
  destruct (status =? 404); reflexivity.
Qed.

Lemma refused_last (url path : string) (response : Response) (lastError : option exn) :
  refused url path response lastError
  = match refused url path response None with Some e => Some e | None => lastError end.
Proof.
  unfold refused. destruct (rs_status response =? 404); [reflexivity|].
  destruct (rs_text response); apply caught_last.
Qed.

Lemma caught_not_found {A : Type} (url : string) (rejection : Awaited A) (e : exn) :
  caught url rejection None = Some e -> not_found e = false.
Proof.
  destruct rejection as [value| |[ |status message| | ]]; cbn [caught]; try discriminate;
    try (intros [= <-]; reflexivity).
  destruct (status =? 404) eqn:E; [discriminate|]. intros [= <-]. exact E.
Qed.

Lemma refused_not_found (url path : string) (response : Response) (e : exn) :
  refused url path response None = Some e -> not_found e = false.
Proof.
  unfold refused. destruct (rs_status response =? 404) eqn:E; [discriminate|].
  destruct (rs_text response) as [bodyText| |error]; apply caught_not_found.
Qed.

Lemma failure_not_found (base : string) (attempt : string * Awaited Response) (e : exn) :
  failure base attempt = Some e -> not_found e = false.
Proof.
  unfold failure. destruct attempt as [path [response| |error]]; cbn [fst snd].
  - destruct (rs_ok response); [discriminate|]. apply refused_not_found.
  - apply (caught_not_found (A := Response)).
  - apply (caught_not_found (A := Response)).
Qed.

Lemma fetch_paths_spec (base : string) (paths : list string)
    (attempts : list (string * Awaited Response)) : forall lastError,
  fetch_paths base attempts lastError paths
  = match head (omap answered attempts) with
    | Some response => Ok response
    | None =>
        Throw (default (no_route paths)
                 (match last (omap (failure base) attempts) with
                  | Some e => Some e
                  | None => lastError
                  end))
    end.
Proof.
  induction attempts as [|[path fetched] rest IH]; intros lastError; [reflexivity|].
  cbn [fetch_paths omap list_omap].
  assert (Hlast : forall (e : option exn) (errors : list exn),
            match last (match e with Some x => x :: errors | None => errors end) with
            | Some x => Some x
            | None => lastError
            end
            = match last errors with
              | Some x => Some x
              | None => match e with Some x => Some x | None => lastError end
              end).
  { intros [x|] errors; [|reflexivity]. destruct errors as [|y errors]; [reflexivity|].
    rewrite last_cons. destruct (last (y :: errors)) eqn:E; [reflexivity|].
    apply last_None in E. discriminate. }
  destruct fetched as [response| |error]; unfold answered at 1, failure at 1; cbn [fst snd].
  - destruct (rs_ok response); [reflexivity|].
    rewrite IH, Hlast, <- refused_last. reflexivity.
  - rewrite IH, Hlast, <- (caught_last _ (RejectedTypeError (A := Response))). reflexivity.
  - rewrite IH, Hlast, <- (caught_last _ (Rejected (A := Response) error)). reflexivity.
Qed.

(** X19. [fetchWithPathFallback] returns the first response that is [ok],
    in the order of the paths, whatever the earlier paths met; when no path
    answers [ok] it throws the error left by the last path that failed
    otherwise than with a 404, and the message that no route is supported
    when there is none.  So it never throws an [HttpError] of status 404. *)
Theorem fetchWithPathFallback_first_answer (resolvedBaseUrl : string)
    (attempts : list (string * Awaited Response)) :
  let base := sanitizeBaseUrl resolvedBaseUrl in
  fetchWithPathFallback resolvedBaseUrl attempts
  = match head (omap answered attempts) with
    | Some response => Ok response
    | None =>
        Throw (default (no_route (map fst attempts)) (last (omap (failure base) attempts)))
    end
  /\ forall error,
       fetchWithPathFallback resolvedBaseUrl attempts = Throw error -> not_found error = false.
Proof.
  intros base.
  assert (Hspec : fetchWithPathFallback resolvedBaseUrl attempts
                  = match head (omap answered attempts) with
                    | Some response => Ok response
                    | None =>
                        Throw (default (no_route (map fst attempts))
                                 (last (omap (failure base) attempts)))
                    end).
  { unfold fetchWithPathFallback. rewrite fetch_paths_spec. fold base.
    destruct (head (omap answered attempts)); [reflexivity|].
    destruct (last (omap (failure base) attempts)); reflexivity. }
  split; [exact Hspec|].
  intros error. rewrite Hspec.
  destruct (head (omap answered attempts)); [discriminate|].
  destruct (last (omap (failure base) attempts)) as [e|] eqn:Elast.
  - intros [= <-]. apply last_Some_elem_of in Elast.
    apply list_elem_of_omap in Elast as (attempt & _ & Hfailure).
    exact (failure_not_found base attempt e Hfailure).
  - intros [= <-]. reflexivity.
Qed.

(** ** Model output around its JSON *)

Lemma strip_prefix_absent (c : ascii) (pat l : list ascii) :
  c ∉ l -> Str.strip_prefix (c :: pat) l = None.
Proof.
  destruct l as [|d l]; [reflexivity|]. intros Hnot. cbn [Str.strip_prefix].
  destruct (Ascii.eqb c d) eqn:E; [|reflexivity].
  apply Ascii.eqb_eq in E. subst d. exfalso. apply Hnot, elem_of_cons. left. reflexivity.
Qed.

Lemma find_sub_absent (c : ascii) (pat l : list ascii) :
  c ∉ l -> Str.find_sub (c :: pat) l = None.
Proof.
  induction l as [|d l IH]; intros Hnot.
  - reflexivity.
  - cbn [Str.find_sub]. rewrite (strip_prefix_absent c pat (d :: l) Hnot).
    rewrite IH; [reflexivity|]. intros H. apply Hnot, elem_of_cons. right. exact H.
Qed.

Lemma strip_prefix_app (pat rest : list ascii) : Str.strip_prefix pat (pat ++ rest) = Some rest.
Proof.
  induction pat as [|p pat IH]; [destruct rest; reflexivity|].
  cbn [app Str.strip_prefix]. rewrite Ascii.eqb_refl. exact IH.
Qed.

Lemma find_sub_first (c : ascii) (pat before rest : list ascii) :
  c ∉ before ->
  Str.find_sub (c :: pat) (before ++ c :: pat ++ rest) = Some (before, rest).
Proof.
  induction before as [|d before IH]; intros Hnot.
  - cbn [app Str.find_sub Str.strip_prefix]. rewrite Ascii.eqb_refl, strip_prefix_app.
    reflexivity.
  - cbn [app Str.find_sub Str.strip_prefix].
    destruct (Ascii.eqb c d) eqn:E.
    + apply Ascii.eqb_eq in E. subst d. exfalso. apply Hnot, elem_of_cons. left. reflexivity.
    + rewrite IH; [reflexivity|]. intros H. apply Hnot, elem_of_cons. right. exact H.
Qed.

Lemma index_from_first (c : ascii) (before rest : list ascii) : forall i,
  c ∉ before -> Str.index_from c i (before ++ c :: rest) = Some (i + length before)%nat.
Proof.
  induction before as [|d before IH]; intros i Hnot; cbn [app Str.index_from length].
  - rewrite Ascii.eqb_refl. f_equal. lia.
  - destruct (Ascii.eqb c d) eqn:E.
    + apply Ascii.eqb_eq in E. subst d. exfalso. apply Hnot, elem_of_cons. left. reflexivity.
    + rewrite IH; [f_equal; lia|]. intros H. apply Hnot, elem_of_cons. right. exact H.
Qed.

Lemma last_index_from_absent (c : ascii) (l : list ascii) : forall i found,
  c ∉ l -> Str.last_index_from c i l found = found.
Proof.
  induction l as [|d l IH]; intros i found Hnot; cbn [Str.last_index_from]; [reflexivity|].
  destruct (Ascii.eqb c d) eqn:E.
  - apply Ascii.eqb_eq in E. subst d. exfalso. apply Hnot, elem_of_cons. left. reflexivity.
  - apply IH. intros H. apply Hnot, elem_of_cons. right. exact H.
Qed.

Lemma last_index_from_last (c : ascii) (l after : list ascii) : forall i found,
  c ∉ after ->
  Str.last_index_from c i (l ++ c :: after) found = Some (i + length l)%nat.
Proof.
  induction l as [|d l IH]; intros i found Hnot; cbn [app Str.last_index_from length].
  - rewrite Ascii.eqb_refl, last_index_from_absent; [f_equal; lia|exact Hnot].
  - rewrite IH; [f_equal; lia|exact Hnot].
Qed.

Lemma trim_start_blank (blank rest : list ascii) (first : ascii) :
  Forall (fun c => Str.is_space c = true) blank ->
  Str.is_space first = false ->
  Str.trim_start (blank ++ first :: rest) = first :: rest.
Proof.
  intros Hblank Hfirst. induction Hblank as [|c blank Hc _ IH]; cbn [app Str.trim_start].
  - rewrite Hfirst. reflexivity.
  - rewrite Hc. exact IH.
Qed.

Lemma not_elem_of_app_3 (c : ascii) (a b : list ascii) (x y : ascii) (d : list ascii) :
  c ∉ a -> c ∉ b -> c ∉ d -> c <> x -> c <> y -> c ∉ a ++ x :: b ++ y :: d.
Proof.
  intros Ha Hb Hd Hx Hy H.
  apply elem_of_app in H as [H|H]; [contradiction|].
  apply elem_of_cons in H as [H|H]; [contradiction|].
  apply elem_of_app in H as [H|H]; [contradiction|].
  apply elem_of_cons in H as [H|H]; contradiction.
Qed.

(** X20. [extractJsonObject] returns the object a model output presents:
    the text from the first opening brace to the last closing brace when
    the object stands in prose, and the trimmed content of the block when
    it stands in a fence marked [json]. *)
Theorem extractJsonObject_presented (raw object : string) :
  presents raw object -> extractJsonObject raw = Ok object.
Proof.
  intros [before inside after Hb Hi Ha Hopen Hclose
         |before blank after first block Hb Hblock Hblank Hfirst].
  - unfold extractJsonObject, fencedMatch. rewrite chars_of_chars.
    unfold fence.
    rewrite (find_sub_absent backquote);
      [|apply not_elem_of_app_3; try assumption; discriminate].
    unfold Str.indexOf, Str.lastIndexOf. rewrite chars_of_chars.
    rewrite (index_from_first "{"%char before _ 0%nat Hopen).
    change (before ++ "{"%char :: inside ++ "}"%char :: after)
      with (before ++ ("{"%char :: inside) ++ "}"%char :: after).
    rewrite app_assoc, (last_index_from_last "}"%char _ after 0%nat None Hclose).
    rewrite length_app. cbn [length Nat.add].
    destruct (length before + S (length inside) <=? length before)%nat eqn:E;
      [apply Nat.leb_le in E; lia|].
    f_equal. unfold Str.slice. rewrite chars_of_chars. f_equal.
    rewrite <- app_assoc, drop_app_length.
    replace (length before + S (length inside) + 1 - length before)%nat
      with (length (("{"%char :: inside) ++ ["}"%char])) by (rewrite length_app; cbn; lia).
    change (("{"%char :: inside) ++ "}"%char :: after)
      with (("{"%char :: inside) ++ ["}"%char] ++ after).
    rewrite app_assoc, take_app_length. reflexivity.
  - unfold extractJsonObject, fencedMatch. rewrite chars_of_chars.
    unfold fence. fold backquote.
    change (before ++ [backquote; backquote; backquote] ++ Str.chars "json" ++ blank
            ++ (first :: block) ++ [backquote; backquote; backquote] ++ after)
      with (before ++ backquote :: [backquote; backquote]
            ++ (Str.chars "json" ++ blank ++ (first :: block)
                ++ [backquote; backquote; backquote] ++ after)).
    rewrite (find_sub_first backquote [backquote; backquote] before _ Hb).
    assert (Hjson : forall rest,
              Str.strip_prefix_ci (Str.chars "json") (Str.chars "json" ++ rest) = Some rest).
    { intros rest. destruct rest; reflexivity. }
    rewrite Hjson. cbn [default from_option]. unfold id.
    change (blank ++ (first :: block) ++ [backquote; backquote; backquote] ++ after)
      with (blank ++ first :: (block ++ [backquote; backquote; backquote] ++ after)).
    rewrite (trim_start_blank blank _ first Hblank Hfirst).
    change (first :: block ++ [backquote; backquote; backquote] ++ after)
      with ((first :: block) ++ backquote :: [backquote; backquote] ++ after).
    rewrite (find_sub_first backquote [backquote; backquote] (first :: block) after Hblock).
    reflexivity.
Qed.

Lemma extractJsonObject_presented_witness :
  extractJsonObject
    (Str.of_chars (Str.chars "Here is the result: " ++ "{"%char
                   :: Str.chars "keep:[]" ++ "}"%char :: Str.chars " Done."))
  = Ok (Str.of_chars ("{"%char :: Str.chars "keep:[]" ++ ["}"%char])).
Proof.
  apply extractJsonObject_presented. apply in_prose.
  - vm_compute. intros H. repeat (apply elem_of_cons in H as [H|H]; [discriminate|]).
    exact (not_elem_of_nil _ H).
  - vm_compute. intros H. repeat (apply elem_of_cons in H as [H|H]; [discriminate|]).
    exact (not_elem_of_nil _ H).
  - vm_compute. intros H. repeat (apply elem_of_cons in H as [H|H]; [discriminate|]).
    exact (not_elem_of_nil _ H).
  - vm_compute. intros H. repeat (apply elem_of_cons in H as [H|H]; [discriminate|]).
    exact (not_elem_of_nil _ H).
  - vm_compute. intros H. repeat (apply elem_of_cons in H as [H|H]; [discriminate|]).
    exact (not_elem_of_nil _ H).
Defined.

(** ** A batch from preparation to import *)

Lemma prepared_from_lookup (files : list BatchFile) : forall start preparedFiles i file,
  prepared_from start files preparedFiles ->
  files !! i = Some file ->
  exists prepared,
    preparedFiles !! i = Some prepared
    /\ prepareSinglePdfForBatch file (Z.of_nat (start + i)) = Ok prepared.
Proof.
  induction files as [|f files IH]; intros start [|p preparedFiles] i file Hfrom Hi;
    cbn [prepared_from] in Hfrom; try contradiction; try discriminate.
  destruct Hfrom as [Hf Hrest]. destruct i as [|i].
  - injection Hi as <-. exists p. rewrite Nat.add_0_r. split; [reflexivity|exact Hf].
  - destruct (IH (S start) preparedFiles i file Hrest Hi) as (prepared & Hp & Hprepared).
    exists prepared. split; [exact Hp|].
    replace (start + S i)%nat with (S start + i)%nat by lia. exact Hprepared.
Qed.

Lemma elem_of_concat_map {A B : Type} (f : A -> list B) (l : list A) (x : A) (y : B) :
  x ∈ l -> y ∈ f x -> y ∈ concat (map f l).
Proof.
  intros Hx Hy. destruct (concat_map_elem f x l Hx) as (before & after & ->).
  apply elem_of_app. right. apply elem_of_app. left. exact Hy.
Qed.

Lemma page_tasks_shape pdfName fileIndex totalPages (pages : list VisionPage) :
  forall pageNumber taskIndex (tasks result : list ExtractionBatchTask),
    page_tasks pdfName fileIndex totalPages pageNumber taskIndex pages tasks = Ok result ->
    forall k, (k < length pages)%nat ->
      VisionPageBatchTask
        (createBatchCustomId fileIndex (taskIndex + Z.of_nat k) vision_page)
        pdfName fileIndex (taskIndex + Z.of_nat k) (pageNumber + Z.of_nat k) totalPages
      ∈ result.
Proof.
  assert (Hkeeps : forall (pages : list VisionPage) pageNumber taskIndex tasks result task,
            page_tasks pdfName fileIndex totalPages pageNumber taskIndex pages tasks
            = Ok result ->
            task ∈ tasks -> task ∈ result).
  { clear pages. induction pages as [|page rest IH];
      intros pageNumber taskIndex tasks result task Hrun Hin; cbn [page_tasks] in Hrun.
    - injection Hrun as <-. exact Hin.
    - destruct (vpg_abortedAtPage page); [discriminate|].
      destruct (vpg_image page) as [image|e]; [|discriminate]. cbn [mbind res_bind] in Hrun.
      destruct (vpg_abortedAtCall page); [discriminate|].
      apply (IH _ _ _ _ task Hrun). apply elem_of_app. left. exact Hin. }
  induction pages as [|page rest IH]; intros pageNumber taskIndex tasks result Hrun k Hk;
    cbn [length] in Hk; [lia|].
  cbn [page_tasks] in Hrun.
  destruct (vpg_abortedAtPage page); [discriminate|].
  destruct (vpg_image page) as [image|e]; [|discriminate]. cbn [mbind res_bind] in Hrun.
  destruct (vpg_abortedAtCall page); [discriminate|].
  destruct k as [|k].
  - rewrite !Z.add_0_r. apply (Hkeeps _ _ _ _ _ _ Hrun).
    apply elem_of_app. right. apply elem_of_cons. left. reflexivity.
  - replace (taskIndex + Z.of_nat (S k)) with (taskIndex + 1 + Z.of_nat k) by lia.
    replace (pageNumber + Z.of_nat (S k)) with (pageNumber + 1 + Z.of_nat k) by lia.
    apply (IH _ _ _ _ Hrun). lia.
Qed.

(** X21. From preparation to import, nothing is lost without a word: for
    a batch prepared from some files, whose result files parse, the import
    returns rows, and for every chunk of a text document with no line in
    either result file each candidate has its fallback row among them
    (unless de-duplication kept another row with the same normalised
    text), and for every page of a scanned document with no line its
    failure row is among them. *)
Theorem batch_without_answers_loses_nothing
    (JSON_parse : string -> res json) (Number_toString : float -> string)
    (createdAt model : string) (quality : option PartialQualitySettings)
    (files : list BatchFile) (preparedFiles : list PreparedFile) (requestBytes : Z)
    (batch : PreparedOpenAiExtractionBatch)
    (outputFileText errorFileText : option string) (outputMap errorMap : gmap string json) :
  prepared_from 0 files preparedFiles ->
  prepareOpenAiExtractionBatch true createdAt model quality preparedFiles requestBytes
  = Ok batch ->
  resultMap JSON_parse outputFileText = Ok outputMap ->
  resultMap JSON_parse errorFileText = Ok errorMap ->
  exists rows,
    importOpenAiBatchResultFiles JSON_parse Number_toString (pb_manifest batch)
      outputFileText errorFileText = Ok rows
    /\ (forall i file parsed j chunk,
          files !! i = Some file ->
          bf_parsed file = Ok parsed ->
          chunkParagraphs (pp_paragraphs parsed) !! j = Some chunk ->
          let customId := createBatchCustomId (Z.of_nat i) (Z.of_nat j) text_filter in
          outputMap !! customId = None ->
          errorMap !! customId = None ->
          Forall (fun candidate =>
                    returned_or_duplicate rows (fallbackRow (bf_name file) no_result candidate))
                 chunk)
    /\ (forall i file parsed pages k,
          files !! i = Some file ->
          bf_parsed file = Ok parsed ->
          pp_paragraphs parsed = [] ->
          bf_pages file = Ok pages ->
          (k < length pages)%nat ->
          let customId := createBatchCustomId (Z.of_nat i) (Z.of_nat k) vision_page in
          outputMap !! customId = None ->
          errorMap !! customId = None ->
          exists index,
            with_index index (visionFailureRow (bf_name file) (Z.of_nat k + 1) no_result)
            ∈ rows).
Proof.
  intros Hfrom Hrun Hout Herr.
  unfold prepareOpenAiExtractionBatch in Hrun. cbn [negb mf_tasks] in Hrun.
  destruct (Z.of_nat (length (concat (map pr_tasks preparedFiles))) =? 0); [discriminate|].
  destruct (200 * 1024 * 1024 <? requestBytes); [discriminate|].
  destruct (50000 <? _); [discriminate|].
  injection Hrun as <-. cbn [pb_manifest].
  set (manifest := {| mf_createdAt := createdAt; mf_model := model;
                      mf_quality := as_partial (sanitizeQualitySettings quality);
                      mf_files := map pr_filePlan preparedFiles;
                      mf_tasks := concat (map pr_tasks preparedFiles) |}).
  eexists. split; [apply (importOpenAiBatchResultFiles_eq JSON_parse Number_toString manifest
                            outputFileText errorFileText outputMap errorMap Hout Herr)|].
  destruct (prepared_from_tasks files 0 preparedFiles Hfrom) as (_ & Hall & _ & _).
  assert (Htask : forall i file prepared task,
            files !! i = Some file ->
            preparedFiles !! i = Some prepared ->
            task ∈ pr_tasks prepared ->
            outputMap !! task_customId task = None ->
            errorMap !! task_customId task = None ->
            Forall (returned_or_duplicate
                      (concat (map (rowsForFilePlan
                                      (manifestRows JSON_parse Number_toString manifest
                                         outputMap errorMap))
                                   (sort_files (mf_files manifest)))))
                   (failureRows task no_result)).
  { intros i file prepared task Hfile Hprepared Htask Ho He.
    assert (Hin : task ∈ mf_tasks manifest).
    { apply (elem_of_concat_map pr_tasks preparedFiles prepared); [|exact Htask].
      apply list_elem_of_lookup. exists i. exact Hprepared. }
    assert (Hplanned : planned manifest task).
    { rewrite Forall_forall in Hall. destruct (Hall task Hin) as (_ & _ & Hplan). exact Hplan. }
    destruct (taskRows_returned JSON_parse Number_toString manifest outputFileText
                errorFileText outputMap errorMap task Hout Herr Hin Hplanned)
      as (rows & Hrows & Hreturned).
    rewrite (importOpenAiBatchResultFiles_eq JSON_parse Number_toString manifest
               outputFileText errorFileText outputMap errorMap Hout Herr) in Hrows.
    injection Hrows as <-.
    unfold taskRows in Hreturned.
    rewrite (lookup_line_missing outputMap errorMap task Ho He) in Hreturned.
    rewrite taskAttempt_missing in Hreturned. exact Hreturned. }
  split.
  - intros i file parsed j chunk Hfile Hparsed Hchunk; cbv zeta; intros Ho He.
    destruct (prepared_from_lookup files 0 preparedFiles i file Hfrom Hfile)
      as (prepared & Hprepared & Hsingle).
    cbn [Nat.add] in Hsingle. unfold prepareSinglePdfForBatch in Hsingle.
    rewrite Hparsed in Hsingle. cbn [mbind res_bind] in Hsingle.
    destruct (pp_paragraphs parsed) as [|p paragraphs] eqn:Eparagraphs; [discriminate|].
    cbn [length Nat.eqb] in Hsingle. injection Hsingle as <-.
    pose proof (Htask i file _
                  (chunk_task (bf_name file) (Z.of_nat i)
                     (length (chunkParagraphs (p :: paragraphs))) j chunk)
                  Hfile Hprepared) as H.
    cbn [pr_tasks failureRows chunk_task task_customId] in H.
    unfold fallbackRowsFromChunk in H. rewrite Forall_map in H.
    apply H; [|exact Ho|exact He].
    apply elem_of_lookup_imap. exists j, chunk. split; [reflexivity|exact Hchunk].
  - intros i file parsed pages k Hfile Hparsed Hempty Hpages Hk; cbv zeta; intros Ho He.
    destruct (prepared_from_lookup files 0 preparedFiles i file Hfrom Hfile)
      as (prepared & Hprepared & Hsingle).
    cbn [Nat.add] in Hsingle. unfold prepareSinglePdfForBatch in Hsingle.
    rewrite Hparsed in Hsingle. cbn [mbind res_bind] in Hsingle.
    rewrite Hempty in Hsingle. cbn [length Nat.eqb] in Hsingle.
    destruct (bf_abortedAtOpen file); [discriminate|].
    rewrite Hpages in Hsingle. cbn [mbind res_bind] in Hsingle.
    destruct (page_tasks _ _ _ 1 0 pages []) as [tasks|e] eqn:Eloop; [|discriminate].
    cbn [mbind res_bind] in Hsingle. injection Hsingle as <-.
    pose proof (page_tasks_shape _ _ _ _ _ _ _ _ Eloop k Hk) as Hin.
    rewrite Z.add_0_l in Hin.
    pose proof (Htask i file _ _ Hfile Hprepared Hin Ho He) as H.
    cbn [failureRows] in H. apply Forall_cons in H as [[H|(Ht & _)] _].
    + rewrite Z.add_comm. exact H.
    + vm_compute in Ht. discriminate.
Qed.

Lemma batch_without_answers_loses_nothing_witness :
  exists rows,
    importOpenAiBatchResultFiles rejecting_parser unused_toString
      {| mf_createdAt := "2025-01-01T00:00:00.000Z";
         mf_model := "gpt-4o-mini";
         mf_quality := as_partial (sanitizeQualitySettings None);
         mf_files := map pr_filePlan two_files_prepared;
         mf_tasks := concat (map pr_tasks two_files_prepared) |}
      None None = Ok rows
    /\ Forall (fun candidate =>
                 returned_or_duplicate rows (fallbackRow "report.pdf" no_result candidate))
              distinct_chunk
    /\ exists index, with_index index (visionFailureRow "scan.pdf" 1 no_result) ∈ rows.
Proof.
  destruct (batch_without_answers_loses_nothing rejecting_parser unused_toString
              "2025-01-01T00:00:00.000Z" "gpt-4o-mini" None two_files two_files_prepared 4096
              {| pb_manifest :=
                   {| mf_createdAt := "2025-01-01T00:00:00.000Z";
                      mf_model := "gpt-4o-mini";
                      mf_quality := as_partial (sanitizeQualitySettings None);
                      mf_files := map pr_filePlan two_files_prepared;
                      mf_tasks := concat (map pr_tasks two_files_prepared) |};
                 pb_requestCount := 2;
                 pb_requestBytes := 4096 |}
              None None ∅ ∅)
    as (rows & Hrows & Htext & Hvision).
  - split; [reflexivity|]. split; [reflexivity|exact I].
  - reflexivity.
  - reflexivity.
  - reflexivity.
  - exists rows. split; [exact Hrows|]. split.
    + refine (Htext 0%nat _ _ 0%nat distinct_chunk eq_refl eq_refl _ _ _);
        [vm_compute; reflexivity|apply lookup_empty|apply lookup_empty].
    + refine (Hvision 1%nat _ _ _ 0%nat eq_refl eq_refl eq_refl eq_refl _ _ _);
        [cbn; lia|apply lookup_empty|apply lookup_empty].
Defined.
